(** * Backup coordination engine of [br]: a shallow embedding

    The development follows [pkg/raw/full.go] (the backup client) and
    [cmd/raw.go] (the [backup full] command handler).  External
    collaborators (the placement driver client, the lock resolver, the
    storage backend, the catalog) appear as fields of environment records:
    each field is the answer the collaborator gives when the code calls it.
    Go's [error] is a message; a nilable error is an [option]. *)

From Stdlib Require Import ZArith Lia.
From stdpp Require Import gmap strings list.

Local Open Scope Z_scope.

(** ** Go values *)

Module Go.

Definition error := string.

(** A call returning [(T, error)]: either the error or the value. *)
Definition res (A : Type) : Type := error + A.

Definition ok {A} (a : A) : res A := inr a.
Definition fail {A} (e : error) : res A := inl e.

Definition bind {A B} (m : res A) (k : A -> res B) : res B :=
  match m with
  | inl e => inl e
  | inr a => k a
  end.

Definition is_ok {A} (m : res A) : bool :=
  match m with inr _ => true | inl _ => false end.

(** [int64] values after an arithmetic operation: two's complement
    wrap-around into [-2^63, 2^63). *)
Definition int64 (z : Z) : Z := (z + 2 ^ 63) mod 2 ^ 64 - 2 ^ 63.

(** [uint64] values after an arithmetic operation. *)
Definition uint64 (z : Z) : Z := z mod 2 ^ 64.

Definition in_int64 (z : Z) : Prop := - 2 ^ 63 <= z < 2 ^ 63.
Definition in_uint64 (z : Z) : Prop := 0 <= z < 2 ^ 64.

(** [x != nil] *)
Definition is_Some_b {A} (x : option A) : bool :=
  match x with Some _ => true | None => false end.

End Go.

Notation "'try' x <- m 'in' k" := (Go.bind m (fun x => k))
  (at level 10, x pattern, m at level 100, k at level 200).

(** ** Timestamps ([pkg/meta]) *)

Module Meta.

Record Timestamp := { Physical : Z; Logical : Z }.

(** Modelled from the spec: [meta.EncodeTs] lives in [pkg/meta], which is
    not part of the sources at hand.  The specification fixes the layout
    bit for bit: 64-bit [(physical_ms << 18) | (logical & ((1<<18)-1))]. *)
Definition EncodeTs (tp : Timestamp) : Z :=
  Go.uint64 (Z.lor (Z.shiftl (Physical tp) 18)
                   (Z.land (Logical tp) (Z.ones 18))).

(** The physical component of an encoded timestamp. *)
Definition PhysicalOf (ts : Z) : Z := Z.shiftr ts 18.

End Meta.

(** ** Wire messages ([kvproto]) *)

Definition bytes := list Byte.byte.

Module File.
Record t := {
  Name : string;
  StartKey : bytes;
  EndKey : bytes;
  Crc64Xor : Z;
  TotalKvs : Z;
  TotalBytes : Z;
  StartVersion : Z;
  EndVersion : Z;
  Cf : string;
}.
End File.

Module Schema.
Record t := {
  Db : bytes;
  Table : bytes;
  Crc64Xor : Z;
  TotalKvs : Z;
  TotalBytes : Z;
}.
End Schema.

Module BackupMeta.
Record t := {
  ClusterId : Z;
  Path : string;
  StartVersion : Z;
  EndVersion : Z;
  Schemas : list Schema.t;
  Files : list File.t;
}.

(** The zero value a fresh [BackupClient] holds. *)
Definition zero : t :=
  {| ClusterId := 0; Path := ""; StartVersion := 0; EndVersion := 0;
     Schemas := []; Files := [] |}.
End BackupMeta.

Module BackupRequest.
Record t := {
  ClusterId : Z;
  StartKey : bytes;
  EndKey : bytes;
  StartVersion : Z;
  EndVersion : Z;
  Path : string;
  RateLimit : Z;
  Concurrency : Z;
}.
End BackupRequest.

(** [kvrpcpb.KeyError]: the code only looks at [Locked]; the other arms are
    kept as the messages they carry. *)
Module Kvrpcpb.
Record LockInfo := {
  PrimaryLock : bytes;
  LockVersion : Z;
  Key : bytes;
  LockTtl : Z;
}.

Record KeyError := {
  Locked : option LockInfo;
  Retryable : string;
  Abort : string;
}.
End Kvrpcpb.

(** [errorpb.Error]: every arm is an optional sub-message.  The code tests
    the arms for presence only, so a present arm is represented by the
    region or store id it reports. *)
Module Errorpb.
Record Error := {
  Message : string;
  NotLeader : option Z;
  RegionNotFound : option Z;
  KeyNotInRegion : option Z;
  EpochNotMatch : option Z;
  ServerIsBusy : option Z;
  StaleCommand : option Z;
  StoreNotMatch : option Z;
  RaftEntryTooLarge : option Z;
}.
End Errorpb.

Module BackupError.
(** The [oneof detail] of [backup.Error].  A decoded message always
    carries the payload of the arm that is set, so the payloads are not
    nilable here. *)
Inductive isError_Detail :=
| Error_ClusterIdError (current request : Z)
| Error_KvError (KvError : Kvrpcpb.KeyError)
| Error_RegionError (RegionError : Errorpb.Error).

Record t := {
  Msg : string;
  Detail : option isError_Detail;   (* [None]: no arm set, or an unknown one *)
}.
End BackupError.

Module BackupResponse.
Record t := {
  Error : option BackupError.t;
  StartKey : bytes;
  EndKey : bytes;
  Files : list File.t;
}.
End BackupResponse.

(** ** Catalog objects ([parser/model]) *)

Module Model.
Record CIStr := { O : string; L : string }.

Record PartitionDefinition := { PartID : Z; PartName : CIStr }.

Record PartitionInfo := {
  Enable : bool;
  Definitions : list PartitionDefinition;
}.

Record TableInfo := {
  ID : Z;
  Name : CIStr;
  AutoIncID : Z;
  Partition : option PartitionInfo;
}.

Record DBInfo := {
  DBID : Z;
  DBName : CIStr;
  Tables : list TableInfo;
}.

(** [TableInfo.GetPartitionInfo]: the partition info when the table has
    one and it is enabled, [nil] otherwise. *)
Definition GetPartitionInfo (t : TableInfo) : option PartitionInfo :=
  match Partition t with
  | Some pi => if Enable pi then Some pi else None
  | None => None
  end.

(** [tableInfo.AutoIncID = v] *)
Definition set_AutoIncID (t : TableInfo) (v : Z) : TableInfo :=
  {| ID := ID t; Name := Name t; AutoIncID := v; Partition := Partition t |}.
End Model.

(** ** The backup client ([pkg/raw/full.go]) *)

Module Raw.

Import Go.

Definition backupFineGrainedMaxBackoff : Z := 80000.

(** [utils.MetaFile] *)
Definition MetaFile : string := "backupmeta".

(** *** [GetTS] *)

(** Calls made to the collaborators, in order. *)
Inductive call :=
| CallPdGetTS
| CallParseDuration (s : string)
| CallGetGCSafePoint.

Section GetTS.
(** [bc.pdClient.GetTS]: physical milliseconds and logical counter. *)
Variable pd_GetTS : res (Z * Z).
(** [time.ParseDuration]: nanoseconds. *)
Variable ParseDuration : string -> res Z.
(** [bc.backer.GetGCSafePoint] *)
Variable GetGCSafePoint : res Meta.Timestamp.

(** [time.Millisecond] in nanoseconds. *)
Definition Millisecond : Z := 1000000.

(** The result, together with the calls that were made. *)
Definition GetTS (timeAgo : string) : list call * res Z :=
  match pd_GetTS with
  | inl err => ([CallPdGetTS], fail err)
  | inr (p, l) =>
      if decide (timeAgo = "") then
        ([CallPdGetTS],
         ok (Meta.EncodeTs {| Meta.Physical := p; Meta.Logical := l |}))
      else
        match ParseDuration timeAgo with
        | inl err => ([CallPdGetTS; CallParseDuration timeAgo], fail err)
        | inr duration =>
            let t := Z.quot duration Millisecond in
            match GetGCSafePoint with
            | inl err =>
                ([CallPdGetTS; CallParseDuration timeAgo; CallGetGCSafePoint],
                 fail err)
            | inr safePoint =>
                if int64 (p - t) <? Meta.Physical safePoint then
                  ([CallPdGetTS; CallParseDuration timeAgo; CallGetGCSafePoint],
                   fail "given backup time exceed GCSafePoint")
                else
                  let p := int64 (p - t) in
                  ([CallPdGetTS; CallParseDuration timeAgo; CallGetGCSafePoint],
                   ok (Meta.EncodeTs {| Meta.Physical := p; Meta.Logical := l |}))
            end
        end
  end.
End GetTS.

(** *** [SetStorage] *)

(** [utils.ExternalStorage], as far as the client uses it here. *)
Record ExternalStorage := {
  FileExists : string -> bool;
}.

Section SetStorage.
(** [utils.CreateStorage] *)
Variable CreateStorage : string -> res ExternalStorage.

(** Returns the new value of [bc.storage] and the error.  The field is
    assigned before the error of [CreateStorage] is looked at; on
    failure it holds [nil]. *)
Definition SetStorage (base : string) : option ExternalStorage * option error :=
  match CreateStorage base with
  | inl err => (None, Some err)
  | inr storage =>
      if FileExists storage MetaFile then
        (Some storage,
         Some "backup meta exists, may be some backup files in the path already")
      else (Some storage, None)
  end.
End SetStorage.

(** *** The response classifier *)

Section Classifier.
(** [lockResolver.ResolveLocks] on the single lock built from the
    [LockInfo]: milliseconds before the lock expires. *)
Variable ResolveLocks : Kvrpcpb.LockInfo -> res Z.

(** Returns [(response, backoffMs, err)]. *)
Definition onBackupResponse (resp : BackupResponse.t)
  : option BackupResponse.t * Z * option error :=
  match BackupResponse.Error resp with
  | None => (Some resp, 0, None)
  | Some respError =>
      let backoffMs := 0 in
      match BackupError.Detail respError with
      | Some (BackupError.Error_KvError v) =>
          match Kvrpcpb.Locked v with
          | Some lockErr =>
              match ResolveLocks lockErr with
              | inl err1 => (None, 0, Some err1)
              | inr msBeforeExpired =>
                  let backoffMs :=
                    if 0 <? msBeforeExpired then msBeforeExpired else backoffMs in
                  (None, backoffMs, None)
              end
          | None => (None, backoffMs, Some "onBackupResponse error: kv error")
          end
      | Some (BackupError.Error_RegionError regionErr) =>
          if negb (is_Some_b (Errorpb.EpochNotMatch regionErr)
                   || is_Some_b (Errorpb.NotLeader regionErr)
                   || is_Some_b (Errorpb.RegionNotFound regionErr)
                   || is_Some_b (Errorpb.ServerIsBusy regionErr)
                   || is_Some_b (Errorpb.StaleCommand regionErr)
                   || is_Some_b (Errorpb.StoreNotMatch regionErr))
          then (None, backoffMs, Some "onBackupResponse error: region error")
          else
            let backoffMs := 1000 in
            (None, backoffMs, None)
      | Some (BackupError.Error_ClusterIdError _ _) =>
          (None, 0, Some (BackupError.Msg respError))
      | None =>
          (None, 0, Some (BackupError.Msg respError))
      end
  end.

(** The closure handed to [SendBackup] by [handleFineGrained].  Its
    captured variables are [max] and the channel [respCh]; the channel
    is the list of responses sent so far. *)
Definition respFn (st : Z * list BackupResponse.t) (resp : BackupResponse.t)
  : (Z * list BackupResponse.t) * option error :=
  let '(max, respCh) := st in
  let '(response, backoffMs, err) := onBackupResponse resp in
  match err with
  | Some e => ((max, respCh), Some e)
  | None =>
      let max := if max <? backoffMs then backoffMs else max in
      let respCh :=
        match response with
        | Some r => respCh ++ [r]
        | None => respCh
        end in
      ((max, respCh), None)
  end.
End Classifier.

(** *** Ranges, stores and the collaborators of a backup *)

Record Range := {
  StartKey : bytes;
  EndKey : bytes;
  Files : list File.t;
}.

Record Store := { StoreID : Z; Address : string }.
Record Peer := { PeerId : Z; StoreId : Z }.

(** What the cluster and the helper packages answer during one job.
    [RangeTree], [pushBackup] and [checkDupFiles] belong to files of the
    package that are not at hand; the rest is the placement driver, the
    lock resolver, the transport and the backoffer. *)
Record Cluster (RangeTree : Type) := {
  (** [bc.pdClient.GetAllStores] *)
  GetAllStores : res (list Store);
  (** [newPushDown(..).pushBackup(req, allStores, updateCh)] *)
  pushBackup : BackupRequest.t -> list Store -> res RangeTree;
  (** [rangeTree.getIncompleteRange(startKey, endKey)] *)
  getIncompleteRange : RangeTree -> bytes -> bytes -> list Range;
  (** [rangeTree.putOk(startKey, endKey, files)] *)
  putOk : RangeTree -> bytes -> bytes -> list File.t -> RangeTree;
  (** the ranges visited by [results.tree.Ascend], in order *)
  Ascend : RangeTree -> list Range;
  (** [results.checkDupFiles()]: [true] when the call comes back (it has
      no result; only a fatal log entry could keep it from returning) *)
  checkDupFiles : RangeTree -> bool;
  (** [codec.EncodeBytes([]byte{}, key)] *)
  EncodeBytes : bytes -> bytes;
  (** [bc.pdClient.GetRegion] at attempt [i]: the leader, if any *)
  GetRegion : nat -> bytes -> res (option Peer);
  (** [lockResolver.ResolveLocks] *)
  ResolveLocks : Kvrpcpb.LockInfo -> res Z;
  (** the frames a store streams back for a request, and how the stream
      ends: [None] for end of stream, [Some e] for a transport error *)
  Backup : Z -> BackupRequest.t -> list BackupResponse.t * option error;
  (** [bo.BackoffWithMaxSleep(2, ms, ..)] in round [n] of the retry loop *)
  BackoffWithMaxSleep : nat -> Z -> option error;
}.
Arguments GetAllStores {RangeTree}.
Arguments pushBackup {RangeTree}.
Arguments getIncompleteRange {RangeTree}.
Arguments putOk {RangeTree}.
Arguments Ascend {RangeTree}.
Arguments checkDupFiles {RangeTree}.
Arguments EncodeBytes {RangeTree}.
Arguments GetRegion {RangeTree}.
Arguments ResolveLocks {RangeTree}.
Arguments Backup {RangeTree}.
Arguments BackoffWithMaxSleep {RangeTree}.

(** The client: the fields the modelled methods read or write, and the
    requests handed to the transport so far (oldest first). *)
Record BackupClient := {
  clusterID : Z;
  backupMeta : BackupMeta.t;
  issued : list BackupRequest.t;
}.

(** How a call ends: it returns, the process exits in [log.Fatal], a nil
    pointer is dereferenced, or it has not returned: the retry loop is
    still turning when the modelled rounds are used up, or the call waits
    for a message or a worker that does not come. *)
Inductive outcome (A : Type) :=
| Returned (a : A)
| Exited
| Panicked
| Running.
Arguments Returned {A}.
Arguments Exited {A}.
Arguments Panicked {A}.
Arguments Running {A}.

Section FineGrained.
Context {RangeTree : Type}.
Variable c : Cluster RangeTree.

Fixpoint findRegionLeader_loop (n i : nat) (key : bytes) : res Peer :=
  match n with
  | O => fail "can not find region for key"
  | S n' =>
      match GetRegion c i key with
      | inl _ => findRegionLeader_loop n' (S i) key
      | inr (Some leader) => ok leader
      | inr None => findRegionLeader_loop n' (S i) key
      end
  end.

Definition findRegionLeader (key : bytes) : res Peer :=
  let key := EncodeBytes c key in
  findRegionLeader_loop 5 0 key.

(** Modelled from the spec: [Backer.SendBackup] is in [pkg/meta].  It
    issues one streaming request to the store and invokes the callback
    once per frame, in order; an error of the callback ends the call
    with that error, and otherwise the call ends as the stream does. *)
Fixpoint SendBackup_frames {S : Type}
    (frames : list BackupResponse.t) (last : option error)
    (fn : S -> BackupResponse.t -> S * option error) (s : S)
  : S * option error :=
  match frames with
  | [] => (s, last)
  | resp :: frames' =>
      match fn s resp with
      | (s', Some e) => (s', Some e)
      | (s', None) => SendBackup_frames frames' last fn s'
      end
  end.

Definition SendBackup {S : Type} (storeID : Z) (req : BackupRequest.t)
    (fn : S -> BackupResponse.t -> S * option error) (s : S)
  : S * option error :=
  let '(frames, last) := Backup c storeID req in
  SendBackup_frames frames last fn s.

(** What one call of [handleFineGrained] does: the requests it sends,
    the responses it puts on [respCh], and its two results. *)
Record fineGrained := {
  fg_requests : list BackupRequest.t;
  fg_respCh : list BackupResponse.t;
  fg_backoffMs : Z;
  fg_err : option error;
}.

Definition handleFineGrained (bc : BackupClient) (rg : Range)
    (backupTS : Z) (path : string) (rateLimit concurrency : Z)
  : fineGrained :=
  match findRegionLeader (StartKey rg) with
  | inl pderr =>
      {| fg_requests := []; fg_respCh := []; fg_backoffMs := 0;
         fg_err := Some pderr |}
  | inr leader =>
      let max := 0 in
      let req :=
        {| BackupRequest.ClusterId := clusterID bc;
           BackupRequest.StartKey := StartKey rg;
           BackupRequest.EndKey := EndKey rg;
           BackupRequest.StartVersion := backupTS;
           BackupRequest.EndVersion := backupTS;
           BackupRequest.Path := path;
           BackupRequest.RateLimit := rateLimit;
           BackupRequest.Concurrency := concurrency |} in
      match SendBackup (StoreId leader) req
                       (respFn (ResolveLocks c)) (max, []) with
      | ((max, respCh), Some err) =>
          {| fg_requests := [req]; fg_respCh := respCh; fg_backoffMs := 0;
             fg_err := Some err |}
      | ((max, respCh), None) =>
          {| fg_requests := [req]; fg_respCh := respCh; fg_backoffMs := max;
             fg_err := None |}
      end
  end.

(** The four workers of one round, under the schedule in which the
    ranges are taken one after the other and the round stops at the
    first error: requests sent, responses on [respCh], [max.ms], and
    the error put on [errCh]. *)
Fixpoint workers (bc : BackupClient) (incomplete : list Range)
    (backupTS : Z) (path : string) (rateLimit concurrency : Z)
    (reqs : list BackupRequest.t) (respCh : list BackupResponse.t) (ms : Z)
  : list BackupRequest.t * list BackupResponse.t * Z * option error :=
  match incomplete with
  | [] => (reqs, respCh, ms, None)
  | rg :: rest =>
      let r := handleFineGrained bc rg backupTS path rateLimit concurrency in
      let reqs := reqs ++ fg_requests r in
      let respCh := respCh ++ fg_respCh r in
      match fg_err r with
      | Some err => (reqs, respCh, ms, Some err)
      | None =>
          let backoffMs := fg_backoffMs r in
          let ms :=
            if negb (backoffMs =? 0) && (ms <? backoffMs) then backoffMs
            else ms in
          workers bc rest backupTS path rateLimit concurrency reqs respCh ms
      end
  end.

(** The receiving side of [respCh] in [fineGrainedBackup]: a response
    with an error ends the process, any other goes into the tree.
    [None]: [log.Fatal] was reached. *)
Fixpoint selectLoop (rangeTree : RangeTree) (respCh : list BackupResponse.t)
  : option RangeTree :=
  match respCh with
  | [] => Some rangeTree
  | resp :: rest =>
      if is_Some_b (BackupResponse.Error resp) then None
      else
        selectLoop
          (putOk c rangeTree (BackupResponse.StartKey resp)
                 (BackupResponse.EndKey resp) (BackupResponse.Files resp))
          rest
  end.

(** [fineGrainedBackup], [rounds] turns of its outer loop at most.  The
    responses already on [respCh] are received before the error on
    [errCh] is.  Returns the requests sent, the tree and the result. *)
Fixpoint fineGrainedBackup (rounds n : nat) (bc : BackupClient)
    (startKey endKey : bytes) (backupTS : Z) (path : string)
    (rateLimit concurrency : Z) (rangeTree : RangeTree)
    (reqs : list BackupRequest.t)
  : list BackupRequest.t * RangeTree * outcome (option error) :=
  match rounds with
  | O => (reqs, rangeTree, Running)
  | S rounds' =>
      let incomplete := getIncompleteRange c rangeTree startKey endKey in
      match incomplete with
      | [] => (reqs, rangeTree, Returned None)
      | _ =>
          let '(reqs, respCh, ms, err) :=
            workers bc incomplete backupTS path rateLimit concurrency
                    reqs [] 0 in
          match selectLoop rangeTree respCh with
          | None => (reqs, rangeTree, Exited)
          | Some rangeTree =>
              match err with
              | Some e => (reqs, rangeTree, Returned (Some e))
              | None =>
                  if negb (ms =? 0) then
                    match BackoffWithMaxSleep c n ms with
                    | Some e => (reqs, rangeTree, Returned (Some e))
                    | None =>
                        fineGrainedBackup rounds' (S n) bc startKey endKey
                          backupTS path rateLimit concurrency rangeTree reqs
                    end
                  else
                    fineGrainedBackup rounds' (S n) bc startKey endKey
                      backupTS path rateLimit concurrency rangeTree reqs
              end
          end
      end
  end.
End FineGrained.

(** *** [backupRange] and [BackupRanges] *)

Definition set_issued (bc : BackupClient) (reqs : list BackupRequest.t)
  : BackupClient :=
  {| clusterID := clusterID bc; backupMeta := backupMeta bc; issued := reqs |}.

Definition set_backupMeta (bc : BackupClient) (m : BackupMeta.t)
  : BackupClient :=
  {| clusterID := clusterID bc; backupMeta := m; issued := issued bc |}.

(** [bc.backupMeta.StartVersion = v; bc.backupMeta.EndVersion = v] *)
Definition set_versions (m : BackupMeta.t) (v : Z) : BackupMeta.t :=
  {| BackupMeta.ClusterId := BackupMeta.ClusterId m;
     BackupMeta.Path := BackupMeta.Path m;
     BackupMeta.StartVersion := v;
     BackupMeta.EndVersion := v;
     BackupMeta.Schemas := BackupMeta.Schemas m;
     BackupMeta.Files := BackupMeta.Files m |}.

(** [bc.backupMeta.Files = append(bc.backupMeta.Files, files...)] *)
Definition append_files (m : BackupMeta.t) (files : list File.t) : BackupMeta.t :=
  {| BackupMeta.ClusterId := BackupMeta.ClusterId m;
     BackupMeta.Path := BackupMeta.Path m;
     BackupMeta.StartVersion := BackupMeta.StartVersion m;
     BackupMeta.EndVersion := BackupMeta.EndVersion m;
     BackupMeta.Schemas := BackupMeta.Schemas m;
     BackupMeta.Files := BackupMeta.Files m ++ files |}.

(** A message on the supervisor's [select]: a tick of the 30 s ticker, or
    a receive on [errCh] with its two results ([ok = false] once the
    channel is closed). *)
Inductive event :=
| Tick
| ErrCh (err : option error) (ok : bool).

Section BackupRanges.
Context {RangeTree : Type}.
Variable c : Cluster RangeTree.
(** [bc.backer.CheckGCSafepoint(ctx, backupTS)], at its [k]-th call *)
Variable CheckGCSafepoint : nat -> Z -> option error.
(** the turns granted to each fine-grained retry loop *)
Variable rounds : nat.

Definition backupRange (bc : BackupClient) (startKey endKey : bytes)
    (path : string) (backupTS rateMBs concurrency : Z)
  : BackupClient * outcome (option error) :=
  let rateLimit := uint64 (rateMBs * 1024 * 1024) in
  match GetAllStores c with
  | inl err => (bc, Returned (Some err))
  | inr allStores =>
      let req :=
        {| BackupRequest.ClusterId := clusterID bc;
           BackupRequest.StartKey := startKey;
           BackupRequest.EndKey := endKey;
           BackupRequest.StartVersion := backupTS;
           BackupRequest.EndVersion := backupTS;
           BackupRequest.Path := path;
           BackupRequest.RateLimit := rateLimit;
           BackupRequest.Concurrency := concurrency |} in
      let bc := set_issued bc (issued bc ++ [req]) in
      match pushBackup c req allStores with
      | inl err => (bc, Returned (Some err))
      | inr results =>
          match fineGrainedBackup c rounds 0 bc startKey endKey backupTS
                  path rateLimit concurrency results (issued bc) with
          | (reqs, _, Running) => (set_issued bc reqs, Running)
          | (reqs, _, Exited) => (set_issued bc reqs, Exited)
          | (reqs, _, Panicked) => (set_issued bc reqs, Panicked)
          | (reqs, _, Returned (Some err)) =>
              (set_issued bc reqs, Returned (Some err))
          | (reqs, results, Returned None) =>
              let bc := set_issued bc reqs in
              let bc := set_backupMeta bc (set_versions (backupMeta bc) backupTS) in
              let bc :=
                set_backupMeta bc
                  (append_files (backupMeta bc)
                                (flat_map Files (Ascend c results))) in
              if checkDupFiles c results then (bc, Returned None)
              else (bc, Exited)
          end
      end
  end.

(** The goroutine of [BackupRanges]: the ranges one after the other.
    [Returned (Some e)] stands for [errCh <- e], [Returned None] for
    [close(errCh)]. *)
Fixpoint backupRanges_worker (bc : BackupClient) (ranges : list Range)
    (path : string) (backupTS rate concurrency : Z)
  : BackupClient * outcome (option error) :=
  match ranges with
  | [] => (bc, Returned None)
  | r :: rest =>
      match backupRange bc (StartKey r) (EndKey r) path backupTS rate
                        concurrency with
      | (bc, Returned None) =>
          backupRanges_worker bc rest path backupTS rate concurrency
      | (bc, o) => (bc, o)
      end
  end.

(** The supervising loop of [BackupRanges].  [k] counts the calls of
    [CheckGCSafepoint] made so far; [evs] are the messages the [select]
    receives, in order.  Returns the number of checks made and the
    value returned, [None] while the loop is blocked in [select] with
    nothing left to receive. *)
Fixpoint supervise (backupTS : Z) (k : nat) (finished : bool)
    (evs : list event) : nat * option (option error) :=
  let err := CheckGCSafepoint k backupTS in
  (* a non-nil [err] is logged as a warning and otherwise ignored *)
  if finished then (S k, Some err)
  else
    match evs with
    | [] => (S k, None)
    | Tick :: evs' => supervise backupTS (S k) finished evs'
    | ErrCh err ok :: evs' =>
        let finished := if negb ok then true else finished in
        match err with
        | Some e => (S k, Some (Some e))
        | None => supervise backupTS (S k) finished evs'
        end
    end.

(** [BackupRanges], when the ticker fires [ticks] times before the
    goroutine reports.  Returns the client and how the call ends; when
    it returns, the number of safepoint checks made and the error. *)
Definition BackupRanges (bc : BackupClient) (ranges : list Range)
    (path : string) (backupTS rate concurrency : Z) (ticks : nat)
  : BackupClient * outcome (nat * option error) :=
  match backupRanges_worker bc ranges path backupTS rate concurrency with
  | (bc, Returned report) =>
      let msg :=
        match report with
        | Some e => ErrCh (Some e) true
        | None => ErrCh None false
        end in
      match supervise backupTS 0 false (repeat Tick ticks ++ [msg]) with
      | (k, Some r) => (bc, Returned (k, r))
      | (_, None) => (bc, Running)
      end
  | (bc, Exited) => (bc, Exited)
  | (bc, Panicked) => (bc, Panicked)
  | (bc, Running) => (bc, Running)
  end.
End BackupRanges.

(** *** The catalog planner *)

Record tableRange := { startID : Z; endID : Z }.

Definition SystemDatabases : list string :=
  ["information_schema"; "performance_schema"; "mysql"].

Definition buildTableRanges (tbl : Model.TableInfo) : list tableRange :=
  match Model.GetPartitionInfo tbl with
  | None =>
      let tableID := Model.ID tbl in
      [{| startID := tableID; endID := int64 (tableID + 1) |}]
  | Some pis =>
      map (fun def => {| startID := Model.PartID def;
                         endID := int64 (Model.PartID def + 1) |})
          (Model.Definitions pis)
  end.

(** [backupSchemas]: the schemas filed by name, the count of the wait
    group, and the pool, of which the number of idle workers is kept. *)
Record backupSchemas := {
  meta : gmap string Schema.t;
  wg : nat;
  workerPool : nat;
}.

(** Modelled from the spec: [utils.NewWorkerPool] is in [pkg/utils].  The
    pool is bounded by its size, and every worker is idle at first. *)
Definition NewWorkerPool (poolSize : Z) : nat := Z.to_nat poolSize.

(** Modelled from the spec: [WorkerPool.Apply] is in [pkg/utils].  It
    gives the task to an idle worker of the bounded pool, and waits for
    one while all are busy (the note at its call in [startTableChecksum]:
    it may block the backup when the tables outnumber the workers).
    Returns the workers left idle; [None]: no worker is idle. *)
Definition WorkerPool_Apply (idle : nat) : option nat :=
  match idle with
  | O => None
  | S idle' => Some idle'
  end.

(** The [backupSchemas] that [NewBackupClient] builds. *)
Definition new_backupSchemas (poolSize : Z) : backupSchemas :=
  {| meta := ∅; wg := 0; workerPool := NewWorkerPool poolSize |}.

Section Planner.
(** [tablecodec.GenTablePrefix] *)
Variable GenTablePrefix : Z -> bytes.
(** [bc.dom.GetSnapshotInfoSchema(backupTS)] followed by [AllSchemas] *)
Variable GetSnapshotInfoSchema : Z -> res (list Model.DBInfo).
(** [json.Marshal] of a database and of a table *)
Variable Marshal_DBInfo : Model.DBInfo -> res bytes.
Variable Marshal_TableInfo : Model.TableInfo -> res bytes.
(** [autoid.NewAllocator(store, dbID, false).NextGlobalAutoID(tableID)] *)
Variable NextGlobalAutoID : Z -> Z -> res Z.
(** [session.CreateSession], for the table of the given database *)
Variable CreateSession : Z -> Z -> res unit.

(** [tableRange.Range] *)
Definition tableRange_Range (tr : tableRange) : Range :=
  {| StartKey := GenTablePrefix (startID tr);
     EndKey := GenTablePrefix (endID tr);
     Files := [] |}.

(** [startTableChecksum]: the schema is filed under [db.table], the wait
    group is told of one more task, and the task is handed to the pool.
    The task ends by sending on [checksumCh] or on [errCh]; both are
    unbuffered and are received in [finishTableChecksum] only, so the
    worker that runs it stays busy for as long as the planner runs.
    [None]: the call waits in [Apply] and does not return. *)
Definition startTableChecksum (bs : backupSchemas)
    (schema : Schema.t) (dbName tableName : string) : option backupSchemas :=
  let name := (dbName +:+ "." +:+ tableName)%string in
  let filed := <[name := schema]> (meta bs) in
  let tasks := S (wg bs) in
  match WorkerPool_Apply (workerPool bs) with
  | None => None
  | Some idle => Some {| meta := filed; wg := tasks; workerPool := idle |}
  end.

Definition isSystemDatabase (dbInfo : Model.DBInfo) : bool :=
  existsb (fun sysDbName => String.eqb sysDbName (Model.L (Model.DBName dbInfo)))
          SystemDatabases.

(** The inner loop over [dbInfo.Tables].  [Running]: the planner waits
    for a worker of the pool. *)
Fixpoint loadTables (dbInfo : Model.DBInfo) (dbData : bytes)
    (tables : list Model.TableInfo)
    (ranges : list Range) (bs : backupSchemas) (backupTS : Z)
  : outcome (res (list Range * backupSchemas)) :=
  match tables with
  | [] => Returned (ok (ranges, bs))
  | tableInfo :: rest =>
      match NextGlobalAutoID (Model.DBID dbInfo) (Model.ID tableInfo) with
      | inl err => Returned (fail err)
      | inr globalAutoID =>
          let tableInfo := Model.set_AutoIncID tableInfo globalAutoID in
          match Marshal_TableInfo tableInfo with
          | inl err => Returned (fail err)
          | inr tableData =>
              let backupSchema :=
                {| Schema.Db := dbData; Schema.Table := tableData;
                   Schema.Crc64Xor := 0; Schema.TotalKvs := 0;
                   Schema.TotalBytes := 0 |} in
              match CreateSession (Model.DBID dbInfo) (Model.ID tableInfo) with
              | inl err => Returned (fail err)
              | inr dbSession =>
                  match startTableChecksum bs backupSchema
                          (Model.L (Model.DBName dbInfo))
                          (Model.L (Model.Name tableInfo)) with
                  | None => Running
                  | Some bs =>
                      let tableRanges := buildTableRanges tableInfo in
                      let ranges := ranges ++ map tableRange_Range tableRanges in
                      loadTables dbInfo dbData rest ranges bs backupTS
                  end
              end
          end
      end
  end.

(** The loop labelled [LoadDb]. *)
Fixpoint LoadDb (dbInfos : list Model.DBInfo)
    (ranges : list Range) (bs : backupSchemas) (backupTS : Z)
  : outcome (res (list Range * backupSchemas)) :=
  match dbInfos with
  | [] => Returned (ok (ranges, bs))
  | dbInfo :: rest =>
      if isSystemDatabase dbInfo then LoadDb rest ranges bs backupTS
      else
        match Marshal_DBInfo dbInfo with
        | inl err => Returned (fail err)
        | inr dbData =>
            match loadTables dbInfo dbData (Model.Tables dbInfo) ranges bs
                             backupTS with
            | Returned (inr (ranges, bs)) => LoadDb rest ranges bs backupTS
            | other => other
            end
        end
  end.

(** Returns the ranges and [bc.backupSchemas] as the call leaves it. *)
Definition PreBackupAllTableRanges (bs : backupSchemas) (backupTS : Z)
  : outcome (res (list Range * backupSchemas)) :=
  match GetSnapshotInfoSchema backupTS with
  | inl err => Returned (fail err)
  | inr dbInfos => LoadDb dbInfos [] bs backupTS
  end.
End Planner.

(** *** The fast verifier *)

(** [utils.Table], as far as [FastChecksum] reads it. *)
Record Table := { TableFiles : list File.t }.

Section FastChecksum.
(** [utils.Database] *)
Variable Database : Type.
(** [utils.LoadBackupTables] *)
Variable LoadBackupTables : BackupMeta.t -> res (gmap string Database).
(** [GetTable] of a database pointer; the receiver is whatever the map holds
    under the name, [nil] included *)
Variable GetTable : option Database -> string -> option Table.
(** [json.Unmarshal] into a [DBInfo] and into a [TableInfo] *)
Variable Unmarshal_DBInfo : bytes -> res Model.DBInfo.
Variable Unmarshal_TableInfo : bytes -> res Model.TableInfo.

(** The loop over [tbl.Files]: [(checksum, totalKvs, totalBytes)]. *)
Fixpoint fileStats (files : list File.t) (acc : Z * Z * Z) : Z * Z * Z :=
  match files with
  | [] => acc
  | file :: rest =>
      let '(checksum, totalKvs, totalBytes) := acc in
      fileStats rest
        (Z.lxor checksum (File.Crc64Xor file),
         uint64 (totalKvs + File.TotalKvs file),
         uint64 (totalBytes + File.TotalBytes file))
  end.

(** The loop over [bc.backupMeta.Schemas]. *)
Fixpoint FastChecksum_loop (dbs : gmap string Database)
    (schemas : list Schema.t) : outcome (bool * option error) :=
  match schemas with
  | [] => Returned (true, None)
  | schema :: rest =>
      match Unmarshal_DBInfo (Schema.Db schema) with
      | inl err => Returned (false, Some err)
      | inr dbInfo =>
          match Unmarshal_TableInfo (Schema.Table schema) with
          | inl err => Returned (false, Some err)
          | inr tblInfo =>
              match GetTable (dbs !! Model.O (Model.DBName dbInfo))
                             (Model.O (Model.Name tblInfo)) with
              | None => Panicked
              | Some tbl =>
                  let '(checksum, totalKvs, totalBytes) :=
                    fileStats (TableFiles tbl) (0, 0, 0) in
                  if (Schema.Crc64Xor schema =? checksum)
                     && (Schema.TotalKvs schema =? totalKvs)
                     && (Schema.TotalBytes schema =? totalBytes)
                  then FastChecksum_loop dbs rest
                  else Returned (false, None)
              end
          end
      end
  end.

Definition FastChecksum (bc : BackupClient) : outcome (bool * option error) :=
  match LoadBackupTables (backupMeta bc) with
  | inl err => Returned (false, Some err)
  | inr dbs => FastChecksum_loop dbs (BackupMeta.Schemas (backupMeta bc))
  end.
End FastChecksum.

(** *** [NewBackupClient] *)

Section NewBackupClient.
(** [pdClient.GetAllStores] *)
Variable pd_GetAllStores : res (list Store).
(** [session.BootstrapSession] *)
Variable BootstrapSession : res unit.
(** [pdClient.GetClusterID] *)
Variable GetClusterID : Z.

(** Returns the client and the size of the checksum worker pool. *)
Definition NewBackupClient : res (BackupClient * Z) :=
  try stores <- pd_GetAllStores in
  try dom <- BootstrapSession in
  let poolSize := uint64 (Z.of_nat (length stores) * 8) in
  let poolSize := if 100 <? poolSize then 100 else poolSize in
  ok ({| clusterID := GetClusterID;
         backupMeta := BackupMeta.zero;
         issued := [] |}, poolSize).
End NewBackupClient.

End Raw.

(** ** The command handlers ([cmd/raw.go]) *)

Module Cmd.

Import Go.

(** What each call made by a handler answers.  A handler returns an
    [error]; [inl e] is that error and [inr tt] is [nil]. *)
Record Calls := {
  GetDefaultBacker : res unit;
  NewBackupClient : res unit;
  (** [command.Flags().Get..] *)
  flag_storage : res string;
  flag_timeago : res string;
  flag_ratelimit : res Z;
  flag_concurrency : res Z;
  flag_checksum : res bool;
  flag_db : res string;
  flag_table : res string;
  (** the methods of the client *)
  SetStorage : string -> option error;
  GetTS : string -> res Z;
  PreBackupAllTableRanges : Z -> res (list Raw.Range);
  PreBackupTableRanges : string -> string -> string -> Z -> res (list Raw.Range);
  GetRangeRegionCount : bytes -> bytes -> res Z;
  BackupRanges : list Raw.Range -> string -> Z -> Z -> Z -> option error;
  CompleteMeta : option error;
  FastChecksum : bool * option error;
  SaveBackupMeta : string -> option error;
}.

(** [if err != nil { return err }] for a call with a sole [error] result *)
Definition check (e : option error) : res unit :=
  match e with
  | Some err => fail err
  | None => ok tt
  end.

(** The tail shared by both handlers, from [BackupRanges] on. *)
Definition run_backup (w : Calls) (ranges : list Raw.Range) (u : string)
    (backupTS rate concurrency : Z) : res unit :=
  try _ <- check (BackupRanges w ranges u backupTS rate concurrency) in
  try _ <- check (CompleteMeta w) in
  try checksumSwitch <- flag_checksum w in
  try _ <-
    (if checksumSwitch : bool then
       let '(valid, err) := FastChecksum w in
       check err    (* an invalid checksum is logged, nothing more *)
     else ok tt) in
  check (SaveBackupMeta w u).

(** [RunE] of [newFullBackupCommand] *)
Definition full_RunE (w : Calls) : res unit :=
  try backer <- GetDefaultBacker w in
  match NewBackupClient w with
  | inl err => ok tt                       (* [return nil] *)
  | inr client =>
      try u <- flag_storage w in
      if decide (u = "") then fail "empty backup store is not allowed"
      else
        try _ <- check (SetStorage w u) in
        try timeAgo <- flag_timeago w in
        try backupTS <- GetTS w timeAgo in
        try rate <- flag_ratelimit w in
        try concurrency <- flag_concurrency w in
        if concurrency =? 0 then fail "at least one thread required"
        else
          try ranges <- PreBackupAllTableRanges w backupTS in
          try approximateRegions <- GetRangeRegionCount w [] [] in
          run_backup w ranges u backupTS rate concurrency
  end.

(** The loop of the table handler that adds up the region counts. *)
Fixpoint countRegions (w : Calls) (ranges : list Raw.Range)
    (approximateRegions : Z) : res Z :=
  match ranges with
  | [] => ok approximateRegions
  | r :: rest =>
      try regionCount <- GetRangeRegionCount w (Raw.StartKey r) (Raw.EndKey r) in
      countRegions w rest (int64 (approximateRegions + regionCount))
  end.

(** [RunE] of [newTableBackupCommand] *)
Definition table_RunE (w : Calls) : res unit :=
  try backer <- GetDefaultBacker w in
  match NewBackupClient w with
  | inl err => fail err
  | inr client =>
      try u <- flag_storage w in
      if decide (u = "") then fail "empty backup store is not allowed"
      else
        try _ <- check (SetStorage w u) in
        try db <- flag_db w in
        if (String.length db =? 0)%nat
        then fail "empty database name is not allowed"
        else
          try table <- flag_table w in
          if (String.length table =? 0)%nat
          then fail "empty table name is not allowed"
          else
            try timeAgo <- flag_timeago w in
            try backupTS <- GetTS w timeAgo in
            try rate <- flag_ratelimit w in
            try concurrency <- flag_concurrency w in
            if concurrency =? 0 then fail "at least one thread required"
            else
              try ranges <- PreBackupTableRanges w db table u backupTS in
              try approximateRegions <- countRegions w ranges 0 in
              run_backup w ranges u backupTS rate concurrency
  end.

End Cmd.

(** ** The specification's vocabulary

    Definitions that follow the wording of the specification; the
    properties below compare them with the code. *)

Module Spec.

(** The region errors after which the request is tried again: one of
    EpochNotMatch, NotLeader, RegionNotFound, ServerIsBusy, StaleCommand,
    StoreNotMatch is set. *)
Definition retryable (regionErr : Errorpb.Error) : Prop :=
  is_Some (Errorpb.EpochNotMatch regionErr) \/
  is_Some (Errorpb.NotLeader regionErr) \/
  is_Some (Errorpb.RegionNotFound regionErr) \/
  is_Some (Errorpb.ServerIsBusy regionErr) \/
  is_Some (Errorpb.StaleCommand regionErr) \/
  is_Some (Errorpb.StoreNotMatch regionErr).

(** A response that carries no error. *)
Definition clean (resp : BackupResponse.t) : Prop :=
  BackupResponse.Error resp = None.

(** A request for the point-in-time snapshot at [backupTS]. *)
Definition at_snapshot (backupTS : Z) (req : BackupRequest.t) : Prop :=
  BackupRequest.StartVersion req = backupTS /\
  BackupRequest.EndVersion req = backupTS.

(** A manifest that records [backupTS] as both of its versions. *)
Definition versions_are (backupTS : Z) (bc : Raw.BackupClient) : Prop :=
  BackupMeta.StartVersion (Raw.backupMeta bc) = backupTS /\
  BackupMeta.EndVersion (Raw.backupMeta bc) = backupTS.

(** *** The plan of [PreBackupAllTableRanges] *)

(** The three system catalogs. *)
Definition system_name (name : string) : Prop :=
  name = "information_schema" \/ name = "performance_schema" \/ name = "mysql".

Definition user_database (db : Model.DBInfo) : bool :=
  bool_decide (~ system_name (Model.L (Model.DBName db))).

(** [[tablePrefix(id), tablePrefix(id+1))], the successor taken in [int64]
    as the ids are. *)
Definition prefix_range (tablePrefix : Z -> bytes) (id : Z) : Raw.Range :=
  {| Raw.StartKey := tablePrefix id;
     Raw.EndKey := tablePrefix (Go.int64 (id + 1));
     Raw.Files := [] |}.

(** One range for a table without partitions, one per partition
    definition otherwise. *)
Definition table_ranges (tablePrefix : Z -> bytes) (t : Model.TableInfo)
  : list Raw.Range :=
  match Model.GetPartitionInfo t with
  | None => [prefix_range tablePrefix (Model.ID t)]
  | Some pi => map (fun def => prefix_range tablePrefix (Model.PartID def))
                   (Model.Definitions pi)
  end.

Definition planned_ranges (tablePrefix : Z -> bytes) (dbs : list Model.DBInfo)
  : list Raw.Range :=
  flat_map (fun db => flat_map (table_ranges tablePrefix) (Model.Tables db))
           (filter (fun db => Is_true (user_database db)) dbs).

(** The tables of the databases that are no system catalog, in order. *)
Definition user_tables (dbs : list Model.DBInfo) : list Model.TableInfo :=
  flat_map Model.Tables (filter (fun db => Is_true (user_database db)) dbs).

(** Every call the planner makes for the tables of the user databases
    succeeds. *)
Definition plan_calls_succeed
    (Marshal_DBInfo : Model.DBInfo -> Go.res bytes)
    (Marshal_TableInfo : Model.TableInfo -> Go.res bytes)
    (NextGlobalAutoID : Z -> Z -> Go.res Z)
    (CreateSession : Z -> Z -> Go.res unit)
    (dbs : list Model.DBInfo) : Prop :=
  Forall (fun db =>
    Is_true (user_database db) ->
    Is_true (Go.is_ok (Marshal_DBInfo db)) /\
    Forall (fun t =>
      exists autoID,
        NextGlobalAutoID (Model.DBID db) (Model.ID t) = inr autoID /\
        Is_true (Go.is_ok (Marshal_TableInfo (Model.set_AutoIncID t autoID))) /\
        Is_true (Go.is_ok (CreateSession (Model.DBID db) (Model.ID t))))
      (Model.Tables db)) dbs.

(** *** The checksum of a table *)

Definition xor_crc (files : list File.t) : Z :=
  foldr (fun f acc => Z.lxor (File.Crc64Xor f) acc) 0 files.

Definition sum_kvs (files : list File.t) : Z :=
  foldr (fun f acc => File.TotalKvs f + acc) 0 files.

Definition sum_bytes (files : list File.t) : Z :=
  foldr (fun f acc => File.TotalBytes f + acc) 0 files.

(** The xor of the checksums and the two sums, as 64-bit unsigned values. *)
Definition table_stats (files : list File.t) : Z * Z * Z :=
  (xor_crc files, Go.uint64 (sum_kvs files), Go.uint64 (sum_bytes files)).

(** The triple recorded in the schema. *)
Definition recorded (schema : Schema.t) : Z * Z * Z :=
  (Schema.Crc64Xor schema, Schema.TotalKvs schema, Schema.TotalBytes schema).

Section Verifier.
Variable Database : Type.
Variable GetTable : option Database -> string -> option Raw.Table.
Variable Unmarshal_DBInfo : bytes -> Go.res Model.DBInfo.
Variable Unmarshal_TableInfo : bytes -> Go.res Model.TableInfo.
Variable dbs : gmap string Database.

(** The table of a schema: both halves decode and the table is found
    under the decoded names. *)
Definition table_of (schema : Schema.t) (tbl : Raw.Table) : Prop :=
  exists dbInfo tblInfo,
    Unmarshal_DBInfo (Schema.Db schema) = inr dbInfo /\
    Unmarshal_TableInfo (Schema.Table schema) = inr tblInfo /\
    GetTable (dbs !! Model.O (Model.DBName dbInfo))
             (Model.O (Model.Name tblInfo)) = Some tbl.

Definition table_matches (schema : Schema.t) : Prop :=
  exists tbl, table_of schema tbl /\
              table_stats (Raw.TableFiles tbl) = recorded schema.

Definition table_disagrees (schema : Schema.t) : Prop :=
  exists tbl, table_of schema tbl /\
              table_stats (Raw.TableFiles tbl) <> recorded schema.

(** A schema that decodes names a table that was loaded. *)
Definition table_loaded (schema : Schema.t) : Prop :=
  forall dbInfo tblInfo,
    Unmarshal_DBInfo (Schema.Db schema) = inr dbInfo ->
    Unmarshal_TableInfo (Schema.Table schema) = inr tblInfo ->
    is_Some (GetTable (dbs !! Model.O (Model.DBName dbInfo))
                      (Model.O (Model.Name tblInfo))).
End Verifier.

End Spec.

(** ** Concrete collaborators

    Small configurations on which the definitions above are run. *)

Module Scenario.

Import Go.

(** *** A snapshot taken exactly at the safepoint *)

Definition pd_now : res (Z * Z) := inr (1000, 7).

Definition parse_100ms (s : string) : res Z :=
  if decide (s = "100ms") then inr 100000000
  else inl "time: invalid duration".

Definition safePoint_900 : res Meta.Timestamp :=
  inr {| Meta.Physical := 900; Meta.Logical := 0 |}.

(** *** Storage *)

(** A scheme the storage layer does not know. *)
Definition unsupported_storage (base : string) : res Raw.ExternalStorage :=
  inl "storage s3 not support yet".

Definition empty_dir : Raw.ExternalStorage :=
  {| Raw.FileExists := fun _ => false |}.

Definition used_dir : Raw.ExternalStorage :=
  {| Raw.FileExists := fun name => String.eqb name "backupmeta" |}.

Definition local_storage (base : string) : res Raw.ExternalStorage :=
  if String.eqb base "local:///backup/used" then inr used_dir
  else inr empty_dir.

(** *** Responses *)

Definition a_lock : Kvrpcpb.LockInfo :=
  {| Kvrpcpb.PrimaryLock := []; Kvrpcpb.LockVersion := 42;
     Kvrpcpb.Key := []; Kvrpcpb.LockTtl := 3000 |}.

Definition locked_response : BackupResponse.t :=
  {| BackupResponse.Error :=
       Some {| BackupError.Msg := "locked";
               BackupError.Detail :=
                 Some (BackupError.Error_KvError
                         {| Kvrpcpb.Locked := Some a_lock;
                            Kvrpcpb.Retryable := "";
                            Kvrpcpb.Abort := "" |}) |};
     BackupResponse.StartKey := [];
     BackupResponse.EndKey := [];
     BackupResponse.Files := [] |}.

(** A resolver whose request to the store fails. *)
Definition failing_resolver (l : Kvrpcpb.LockInfo) : res Z :=
  inl "resolve lock: region unavailable".

(** A resolver reporting that the lock expires in 500 ms. *)
Definition resolver_500 (l : Kvrpcpb.LockInfo) : res Z := inr 500.

(** *** A one-store cluster

    The tree is the list of the ranges stored so far.  A range counts as
    covered once a sub-range is stored; the push-down stores nothing, so
    the fine-grained retry has to fill every range. *)

Definition f1 : File.t :=
  {| File.Name := "f1"; File.StartKey := []; File.EndKey := [];
     File.Crc64Xor := 17; File.TotalKvs := 10; File.TotalBytes := 100;
     File.StartVersion := 0; File.EndVersion := 0; File.Cf := "default" |}.

Definition one_store : Raw.Cluster (list Raw.Range) :=
  {| Raw.GetAllStores := inr [{| Raw.StoreID := 1; Raw.Address := "tikv-1:20160" |}];
     Raw.pushBackup := fun _ _ => inr [];
     Raw.getIncompleteRange := fun tree s e =>
       match tree with
       | [] => [{| Raw.StartKey := s; Raw.EndKey := e; Raw.Files := [] |}]
       | _ => []
       end;
     Raw.putOk := fun tree s e files =>
       tree ++ [{| Raw.StartKey := s; Raw.EndKey := e; Raw.Files := files |}];
     Raw.Ascend := fun tree => tree;
     Raw.checkDupFiles := fun _ => true;
     Raw.EncodeBytes := fun key => key;
     Raw.GetRegion := fun _ _ => inr (Some {| Raw.PeerId := 1; Raw.StoreId := 1 |});
     Raw.ResolveLocks := resolver_500;
     Raw.Backup := fun _ req =>
       ([{| BackupResponse.Error := None;
            BackupResponse.StartKey := BackupRequest.StartKey req;
            BackupResponse.EndKey := BackupRequest.EndKey req;
            BackupResponse.Files := [f1] |}], None);
     Raw.BackoffWithMaxSleep := fun _ _ => None |}.

Definition fresh_client : Raw.BackupClient :=
  {| Raw.clusterID := 1; Raw.backupMeta := BackupMeta.zero; Raw.issued := [] |}.

Definition table_100 : Raw.Range :=
  {| Raw.StartKey := [Byte.x74; Byte.x64]; Raw.EndKey := [Byte.x74; Byte.x65];
     Raw.Files := [] |}.

(** The safepoint has passed the snapshot during the first three checks
    and is reported fine afterwards. *)
Definition check_fails_thrice (k : nat) (ts : Z) : option error :=
  if (k <? 3)%nat then Some "GC safepoint exceed TS" else None.

Definition check_passes (k : nat) (ts : Z) : option error := None.

(** *** A catalog

    The system database [mysql], and a user database with a plain table
    and a table of two partitions. *)

Definition ci (name : string) : Model.CIStr := {| Model.O := name; Model.L := name |}.

Definition t100 : Model.TableInfo :=
  {| Model.ID := 100; Model.Name := ci "usertable"; Model.AutoIncID := 0;
     Model.Partition := None |}.

Definition t_partitioned : Model.TableInfo :=
  {| Model.ID := 199; Model.Name := ci "events"; Model.AutoIncID := 0;
     Model.Partition :=
       Some {| Model.Enable := true;
               Model.Definitions :=
                 [{| Model.PartID := 200; Model.PartName := ci "p1" |};
                  {| Model.PartID := 201; Model.PartName := ci "p2" |}] |} |}.

Definition catalog : list Model.DBInfo :=
  [{| Model.DBID := 1; Model.DBName := ci "mysql"; Model.Tables := [t100] |};
   {| Model.DBID := 2; Model.DBName := ci "shop";
      Model.Tables := [t100; t_partitioned] |}].

(** A user database of nine plain tables. *)
Definition plain_table (id : Z) (name : string) : Model.TableInfo :=
  {| Model.ID := id; Model.Name := ci name; Model.AutoIncID := 0;
     Model.Partition := None |}.

Definition nine_tables : list Model.DBInfo :=
  [{| Model.DBID := 3; Model.DBName := ci "ledger";
      Model.Tables :=
        [plain_table 101 "t1"; plain_table 102 "t2"; plain_table 103 "t3";
         plain_table 104 "t4"; plain_table 105 "t5"; plain_table 106 "t6";
         plain_table 107 "t7"; plain_table 108 "t8"; plain_table 109 "t9"] |}].

Definition snapshot_of_nine_tables (ts : Z) : res (list Model.DBInfo) :=
  inr nine_tables.

(** A stand-in for the key codec: [t] followed by the id as one byte. *)
Definition toy_prefix (id : Z) : bytes :=
  match Byte.of_N (Z.to_N id) with
  | Some b => [Byte.x74; b]
  | None => [Byte.x74]
  end.

Definition snapshot_of_catalog (ts : Z) : res (list Model.DBInfo) := inr catalog.
Definition marshal_db (db : Model.DBInfo) : res bytes := inr [].
Definition marshal_table (t : Model.TableInfo) : res bytes := inr [].
Definition next_auto_id (dbID tableID : Z) : res Z := inr 1.
Definition create_session (dbID tableID : Z) : res unit := inr tt.

(** *** A manifest to verify

    Schemas are told apart by the first byte of their table half; the
    decoders map it to a name. *)

Definition decode_db (b : bytes) : res Model.DBInfo :=
  inr {| Model.DBID := 2; Model.DBName := ci "shop"; Model.Tables := [] |}.

Definition decode_table (b : bytes) : res Model.TableInfo :=
  match b with
  | [Byte.x01] =>
      inr {| Model.ID := 100; Model.Name := ci "usertable";
             Model.AutoIncID := 1; Model.Partition := None |}
  | _ => inl "unexpected end of JSON input"
  end.

Definition shop_tables : gmap string (list (string * Raw.Table)) :=
  {[ "shop" := [("usertable", {| Raw.TableFiles := [f1] |})] ]}.

Definition get_table (db : option (list (string * Raw.Table))) (name : string)
  : option Raw.Table :=
  match db with
  | Some tables => snd <$> List.find (fun nt => String.eqb (fst nt) name) tables
  | None => None
  end.

Definition load_tables (m : BackupMeta.t)
  : res (gmap string (list (string * Raw.Table))) := inr shop_tables.

Definition schema_usertable (crc kvs size : Z) : Schema.t :=
  {| Schema.Db := []; Schema.Table := [Byte.x01];
     Schema.Crc64Xor := crc; Schema.TotalKvs := kvs; Schema.TotalBytes := size |}.

Definition client_with (schemas : list Schema.t) : Raw.BackupClient :=
  {| Raw.clusterID := 1;
     Raw.backupMeta :=
       {| BackupMeta.ClusterId := 1; BackupMeta.Path := "local:///backup";
          BackupMeta.StartVersion := 77; BackupMeta.EndVersion := 77;
          BackupMeta.Schemas := schemas; BackupMeta.Files := [f1] |};
     Raw.issued := [] |}.

(** *** A run of the command with the placement driver unreachable *)

Definition pd_down : Cmd.Calls :=
  {| Cmd.GetDefaultBacker := inr tt;
     Cmd.NewBackupClient :=
       (try client <- Raw.NewBackupClient (inl "pd: context deadline exceeded")
                                          (inr tt) 1 in ok tt);
     Cmd.flag_storage := inr "local:///backup";
     Cmd.flag_timeago := inr "";
     Cmd.flag_ratelimit := inr 0;
     Cmd.flag_concurrency := inr 4;
     Cmd.flag_checksum := inr false;
     Cmd.flag_db := inr "shop";
     Cmd.flag_table := inr "usertable";
     Cmd.SetStorage := fun _ => None;
     Cmd.GetTS := fun _ => inr 77;
     Cmd.PreBackupAllTableRanges := fun _ => inr [];
     Cmd.PreBackupTableRanges := fun _ _ _ _ => inr [];
     Cmd.GetRangeRegionCount := fun _ _ => inr 1;
     Cmd.BackupRanges := fun _ _ _ _ _ => None;
     Cmd.CompleteMeta := None;
     Cmd.FastChecksum := (true, None);
     Cmd.SaveBackupMeta := fun _ => None |}.

End Scenario.

(** ** The schema-checksum pipeline ([pkg/raw/full.go]) *)

Module Checksums.

Import Go.

Record tableChecksum := {
  name : string;
  checksum : Z;
  totalKvs : Z;
  totalBytes : Z;
  duration : Z;
}.

(** [checksum.name = name] *)
Definition set_name (c : tableChecksum) (n : string) : tableChecksum :=
  {| name := n; checksum := checksum c; totalKvs := totalKvs c;
     totalBytes := totalBytes c; duration := duration c |}.

Section getChecksumFromTiDB.
(** [sqlexec.RecordSet] *)
Variable RecordSet : Type.
(** [utils.EncloseName] *)
Variable EncloseName : string -> string.
(** [dbSession.Execute(ctx, sql)] *)
Variable Execute : string -> res (list RecordSet).
(** [utils.ResultSetToStringSlice(ctx, dbSession, rs)] *)
Variable ResultSetToStringSlice : RecordSet -> res (list (list string)).
(** [strconv.ParseUint(s, 10, 64)] *)
Variable ParseUint : string -> res Z.
(** [time.Since(start)] when the result is built *)
Variable elapsed : Z.

(** The statement sent to the catalog. *)
Definition checksum_sql (dbName tableName : string) : string :=
  ("ADMIN CHECKSUM TABLE " +:+ EncloseName dbName +:+ "." +:+
   EncloseName tableName)%string.

(** An index out of range is a run-time panic. *)
Definition getChecksumFromTiDB (dbName tableName : string)
  : Raw.outcome (res tableChecksum) :=
  match Execute (checksum_sql dbName tableName) with
  | inl err => Raw.Returned (fail err)
  | inr recordSets =>
      match recordSets !! 0%nat with
      | None => Raw.Panicked
      | Some rs =>
          match ResultSetToStringSlice rs with
          | inl err => Raw.Returned (fail err)
          | inr records =>
              match records !! 0%nat with
              | None => Raw.Panicked
              | Some record =>
                  match record !! 2%nat with
                  | None => Raw.Panicked
                  | Some col2 =>
                      match ParseUint col2 with
                      | inl err => Raw.Returned (fail err)
                      | inr checksum =>
                          match record !! 3%nat with
                          | None => Raw.Panicked
                          | Some col3 =>
                              match ParseUint col3 with
                              | inl err => Raw.Returned (fail err)
                              | inr totalKvs =>
                                  match record !! 4%nat with
                                  | None => Raw.Panicked
                                  | Some col4 =>
                                      match ParseUint col4 with
                                      | inl err => Raw.Returned (fail err)
                                      | inr totalBytes =>
                                          Raw.Returned
                                            (ok {| name := "";
                                                   checksum := checksum;
                                                   totalKvs := totalKvs;
                                                   totalBytes := totalBytes;
                                                   duration := elapsed |})
                                      end
                                  end
                              end
                          end
                      end
                  end
              end
          end
      end
  end.
End getChecksumFromTiDB.

(** What [finishTableChecksum] receives in its [select]: a checksum from
    [checksumCh], the closing of that channel once every task is done, or
    an error from [errCh]. *)
Inductive message :=
| Checksum (c : tableChecksum)
| Closed
| Failed (err : error).

(** [s.Crc64Xor = checksum.checksum], and so on for the two totals *)
Definition set_checksum (s : Schema.t) (c : tableChecksum) : Schema.t :=
  {| Schema.Db := Schema.Db s; Schema.Table := Schema.Table s;
     Schema.Crc64Xor := checksum c;
     Schema.TotalKvs := totalKvs c;
     Schema.TotalBytes := totalBytes c |}.

(** The loop of [finishTableChecksum].  The schemas are pointers shared
    with [bs.meta]: a schema is identified by the name it is filed under,
    [meta] holds what the pointers point to, and [schemas] is the slice of
    pointers built so far.  An unknown name yields a nil pointer, and the
    assignment through it panics.  [Running]: blocked in [select] with
    nothing left to receive. *)
Fixpoint finish_loop (meta : gmap string Schema.t) (schemas : list string)
    (msgs : list message)
  : gmap string Schema.t * Raw.outcome (res (list string)) :=
  match msgs with
  | [] => (meta, Raw.Running)
  | Closed :: _ => (meta, Raw.Returned (ok schemas))
  | Failed err :: _ => (meta, Raw.Returned (fail err))
  | Checksum c :: rest =>
      match meta !! name c with
      | None => (meta, Raw.Panicked)
      | Some s =>
          finish_loop (<[name c := set_checksum s c]> meta)
                      (schemas ++ [name c]) rest
      end
  end.

(** The schemas behind a slice of pointers. *)
Definition deref (meta : gmap string Schema.t) (schemas : list string)
  : list Schema.t :=
  omap (fun n => meta !! n) schemas.

(** Returns [bs.meta] as the call leaves it and the two results, the
    schemas being read through their pointers. *)
Definition finishTableChecksum (meta : gmap string Schema.t)
    (msgs : list message)
  : gmap string Schema.t * Raw.outcome (res (list Schema.t)) :=
  match finish_loop meta [] msgs with
  | (meta', Raw.Returned (inr schemas)) =>
      (meta', Raw.Returned (ok (deref meta' schemas)))
  | (meta', Raw.Returned (inl err)) => (meta', Raw.Returned (fail err))
  | (meta', Raw.Exited) => (meta', Raw.Exited)
  | (meta', Raw.Panicked) => (meta', Raw.Panicked)
  | (meta', Raw.Running) => (meta', Raw.Running)
  end.

(** [bc.backupMeta.Schemas = schemas] *)
Definition set_schemas (m : BackupMeta.t) (schemas : list Schema.t)
  : BackupMeta.t :=
  {| BackupMeta.ClusterId := BackupMeta.ClusterId m;
     BackupMeta.Path := BackupMeta.Path m;
     BackupMeta.StartVersion := BackupMeta.StartVersion m;
     BackupMeta.EndVersion := BackupMeta.EndVersion m;
     BackupMeta.Schemas := schemas;
     BackupMeta.Files := BackupMeta.Files m |}.

(** Returns the client, [bs.meta] and the error. *)
Definition CompleteMeta (bc : Raw.BackupClient) (meta : gmap string Schema.t)
    (msgs : list message)
  : Raw.BackupClient * gmap string Schema.t * Raw.outcome (option error) :=
  match finishTableChecksum meta msgs with
  | (meta', Raw.Returned (inl err)) => (bc, meta', Raw.Returned (Some err))
  | (meta', Raw.Returned (inr schemas)) =>
      (Raw.set_backupMeta bc (set_schemas (Raw.backupMeta bc) schemas), meta',
       Raw.Returned None)
  | (meta', Raw.Exited) => (bc, meta', Raw.Exited)
  | (meta', Raw.Panicked) => (bc, meta', Raw.Panicked)
  | (meta', Raw.Running) => (bc, meta', Raw.Running)
  end.

(** The task [startTableChecksum] hands to the worker pool: what it puts
    on one of the two channels. *)
Definition checksumTask (result : Raw.outcome (res tableChecksum))
    (dbName tableName : string) : Raw.outcome message :=
  let name := (dbName +:+ "." +:+ tableName)%string in
  match result with
  | Raw.Returned (inl err) => Raw.Returned (Failed err)
  | Raw.Returned (inr c) => Raw.Returned (Checksum (set_name c name))
  | Raw.Exited => Raw.Exited
  | Raw.Panicked => Raw.Panicked
  | Raw.Running => Raw.Running
  end.

End Checksums.

(** ** The planner of a single table ([pkg/raw/full.go]) *)

Module TablePlan.

Import Go.

(** [infoschema.InfoSchema], as far as the planner asks it. *)
Record InfoSchema := {
  SchemaByName : Model.CIStr -> option Model.DBInfo;
  TableByName : Model.CIStr -> Model.CIStr -> res Model.TableInfo;
}.

Section PreBackupTableRanges.
(** [tablecodec.GenTablePrefix] *)
Variable GenTablePrefix : Z -> bytes.
(** [strings.ToLower], used by [model.NewCIStr] *)
Variable ToLower : string -> string.
(** [session.CreateSession] *)
Variable CreateSession : res unit.
(** [bc.dom.GetSnapshotInfoSchema(backupTS)] *)
Variable GetSnapshotInfoSchema : Z -> res InfoSchema.
(** [autoid.NewAllocator(store, dbID, false).NextGlobalAutoID(tableID)] *)
Variable NextGlobalAutoID : Z -> Z -> res Z.
(** [json.Marshal] of a database and of a table *)
Variable Marshal_DBInfo : Model.DBInfo -> res bytes.
Variable Marshal_TableInfo : Model.TableInfo -> res bytes.

(** [model.NewCIStr] *)
Definition NewCIStr (s : string) : Model.CIStr :=
  {| Model.O := s; Model.L := ToLower s |}.

(** Returns the ranges and [bc.backupSchemas] as the call leaves it;
    [Running]: the call waits for a worker of the pool. *)
Definition PreBackupTableRanges (bs : Raw.backupSchemas)
    (dbName tableName path : string) (backupTS : Z)
  : Raw.outcome (res (list Raw.Range * Raw.backupSchemas)) :=
  match CreateSession, GetSnapshotInfoSchema backupTS with
  | inl err, _ => Raw.Returned (fail err)
  | inr dbSession, inl err => Raw.Returned (fail err)
  | inr dbSession, inr info =>
      let cDBName := NewCIStr dbName in
      match SchemaByName info cDBName with
      | None => Raw.Returned (fail ("schema " +:+ dbName +:+ " not found")%string)
      | Some dbInfo =>
          let cTableName := NewCIStr tableName in
          match TableByName info cDBName cTableName with
          | inl err => Raw.Returned (fail err)
          | inr tableInfo =>
              match NextGlobalAutoID (Model.DBID dbInfo) (Model.ID tableInfo) with
              | inl err => Raw.Returned (fail err)
              | inr globalAutoID =>
                  let tableInfo := Model.set_AutoIncID tableInfo globalAutoID in
                  match Marshal_DBInfo dbInfo, Marshal_TableInfo tableInfo with
                  | inl err, _ => Raw.Returned (fail err)
                  | inr dbData, inl err => Raw.Returned (fail err)
                  | inr dbData, inr tableData =>
                      let backupSchema :=
                        {| Schema.Db := dbData; Schema.Table := tableData;
                           Schema.Crc64Xor := 0; Schema.TotalKvs := 0;
                           Schema.TotalBytes := 0 |} in
                      match Raw.startTableChecksum bs backupSchema
                              (Model.L (Model.DBName dbInfo))
                              (Model.L (Model.Name tableInfo)) with
                      | None => Raw.Running
                      | Some bs =>
                          let tableRanges := Raw.buildTableRanges tableInfo in
                          Raw.Returned
                            (ok (map (Raw.tableRange_Range GenTablePrefix)
                                     tableRanges, bs))
                      end
                  end
              end
          end
      end
  end.
End PreBackupTableRanges.

End TablePlan.

(** ** Writing the manifest ([pkg/raw/full.go]) *)

Module Manifest.

Import Go.

(** [bc.backupMeta.Path = path] *)
Definition set_path (m : BackupMeta.t) (path : string) : BackupMeta.t :=
  {| BackupMeta.ClusterId := BackupMeta.ClusterId m;
     BackupMeta.Path := path;
     BackupMeta.StartVersion := BackupMeta.StartVersion m;
     BackupMeta.EndVersion := BackupMeta.EndVersion m;
     BackupMeta.Schemas := BackupMeta.Schemas m;
     BackupMeta.Files := BackupMeta.Files m |}.

Section SaveBackupMeta.
(** the state of the destination behind [bc.storage] *)
Variable Store : Type.
(** [proto.Marshal(&bc.backupMeta)] *)
Variable Marshal : BackupMeta.t -> res bytes.
(** [bc.storage.Write(name, data)] *)
Variable Write : Store -> string -> bytes -> Store * option error.

(** Returns the client, the destination and the error. *)
Definition SaveBackupMeta (bc : Raw.BackupClient) (storage : Store)
    (path : string) : Raw.BackupClient * Store * option error :=
  let bc := Raw.set_backupMeta bc (set_path (Raw.backupMeta bc) path) in
  match Marshal (Raw.backupMeta bc) with
  | inl err => (bc, storage, Some err)
  | inr backupMetaData =>
      let '(storage, err) := Write storage Raw.MetaFile backupMetaData in
      (bc, storage, err)
  end.
End SaveBackupMeta.

(** [GetRangeRegionCount]: the keys play no part. *)
Definition GetRangeRegionCount (GetRegionCount : res Z) (startKey endKey : bytes)
  : res Z := GetRegionCount.

End Manifest.

(** ** Further configurations *)

Module Cases.

Import Go.

Definition three_stores : list Raw.Store :=
  [{| Raw.StoreID := 1; Raw.Address := "tikv-1:20160" |};
   {| Raw.StoreID := 2; Raw.Address := "tikv-2:20160" |};
   {| Raw.StoreID := 3; Raw.Address := "tikv-3:20160" |}].

(** The one-store cluster with other answers of the placement driver and
    of the store. *)
Definition cluster_with
    (regions : nat -> bytes -> res (option Raw.Peer))
    (stream : Z -> BackupRequest.t -> list BackupResponse.t * option error)
  : Raw.Cluster (list Raw.Range) :=
  {| Raw.GetAllStores := Raw.GetAllStores Scenario.one_store;
     Raw.pushBackup := Raw.pushBackup Scenario.one_store;
     Raw.getIncompleteRange := Raw.getIncompleteRange Scenario.one_store;
     Raw.putOk := Raw.putOk Scenario.one_store;
     Raw.Ascend := Raw.Ascend Scenario.one_store;
     Raw.checkDupFiles := Raw.checkDupFiles Scenario.one_store;
     Raw.EncodeBytes := Raw.EncodeBytes Scenario.one_store;
     Raw.GetRegion := regions;
     Raw.ResolveLocks := Raw.ResolveLocks Scenario.one_store;
     Raw.Backup := stream;
     Raw.BackoffWithMaxSleep := Raw.BackoffWithMaxSleep Scenario.one_store |}.

(** No region is ever found. *)
Definition leaderless : Raw.Cluster (list Raw.Range) :=
  cluster_with (fun _ _ => inr None) (Raw.Backup Scenario.one_store).

Definition busy_response : BackupResponse.t :=
  {| BackupResponse.Error :=
       Some {| BackupError.Msg := "server is busy";
               BackupError.Detail :=
                 Some (BackupError.Error_RegionError
                         {| Errorpb.Message := "busy";
                            Errorpb.NotLeader := None;
                            Errorpb.RegionNotFound := None;
                            Errorpb.KeyNotInRegion := None;
                            Errorpb.EpochNotMatch := None;
                            Errorpb.ServerIsBusy := Some 1;
                            Errorpb.StaleCommand := None;
                            Errorpb.StoreNotMatch := None;
                            Errorpb.RaftEntryTooLarge := None |}) |};
     BackupResponse.StartKey := [];
     BackupResponse.EndKey := [];
     BackupResponse.Files := [] |}.

Definition clean_response : BackupResponse.t :=
  {| BackupResponse.Error := None;
     BackupResponse.StartKey := [Byte.x74; Byte.x64];
     BackupResponse.EndKey := [Byte.x74; Byte.x65];
     BackupResponse.Files := [Scenario.f1] |}.

(** The store is busy for the first part of the range and answers for the
    rest. *)
Definition busy_store : Raw.Cluster (list Raw.Range) :=
  cluster_with (Raw.GetRegion Scenario.one_store)
               (fun _ _ => ([busy_response; clean_response], None)).

(** The store reports a lock (the resolver gives it 500 ms), is busy for
    the next part of the range, and answers for the rest. *)
Definition contended_store : Raw.Cluster (list Raw.Range) :=
  cluster_with (Raw.GetRegion Scenario.one_store)
               (fun _ _ => ([Scenario.locked_response; busy_response;
                             clean_response], None)).

Definition f2 : File.t :=
  {| File.Name := "f2"; File.StartKey := []; File.EndKey := [];
     File.Crc64Xor := 40; File.TotalKvs := 3; File.TotalBytes := 64;
     File.StartVersion := 0; File.EndVersion := 0; File.Cf := "write" |}.

(** The catalog as an info schema, looked up by lowercase name. *)
Definition catalog_info : TablePlan.InfoSchema :=
  {| TablePlan.SchemaByName := fun n =>
       List.find (fun db => String.eqb (Model.L (Model.DBName db)) (Model.L n))
                 Scenario.catalog;
     TablePlan.TableByName := fun dn tn =>
       match List.find (fun db => String.eqb (Model.L (Model.DBName db)) (Model.L dn))
                       Scenario.catalog with
       | Some db =>
           match List.find (fun t => String.eqb (Model.L (Model.Name t)) (Model.L tn))
                           (Model.Tables db) with
           | Some t => inr t
           | None => inl "table doesn't exist"
           end
       | None => inl "database doesn't exist"
       end |}.

(** Names that are lowercase already. *)
Definition keep_case (s : string) : string := s.

(** Two tables filed with the pipeline and the checksums that arrive for
    them. *)
Definition filed : gmap string Schema.t :=
  {[ "shop.usertable" := Scenario.schema_usertable 0 0 0;
     "shop.events" := {| Schema.Db := []; Schema.Table := [Byte.x02];
                         Schema.Crc64Xor := 0; Schema.TotalKvs := 0;
                         Schema.TotalBytes := 0 |} ]}.

Definition sum_usertable : Checksums.tableChecksum :=
  {| Checksums.name := "shop.usertable"; Checksums.checksum := 17;
     Checksums.totalKvs := 10; Checksums.totalBytes := 100;
     Checksums.duration := 5 |}.

Definition sum_events : Checksums.tableChecksum :=
  {| Checksums.name := "shop.events"; Checksums.checksum := 40;
     Checksums.totalKvs := 3; Checksums.totalBytes := 64;
     Checksums.duration := 7 |}.

(** The rows of an [ADMIN CHECKSUM TABLE] and a parser for the numbers
    that occur in them. *)
Definition admin_rows : list (list string) :=
  [["shop"; "usertable"; "17"; "10"; "100"]].

Definition parse_small (s : string) : res Z :=
  if String.eqb s "17" then inr 17
  else if String.eqb s "10" then inr 10
  else if String.eqb s "100" then inr 100
  else inl "strconv.ParseUint: invalid syntax".

Definition backquote (s : string) : string := ("`" +:+ s +:+ "`")%string.

(** A session answering every statement with one record set. *)
Definition execute_one (sql : string) : res (list unit) := inr [tt].
Definition rows_of (rs : unit) : res (list (list string)) := inr admin_rows.
Definition short_rows_of (rs : unit) : res (list (list string)) :=
  inr [["shop"; "usertable"; "17"]].

(** A run of the command in which every call succeeds; the verifier,
    when asked, finds a mismatch. *)
Definition all_well : Cmd.Calls :=
  {| Cmd.GetDefaultBacker := inr tt;
     Cmd.NewBackupClient := inr tt;
     Cmd.flag_storage := inr "local:///backup";
     Cmd.flag_timeago := inr "";
     Cmd.flag_ratelimit := inr 0;
     Cmd.flag_concurrency := inr 4;
     Cmd.flag_checksum := inr true;
     Cmd.flag_db := inr "shop";
     Cmd.flag_table := inr "usertable";
     Cmd.SetStorage := fun _ => None;
     Cmd.GetTS := fun _ => inr 77;
     Cmd.PreBackupAllTableRanges := fun _ => inr [Scenario.table_100];
     Cmd.PreBackupTableRanges := fun _ _ _ _ => inr [Scenario.table_100];
     Cmd.GetRangeRegionCount := fun _ _ => inr 1;
     Cmd.BackupRanges := fun _ _ _ _ _ => None;
     Cmd.CompleteMeta := None;
     Cmd.FastChecksum := (false, None);
     Cmd.SaveBackupMeta := fun _ => None |}.

(** A destination: the files it holds. *)
Definition write_file (st : gmap string bytes) (name : string) (data : bytes)
  : gmap string bytes * option error := (<[name := data]> st, None).

Definition file_exists (st : gmap string bytes) (name : string) : bool :=
  bool_decide (is_Some (st !! name)).

Definition marshal_meta (m : BackupMeta.t) : res bytes := inr [Byte.x0a].

End Cases.

(** ** Vocabulary of the further facts *)

Module Laws.

(** The placement driver reports a leader at attempt [i]. *)
Definition has_leader {RangeTree : Type} (c : Raw.Cluster RangeTree)
    (i : nat) (key : bytes) : Prop :=
  exists leader, Raw.GetRegion c i key = inr (Some leader).

(** The back-off the classifier asks for after a response. *)
Definition hint (ResolveLocks : Kvrpcpb.LockInfo -> Go.res Z)
    (resp : BackupResponse.t) : Z :=
  snd (fst (Raw.onBackupResponse ResolveLocks resp)).

(** The classifier does not fail on the response. *)
Definition survivable (ResolveLocks : Kvrpcpb.LockInfo -> Go.res Z)
    (resp : BackupResponse.t) : Prop :=
  snd (Raw.onBackupResponse ResolveLocks resp) = None.

(** The largest back-off the classifier asks for over the frames of a
    stream; zero when it asks for none. *)
Definition largest_hint (ResolveLocks : Kvrpcpb.LockInfo -> Go.res Z)
    (frames : list BackupResponse.t) : Z :=
  foldr (fun resp m => Z.max (hint ResolveLocks resp) m) 0 frames.

(** The frames of a stream that carry no error, in order. *)
Definition error_free (frames : list BackupResponse.t) : list BackupResponse.t :=
  List.filter (fun resp => negb (Go.is_Some_b (BackupResponse.Error resp))) frames.

(** A response carrying a region error of the kind that is retried. *)
Definition region_retry (resp : BackupResponse.t) : Prop :=
  exists respError regionErr,
    BackupResponse.Error resp = Some respError /\
    BackupError.Detail respError = Some (BackupError.Error_RegionError regionErr) /\
    Spec.retryable regionErr.

(** A request of the job of cluster [cid] writing to [path] at [backupTS]
    under the given limits. *)
Definition job_request (cid : Z) (path : string)
    (rateLimit concurrency backupTS : Z) (req : BackupRequest.t) : Prop :=
  BackupRequest.ClusterId req = cid /\
  BackupRequest.Path req = path /\
  BackupRequest.RateLimit req = rateLimit /\
  BackupRequest.Concurrency req = concurrency /\
  BackupRequest.StartVersion req = backupTS /\
  BackupRequest.EndVersion req = backupTS.

Section Pipeline.
Context {RangeTree : Type}.
Variable c : Raw.Cluster RangeTree.
Variable rounds : nat.
Variable path : string.
Variables backupTS rate concurrency : Z.

(** [backupRange] has been called for each of the ranges, one after the
    other in the order of the list, every call has returned [nil], and the
    calls have taken the client from the first state to the last. *)
Inductive backed_up
  : Raw.BackupClient -> list Raw.Range -> Raw.BackupClient -> Prop :=
| backed_up_nil bc : backed_up bc [] bc
| backed_up_cons bc r bc1 rest bc' :
    Raw.backupRange c rounds bc (Raw.StartKey r) (Raw.EndKey r) path backupTS
                    rate concurrency = (bc1, Raw.Returned None) ->
    backed_up bc1 rest bc' ->
    backed_up bc (r :: rest) bc'.
End Pipeline.

(** The manifest apart from its versions and files. *)
Definition manifest_header (m : BackupMeta.t) : Z * string * list Schema.t :=
  (BackupMeta.ClusterId m, BackupMeta.Path m, BackupMeta.Schemas m).

(** The name a table is filed under by the checksum pipeline. *)
Definition table_key (db : Model.DBInfo) (t : Model.TableInfo) : string :=
  (Model.L (Model.DBName db) +:+ "." +:+ Model.L (Model.Name t))%string.

(** A schema filed under [k] whose checksum has not arrived yet. *)
Definition fresh_entry (meta : gmap string Schema.t) (k : string) : Prop :=
  exists s, meta !! k = Some s /\ Spec.recorded s = (0, 0, 0).

(** [meta'] files every name [meta] files, and what it files anew or
    differently is awaiting its checksum. *)
Definition extends (meta meta' : gmap string Schema.t) : Prop :=
  (forall k, is_Some (meta !! k) -> is_Some (meta' !! k)) /\
  (forall k s, meta' !! k = Some s ->
               meta !! k = Some s \/ Spec.recorded s = (0, 0, 0)).

(** The checksum [c] is for a schema that has been filed. *)
Definition registered (meta : gmap string Schema.t)
    (c : Checksums.tableChecksum) : Prop :=
  is_Some (meta !! Checksums.name c).

(** The schema [s] is the one filed in [meta] under the name of [c], with
    the three numbers of [c] written into it. *)
Definition completes (meta : gmap string Schema.t)
    (c : Checksums.tableChecksum) (s : Schema.t) : Prop :=
  exists s0, meta !! Checksums.name c = Some s0 /\
             s = Checksums.set_checksum s0 c.

(** The three numbers of a checksum. *)
Definition reported (c : Checksums.tableChecksum) : Z * Z * Z :=
  (Checksums.checksum c, Checksums.totalKvs c, Checksums.totalBytes c).

(** The calls [w] with another answer of [FastChecksum]. *)
Definition with_FastChecksum (w : Cmd.Calls) (r : bool * option Go.error)
  : Cmd.Calls :=
  {| Cmd.GetDefaultBacker := Cmd.GetDefaultBacker w;
     Cmd.NewBackupClient := Cmd.NewBackupClient w;
     Cmd.flag_storage := Cmd.flag_storage w;
     Cmd.flag_timeago := Cmd.flag_timeago w;
     Cmd.flag_ratelimit := Cmd.flag_ratelimit w;
     Cmd.flag_concurrency := Cmd.flag_concurrency w;
     Cmd.flag_checksum := Cmd.flag_checksum w;
     Cmd.flag_db := Cmd.flag_db w;
     Cmd.flag_table := Cmd.flag_table w;
     Cmd.SetStorage := Cmd.SetStorage w;
     Cmd.GetTS := Cmd.GetTS w;
     Cmd.PreBackupAllTableRanges := Cmd.PreBackupAllTableRanges w;
     Cmd.PreBackupTableRanges := Cmd.PreBackupTableRanges w;
     Cmd.GetRangeRegionCount := Cmd.GetRangeRegionCount w;
     Cmd.BackupRanges := Cmd.BackupRanges w;
     Cmd.CompleteMeta := Cmd.CompleteMeta w;
     Cmd.FastChecksum := r;
     Cmd.SaveBackupMeta := Cmd.SaveBackupMeta w |}.

(** The steps both handlers share have all succeeded: the destination,
    the timestamp, the flags, the backup of the planned ranges, the join
    of the checksums and the writing of the manifest. *)
Definition backup_done (w : Cmd.Calls) (ranges : list Raw.Range) : Prop :=
  exists u timeAgo backupTS rate concurrency,
    Cmd.flag_storage w = inr u /\ u <> "" /\
    Cmd.SetStorage w u = None /\
    Cmd.flag_timeago w = inr timeAgo /\
    Cmd.GetTS w timeAgo = inr backupTS /\
    Cmd.flag_ratelimit w = inr rate /\
    Cmd.flag_concurrency w = inr concurrency /\ concurrency <> 0 /\
    Cmd.BackupRanges w ranges u backupTS rate concurrency = None /\
    Cmd.CompleteMeta w = None /\
    Cmd.SaveBackupMeta w u = None.

End Laws.

(** * Properties *)

(** ** Integers and timestamps *)

Module Arith.

Import Go.

Lemma int64_id z : in_int64 z -> int64 z = z.
Proof.
  unfold in_int64, int64. intros Hz.
  rewrite Z.mod_small by lia. lia.
Qed.

Lemma uint64_range z : in_uint64 (uint64 z).
Proof. unfold in_uint64, uint64. apply Z.mod_pos_bound. lia. Qed.

Lemma uint64_add_l a b : uint64 (uint64 a + b) = uint64 (a + b).
Proof. unfold uint64. apply Zplus_mod_idemp_l. Qed.

(** The two halves of an encoded timestamp do not overlap. *)
Lemma shiftl_land_low p l : Z.land (Z.shiftl p 18) (Z.land l (Z.ones 18)) = 0.
Proof.
  apply Z.bits_inj'. intros n Hn.
  rewrite !Z.land_spec, Z.bits_0.
  destruct (Z.lt_ge_cases n 18) as [Hlt | Hge].
  - rewrite Z.shiftl_spec_low by lia. reflexivity.
  - rewrite Z.ones_spec_high by lia.
    rewrite !Bool.andb_false_r. reflexivity.
Qed.

Lemma PhysicalOf_EncodeTs p l :
  0 <= p < 2 ^ 46 ->
  Meta.PhysicalOf (Meta.EncodeTs {| Meta.Physical := p; Meta.Logical := l |}) = p.
Proof.
  intros Hp. unfold Meta.PhysicalOf, Meta.EncodeTs, uint64.
  cbn [Meta.Physical Meta.Logical].
  assert (Hl : 0 <= Z.land l (Z.ones 18) < 2 ^ 18).
  { rewrite Z.land_ones by lia. apply Z.mod_pos_bound. lia. }
  assert (Hs : Z.shiftl p 18 = p * 2 ^ 18) by (apply Z.shiftl_mul_pow2; lia).
  rewrite <- Z.add_nocarry_lor by apply shiftl_land_low.
  rewrite Hs.
  rewrite Z.mod_small by nia.
  rewrite Z.shiftr_div_pow2 by lia.
  rewrite Z.add_comm, Z.div_add by lia.
  rewrite Z.div_small by lia. lia.
Qed.

End Arith.

(** ** Choice of the snapshot timestamp *)

Module Snapshot.

Import Go.

Section Facts.
Variable pd_GetTS : res (Z * Z).
Variable ParseDuration : string -> res Z.
Variable GetGCSafePoint : res Meta.Timestamp.

Local Abbreviation GetTS := (Raw.GetTS pd_GetTS ParseDuration GetGCSafePoint).

(** A timestamp is only handed out for a non-empty [timeAgo] when all
    three collaborators answered and the shifted physical time is not
    below the safepoint's. *)
Lemma GetTS_timeago_inv timeAgo ts :
  timeAgo <> "" ->
  snd (GetTS timeAgo) = inr ts ->
  exists p l d sp,
    pd_GetTS = inr (p, l) /\ ParseDuration timeAgo = inr d /\
    GetGCSafePoint = inr sp /\
    Meta.Physical sp <= int64 (p - Z.quot d Raw.Millisecond) /\
    ts = Meta.EncodeTs {| Meta.Physical := int64 (p - Z.quot d Raw.Millisecond);
                          Meta.Logical := l |}.
Proof.
  intros Hne. unfold Raw.GetTS.
  destruct pd_GetTS as [e | [p l]]; [discriminate |].
  destruct (decide (timeAgo = "")) as [-> | _]; [congruence |].
  destruct (ParseDuration timeAgo) as [e | d] eqn:Hd; [discriminate |].
  destruct GetGCSafePoint as [e | sp]; [discriminate |].
  destruct (Z.ltb_spec (int64 (p - Z.quot d Raw.Millisecond)) (Meta.Physical sp))
    as [Hlt | Hge]; cbn [snd]; [discriminate |].
  intros [= <-]. exists p, l, d, sp. repeat split; auto.
Qed.

(** C3, as amended: for a non-empty [timeAgo] that parses, with the
    placement driver and the safepoint lookup answering, [GetTS] takes
    the parsed duration in milliseconds off the physical time; it
    fails when the result is strictly below the safepoint's physical
    time, and otherwise returns the encoded timestamp, whose physical
    part is greater than or equal to the safepoint's. *)
Theorem GetTS_timeago_not_below_safepoint timeAgo p l d sp :
  timeAgo <> "" ->
  pd_GetTS = inr (p, l) ->
  ParseDuration timeAgo = inr d ->
  GetGCSafePoint = inr sp ->
  let p' := int64 (p - Z.quot d Raw.Millisecond) in
  let ts := Meta.EncodeTs {| Meta.Physical := p'; Meta.Logical := l |} in
  (p' < Meta.Physical sp ->
     snd (GetTS timeAgo) = inl "given backup time exceed GCSafePoint"%string) /\
  (Meta.Physical sp <= p' ->
     snd (GetTS timeAgo) = inr ts /\
     (0 <= p' < 2 ^ 46 -> Meta.Physical sp <= Meta.PhysicalOf ts)).
Proof.
  intros Hne Hpd Hd Hsp p' ts. unfold Raw.GetTS.
  rewrite Hpd, Hd, Hsp.
  destruct (decide (timeAgo = "")) as [-> | _]; [congruence |].
  fold p'. split; intros Hcmp.
  - destruct (Z.ltb_spec p' (Meta.Physical sp)); [reflexivity | lia].
  - destruct (Z.ltb_spec p' (Meta.Physical sp)); [lia |].
    split; [reflexivity |].
    intros Hrange. subst ts. rewrite Arith.PhysicalOf_EncodeTs; assumption.
Qed.

(** C10: with the empty [timeAgo], [GetTS] asks the placement driver
    and nobody else; it returns the encoding of the driver's
    timestamp (or the driver's error), whatever the safepoint lookup
    would have answered. *)
Theorem GetTS_empty_skips_safepoint :
  GetTS "" =
    ([Raw.CallPdGetTS],
     match pd_GetTS with
     | inl err => inl err
     | inr (p, l) => inr (Meta.EncodeTs {| Meta.Physical := p; Meta.Logical := l |})
     end)
  /\ (Raw.CallGetGCSafePoint ∉ fst (GetTS ""))
  /\ (forall other : res Meta.Timestamp,
        Raw.GetTS pd_GetTS ParseDuration other "" = GetTS "").
Proof.
  assert (Heq : forall gc, Raw.GetTS pd_GetTS ParseDuration gc "" =
            ([Raw.CallPdGetTS],
             match pd_GetTS with
             | inl err => inl err
             | inr (p, l) =>
                 inr (Meta.EncodeTs {| Meta.Physical := p; Meta.Logical := l |})
             end)).
  { intros gc. unfold Raw.GetTS. destruct pd_GetTS as [e | [p l]]; reflexivity. }
  split; [apply Heq |]. split.
  - rewrite Heq. cbn [fst]. intros Hin.
    apply list_elem_of_singleton in Hin. discriminate.
  - intros other. rewrite !Heq. reflexivity.
Qed.
End Facts.

(** A snapshot that would lie before the safepoint is refused. *)
Example GetTS_crossing_safepoint :
  snd (Raw.GetTS Scenario.pd_now Scenario.parse_100ms
         (inr {| Meta.Physical := 950; Meta.Logical := 0 |}) "100ms")
  = inl "given backup time exceed GCSafePoint"%string.
Proof. reflexivity. Qed.

(** Physical time 1000, 100 ms back, safepoint at 900: accepted. *)
Lemma GetTS_timeago_not_below_safepoint_witness :
  snd (Raw.GetTS Scenario.pd_now Scenario.parse_100ms Scenario.safePoint_900 "100ms")
  = inr 235929607.
Proof.
  refine (proj1 (proj2 (GetTS_timeago_not_below_safepoint
            Scenario.pd_now Scenario.parse_100ms Scenario.safePoint_900
            "100ms" 1000 7 100000000
            {| Meta.Physical := 900; Meta.Logical := 0 |} _ _ _ _) _)).
  - discriminate.
  - reflexivity.
  - reflexivity.
  - reflexivity.
  - vm_compute. discriminate.
Defined.

(** C3 fails as stated: the returned timestamp need not be strictly
    above the safepoint.  A snapshot 100 ms back from physical time 1000
    with the safepoint at 900 is accepted, and its physical part is 900. *)
Lemma GetTS_strictly_above_safepoint_fails :
  ~ (forall pd_GetTS ParseDuration GetGCSafePoint timeAgo ts sp,
       timeAgo <> "" ->
       GetGCSafePoint = inr sp ->
       snd (Raw.GetTS pd_GetTS ParseDuration GetGCSafePoint timeAgo) = inr ts ->
       Meta.PhysicalOf ts > Meta.Physical sp).
Proof.
  intros H.
  specialize (H Scenario.pd_now Scenario.parse_100ms Scenario.safePoint_900
                "100ms" 235929607
                {| Meta.Physical := 900; Meta.Logical := 0 |}).
  assert (Hgt : Meta.PhysicalOf 235929607 > 900).
  { apply H; [discriminate | reflexivity | reflexivity]. }
  vm_compute in Hgt. discriminate.
Qed.

End Snapshot.

(** ** The manifest guard of the destination *)

Module Storage.

Import Go.

(** C7, as amended: when the storage cannot be created [SetStorage]
    returns that error; when the created storage already holds a file
    named [backupmeta] it returns an error; in the remaining case it
    succeeds and the client keeps the storage. *)
Theorem SetStorage_refuses_existing_manifest
    (CreateStorage : string -> res Raw.ExternalStorage) (base : string) :
  match CreateStorage base with
  | inl err => Raw.SetStorage CreateStorage base = (None, Some err)
  | inr storage =>
      if Raw.FileExists storage "backupmeta"
      then exists err, Raw.SetStorage CreateStorage base = (Some storage, Some err)
      else Raw.SetStorage CreateStorage base = (Some storage, None)
  end.
Proof.
  unfold Raw.SetStorage, Raw.MetaFile.
  destruct (CreateStorage base) as [err | storage]; [reflexivity |].
  destruct (Raw.FileExists storage "backupmeta"); [eexists |]; reflexivity.
Qed.

(** A destination that already holds a manifest is refused, a fresh one
    is accepted. *)
Example SetStorage_used_destination :
  Raw.SetStorage Scenario.local_storage "local:///backup/used"
  = (Some Scenario.used_dir,
     Some "backup meta exists, may be some backup files in the path already"%string).
Proof. reflexivity. Qed.

Example SetStorage_fresh_destination :
  Raw.SetStorage Scenario.local_storage "local:///backup/new"
  = (Some Scenario.empty_dir, None).
Proof. reflexivity. Qed.

(** C7 fails as stated: a destination that holds no [backupmeta] does
    not make [SetStorage] succeed.  Here the scheme of the destination is
    not supported, nothing is stored there, and the call fails. *)
Lemma SetStorage_may_fail_without_manifest :
  ~ (forall (CreateStorage : string -> res Raw.ExternalStorage) base,
       (forall storage, CreateStorage base = inr storage ->
                        Raw.FileExists storage "backupmeta" = false) ->
       snd (Raw.SetStorage CreateStorage base) = None).
Proof.
  intros H.
  specialize (H Scenario.unsupported_storage "s3://bucket/backup"%string).
  cbn in H. discriminate H. intros storage [=].
Qed.

End Storage.

(** ** The response classifier *)

Module Classifier.

Import Go.

Lemma is_Some_b_true {A} (x : option A) : is_Some_b x = true <-> is_Some x.
Proof.
  destruct x; cbn; split; intros H; try discriminate; eauto.
  destruct H as [? [=]].
Qed.

Lemma retryable_test regionErr :
  Spec.retryable regionErr <->
  (is_Some_b (Errorpb.EpochNotMatch regionErr)
   || is_Some_b (Errorpb.NotLeader regionErr)
   || is_Some_b (Errorpb.RegionNotFound regionErr)
   || is_Some_b (Errorpb.ServerIsBusy regionErr)
   || is_Some_b (Errorpb.StaleCommand regionErr)
   || is_Some_b (Errorpb.StoreNotMatch regionErr)) = true.
Proof.
  unfold Spec.retryable.
  rewrite !Bool.orb_true_iff, !is_Some_b_true. tauto.
Qed.

Section Facts.
Variable ResolveLocks : Kvrpcpb.LockInfo -> res Z.

Local Abbreviation onBackupResponse := (Raw.onBackupResponse ResolveLocks).

(** What comes back as the response: the incoming one when it carries
    no error, nothing otherwise. *)
Lemma onBackupResponse_response resp :
  fst (fst (onBackupResponse resp)) =
    match BackupResponse.Error resp with
    | None => Some resp
    | Some _ => None
    end.
Proof.
  unfold Raw.onBackupResponse.
  destruct (BackupResponse.Error resp) as [respError |]; [| reflexivity].
  destruct (BackupError.Detail respError) as [[? ? | v | regionErr] |];
    try reflexivity.
  - destruct (Kvrpcpb.Locked v) as [lockErr |]; [| reflexivity].
    destruct (ResolveLocks lockErr); reflexivity.
  - match goal with |- context [if ?b then _ else _] => destruct b end;
      reflexivity.
Qed.

(** C2, as amended: a response without error is committed with hint 0;
    for [KvError.Locked] the lock resolver is called, its failure is
    returned as the error, and otherwise there is no error and the
    hint is [msBeforeExpired] when that is positive and 0 when it is
    not; a region error with one of the six listed arms set gives no
    response, no error and the hint 1000; every other kv error, every
    other region error, a cluster id error and an unknown detail give
    an error. *)
Theorem onBackupResponse_classification resp :
  match BackupResponse.Error resp with
  | None => onBackupResponse resp = (Some resp, 0, None)
  | Some respError =>
      match BackupError.Detail respError with
      | Some (BackupError.Error_KvError v) =>
          match Kvrpcpb.Locked v with
          | Some lockErr =>
              match ResolveLocks lockErr with
              | inl err1 => onBackupResponse resp = (None, 0, Some err1)
              | inr msBeforeExpired =>
                  onBackupResponse resp = (None, Z.max 0 msBeforeExpired, None)
              end
          | None => exists err, onBackupResponse resp = (None, 0, Some err)
          end
      | Some (BackupError.Error_RegionError regionErr) =>
          (Spec.retryable regionErr ->
             onBackupResponse resp = (None, 1000, None)) /\
          (~ Spec.retryable regionErr ->
             exists err, onBackupResponse resp = (None, 0, Some err))
      | Some (BackupError.Error_ClusterIdError _ _) =>
          exists err, onBackupResponse resp = (None, 0, Some err)
      | None =>
          exists err, onBackupResponse resp = (None, 0, Some err)
      end
  end.
Proof.
  unfold Raw.onBackupResponse.
  destruct (BackupResponse.Error resp) as [respError |]; [| reflexivity].
  destruct (BackupError.Detail respError) as [[? ? | v | regionErr] |];
    try (eexists; reflexivity).
  - destruct (Kvrpcpb.Locked v) as [lockErr |]; [| eexists; reflexivity].
    destruct (ResolveLocks lockErr) as [err1 | ms]; [reflexivity |].
    destruct (Z.ltb_spec 0 ms); do 2 f_equal; lia.
  - rewrite retryable_test.
    match goal with |- context [negb ?b] => destruct b end; cbn [negb];
      split; intros H; first [reflexivity | congruence | eexists; reflexivity].
Qed.
End Facts.

(** A lock that expires in 500 ms: retry, with a hint of 500 ms. *)
Example onBackupResponse_lock_conflict :
  Raw.onBackupResponse Scenario.resolver_500 Scenario.locked_response
  = (None, 500, None).
Proof. reflexivity. Qed.

(** C2 fails as stated for [KvError.Locked]: the classifier does not
    always come back without an error.  When the resolver itself fails,
    its error is returned. *)
Lemma onBackupResponse_locked_may_fail :
  ~ (forall ResolveLocks resp respError v lockErr,
       BackupResponse.Error resp = Some respError ->
       BackupError.Detail respError = Some (BackupError.Error_KvError v) ->
       Kvrpcpb.Locked v = Some lockErr ->
       snd (Raw.onBackupResponse ResolveLocks resp) = None).
Proof.
  intros H.
  specialize (H Scenario.failing_resolver Scenario.locked_response
                _ _ _ eq_refl eq_refl eq_refl).
  vm_compute in H. discriminate H.
Qed.

End Classifier.


(** ** The fine-grained retry engine *)

Module Retry.

Import Go.

Section Facts.
Context {RangeTree : Type}.
Variable c : Raw.Cluster RangeTree.

(** The callback only ever puts error-free responses on the channel. *)
Lemma respFn_clean ResolveLocks st resp :
  Forall Spec.clean (snd st) ->
  Forall Spec.clean (snd (fst (Raw.respFn ResolveLocks st resp))).
Proof.
  intros Hst. destruct st as [max respCh]. unfold Raw.respFn.
  pose proof (Classifier.onBackupResponse_response ResolveLocks resp) as Hresp.
  destruct (Raw.onBackupResponse ResolveLocks resp) as [[response backoffMs] err].
  cbn [fst] in Hresp.
  destruct err as [e |]; [exact Hst |].
  cbn [fst snd] in *.
  destruct (BackupResponse.Error resp) eqn:Herr; subst response; [exact Hst |].
  apply Forall_app. split; [exact Hst |].
  apply Forall_singleton. exact Herr.
Qed.

(** Whatever the transport does with the callback, a property of the
    callback's state that every invocation keeps holds at the end. *)
Lemma SendBackup_frames_invariant {S : Type} (P : S -> Prop)
    (fn : S -> BackupResponse.t -> S * option error) frames last s :
  (forall s resp, P s -> P (fst (fn s resp))) ->
  P s -> P (fst (Raw.SendBackup_frames frames last fn s)).
Proof.
  intros Hfn. revert s.
  induction frames as [| resp frames IH]; intros s Hs; cbn; [exact Hs |].
  specialize (Hfn s resp Hs).
  destruct (fn s resp) as [s' [e |]]; cbn [fst] in *; [exact Hfn |].
  apply IH. exact Hfn.
Qed.

Lemma handleFineGrained_clean bc rg backupTS path rateLimit concurrency :
  Forall Spec.clean
    (Raw.fg_respCh (Raw.handleFineGrained c bc rg backupTS path rateLimit concurrency)).
Proof.
  unfold Raw.handleFineGrained.
  destruct (Raw.findRegionLeader c (Raw.StartKey rg)) as [pderr | leader];
    [constructor |].
  unfold Raw.SendBackup.
  match goal with |- context [Raw.Backup c ?s ?r] =>
    destruct (Raw.Backup c s r) as [frames last] end.
  match goal with |- context [Raw.SendBackup_frames ?f ?l ?fn ?s0] =>
    pose proof (SendBackup_frames_invariant
                  (fun st : Z * list BackupResponse.t => Forall Spec.clean (snd st))
                  fn f l s0) as Hinv;
    destruct (Raw.SendBackup_frames f l fn s0) as [[max respCh] [err |]]
  end; cbn [Raw.fg_respCh]; cbn [fst snd] in Hinv;
    (apply Hinv; [intros; apply respFn_clean; assumption | constructor]).
Qed.

Lemma handleFineGrained_requests bc rg backupTS path rateLimit concurrency :
  Forall (Spec.at_snapshot backupTS)
    (Raw.fg_requests (Raw.handleFineGrained c bc rg backupTS path rateLimit concurrency)).
Proof.
  unfold Raw.handleFineGrained.
  destruct (Raw.findRegionLeader c (Raw.StartKey rg)) as [pderr | leader];
    [constructor |].
  match goal with |- context [Raw.SendBackup ?a ?b ?d ?e ?f] =>
    destruct (Raw.SendBackup a b d e f) as [[max respCh] [err |]] end;
    cbn [Raw.fg_requests]; apply Forall_singleton; split; reflexivity.
Qed.

(** One round of workers puts error-free responses on the channel only. *)
Lemma workers_clean bc incomplete backupTS path rateLimit concurrency :
  forall reqs respCh ms,
    Forall Spec.clean respCh ->
    Forall Spec.clean
      (snd (fst (fst (Raw.workers c bc incomplete backupTS path rateLimit
                        concurrency reqs respCh ms)))).
Proof.
  induction incomplete as [| rg rest IH]; intros reqs respCh ms Hclean;
    cbn [Raw.workers]; [assumption |].
  pose proof (handleFineGrained_clean bc rg backupTS path rateLimit concurrency) as Hc.
  destruct (Raw.fg_err (Raw.handleFineGrained c bc rg backupTS path rateLimit
                          concurrency)).
  - cbn [fst snd]. apply Forall_app. split; assumption.
  - apply IH. apply Forall_app. split; assumption.
Qed.

(** One round of workers sends snapshot requests only. *)
Lemma workers_requests bc incomplete backupTS path rateLimit concurrency :
  forall reqs respCh ms,
    Forall (Spec.at_snapshot backupTS) reqs ->
    Forall (Spec.at_snapshot backupTS)
      (fst (fst (fst (Raw.workers c bc incomplete backupTS path rateLimit
                        concurrency reqs respCh ms)))).
Proof.
  induction incomplete as [| rg rest IH]; intros reqs respCh ms Hreqs;
    cbn [Raw.workers]; [assumption |].
  pose proof (handleFineGrained_requests bc rg backupTS path rateLimit concurrency) as Hr.
  destruct (Raw.fg_err (Raw.handleFineGrained c bc rg backupTS path rateLimit
                          concurrency)).
  - cbn [fst snd]. apply Forall_app. split; assumption.
  - apply IH. apply Forall_app. split; assumption.
Qed.

(** Error-free responses never reach the fatal branch of the receiver. *)
Lemma selectLoop_clean respCh :
  forall rangeTree, Forall Spec.clean respCh ->
                    is_Some (Raw.selectLoop c rangeTree respCh).
Proof.
  induction respCh as [| resp rest IH]; intros rangeTree Hclean; cbn;
    [eexists; reflexivity |].
  apply Forall_cons in Hclean as [Hresp Hrest].
  unfold Spec.clean in Hresp. rewrite Hresp. cbn. apply IH. exact Hrest.
Qed.

(** Runs the retry loop one case at a time; [tac] closes the cases in
    which the loop stops, the recursive ones are left to [IH]. *)
Ltac retry_loop_cases IH stop :=
  let Hc := fresh "Hc" in
  let Hr := fresh "Hr" in
  let tree' := fresh "tree'" in
  let Htree := fresh "Htree" in
  cbn [Raw.fineGrainedBackup];
  match goal with
  | |- context [Raw.getIncompleteRange ?c ?t ?s ?e] =>
      destruct (Raw.getIncompleteRange c t s e); [stop |]
  end;
  match goal with
  | |- context [Raw.workers ?c ?bc ?l ?ts ?p ?rl ?cc ?reqs ?ch ?ms] =>
      pose proof (workers_clean bc l ts p rl cc reqs ch ms (Forall_nil_2 _)) as Hc;
      pose proof (workers_requests bc l ts p rl cc reqs ch ms) as Hr;
      destruct (Raw.workers c bc l ts p rl cc reqs ch ms) as [[[? ?] ?] [? |]];
      cbn [fst snd] in Hc, Hr
  end;
  match goal with
  | |- context [Raw.selectLoop ?c ?t ?ch] =>
      destruct (selectLoop_clean ch t Hc) as [tree' Htree]; rewrite Htree
  end;
  [stop |];
  match goal with
  | |- context [negb ?b] => destruct (negb b)
  end;
  [ match goal with
    | |- context [Raw.BackoffWithMaxSleep ?c ?n ?ms] =>
        destruct (Raw.BackoffWithMaxSleep c n ms); [stop |]
    end |];
  apply IH.

Lemma fineGrainedBackup_requests rounds :
  forall n bc startKey endKey backupTS path rateLimit concurrency rangeTree reqs,
    Forall (Spec.at_snapshot backupTS) reqs ->
    Forall (Spec.at_snapshot backupTS)
      (fst (fst (Raw.fineGrainedBackup c rounds n bc startKey endKey backupTS path
                   rateLimit concurrency rangeTree reqs))).
Proof.
  induction rounds as [| rounds IH];
    intros n bc startKey endKey backupTS path rateLimit concurrency rangeTree reqs
           Hreqs; [exact Hreqs |].
  retry_loop_cases IH ltac:(cbn [fst snd]; auto); auto.
Qed.

Lemma fineGrainedBackup_never_exits rounds :
  forall n bc startKey endKey backupTS path rateLimit concurrency rangeTree reqs,
    snd (Raw.fineGrainedBackup c rounds n bc startKey endKey backupTS path
           rateLimit concurrency rangeTree reqs) <> Raw.Exited.
Proof.
  induction rounds as [| rounds IH];
    intros n bc startKey endKey backupTS path rateLimit concurrency rangeTree reqs;
    [discriminate |].
  retry_loop_cases IH ltac:(discriminate).
Qed.

(** C9: the classifier hands back a response exactly when the incoming
    response carries no error, and then it is that response; so every
    response [handleFineGrained] puts on the channel is free of errors,
    and [fineGrainedBackup] never ends in its fatal branch. *)
Theorem forwarded_responses_carry_no_error :
  (forall resp,
     fst (fst (Raw.onBackupResponse (Raw.ResolveLocks c) resp)) =
       match BackupResponse.Error resp with
       | None => Some resp
       | Some _ => None
       end) /\
  (forall bc rg backupTS path rateLimit concurrency,
     Forall (fun resp => BackupResponse.Error resp = None)
       (Raw.fg_respCh
          (Raw.handleFineGrained c bc rg backupTS path rateLimit concurrency))) /\
  (forall rounds n bc startKey endKey backupTS path rateLimit concurrency
          rangeTree reqs,
     snd (Raw.fineGrainedBackup c rounds n bc startKey endKey backupTS path
            rateLimit concurrency rangeTree reqs) <> Raw.Exited).
Proof.
  split; [| split].
  - intros resp. apply Classifier.onBackupResponse_response.
  - intros. apply handleFineGrained_clean.
  - intros. apply fineGrainedBackup_never_exits.
Qed.

End Facts.

End Retry.

(** ** The range pipeline and its supervisor *)

Module Supervisor.

Import Go.

Section Facts.
Context {RangeTree : Type}.
Variable c : Raw.Cluster RangeTree.
Variable rounds : nat.

(** *** Requests *)

Lemma backupRange_requests bc startKey endKey path backupTS rateMBs concurrency :
  Forall (Spec.at_snapshot backupTS) (Raw.issued bc) ->
  Forall (Spec.at_snapshot backupTS)
    (Raw.issued (fst (Raw.backupRange c rounds bc startKey endKey path backupTS
                        rateMBs concurrency))).
Proof.
  intros Hbc. unfold Raw.backupRange.
  destruct (Raw.GetAllStores c) as [err | allStores]; [exact Hbc |].
  match goal with |- context [Raw.pushBackup c ?r ?st] =>
    set (req := r);
    assert (Hreq : Forall (Spec.at_snapshot backupTS) (Raw.issued bc ++ [req]))
      by (apply Forall_app; split;
          [exact Hbc | apply Forall_singleton; split; reflexivity]);
    destruct (Raw.pushBackup c req st) as [err | results]; [exact Hreq |]
  end.
  match goal with |- context [Raw.fineGrainedBackup c rounds ?n ?b ?s ?e ?ts ?p ?rl ?cc ?t ?rq] =>
    pose proof (Retry.fineGrainedBackup_requests c rounds n b s e ts p rl cc t rq Hreq)
      as Hfg;
    destruct (Raw.fineGrainedBackup c rounds n b s e ts p rl cc t rq)
      as [[reqs tree] [[err |] | | |]]
  end; cbn [fst snd] in Hfg; try exact Hfg.
  destruct (Raw.checkDupFiles c tree); exact Hfg.
Qed.

Lemma backupRanges_worker_requests ranges :
  forall bc path backupTS rate concurrency,
    Forall (Spec.at_snapshot backupTS) (Raw.issued bc) ->
    Forall (Spec.at_snapshot backupTS)
      (Raw.issued (fst (Raw.backupRanges_worker c rounds bc ranges path backupTS
                          rate concurrency))).
Proof.
  induction ranges as [| r rest IH]; intros bc path backupTS rate concurrency Hbc;
    cbn [Raw.backupRanges_worker]; [exact Hbc |].
  pose proof (backupRange_requests bc (Raw.StartKey r) (Raw.EndKey r) path
                backupTS rate concurrency Hbc) as Hr.
  destruct (Raw.backupRange c rounds bc (Raw.StartKey r) (Raw.EndKey r) path
              backupTS rate concurrency) as [bc' [[err |] | | |]];
    cbn [fst] in Hr |- *; try exact Hr.
  apply IH. exact Hr.
Qed.

(** *** The manifest *)

Lemma backupRange_success_versions bc startKey endKey path backupTS rateMBs
    concurrency bc' :
  Raw.backupRange c rounds bc startKey endKey path backupTS rateMBs concurrency
    = (bc', Raw.Returned None) ->
  Spec.versions_are backupTS bc'.
Proof.
  unfold Raw.backupRange.
  destruct (Raw.GetAllStores c) as [err | allStores]; [discriminate |].
  match goal with |- context [Raw.pushBackup c ?r ?st] =>
    destruct (Raw.pushBackup c r st) as [err | results]; [discriminate |]
  end.
  match goal with |- context [Raw.fineGrainedBackup c rounds ?n ?b ?s ?e ?ts ?p ?rl ?cc ?t ?rq] =>
    destruct (Raw.fineGrainedBackup c rounds n b s e ts p rl cc t rq)
      as [[reqs tree] [[err |] | | |]]
  end; try discriminate.
  destruct (Raw.checkDupFiles c tree); [| discriminate].
  intros [= <-]. split; reflexivity.
Qed.

Lemma backupRanges_worker_success_versions ranges :
  forall bc path backupTS rate concurrency bc',
    Raw.backupRanges_worker c rounds bc ranges path backupTS rate concurrency
      = (bc', Raw.Returned None) ->
    ranges <> [] \/ Spec.versions_are backupTS bc ->
    Spec.versions_are backupTS bc'.
Proof.
  induction ranges as [| r rest IH]; intros bc path backupTS rate concurrency bc';
    cbn [Raw.backupRanges_worker].
  - intros [= <-] [Hne | Hv]; [congruence | exact Hv].
  - destruct (Raw.backupRange c rounds bc (Raw.StartKey r) (Raw.EndKey r) path
                backupTS rate concurrency) as [bc1 [[err |] | | |]] eqn:Hrange;
      try discriminate.
    intros Hrest _. eapply IH; [exact Hrest |].
    right. eapply backupRange_success_versions. exact Hrange.
Qed.

(** With no range to back up the client is left as it was. *)
Lemma backupRanges_worker_nil bc path backupTS rate concurrency :
  Raw.backupRanges_worker c rounds bc [] path backupTS rate concurrency
    = (bc, Raw.Returned None).
Proof. reflexivity. Qed.

(** *** The supervising loop *)

Lemma supervise_ticks CheckGCSafepoint backupTS n :
  forall k evs,
    Raw.supervise CheckGCSafepoint backupTS k false (repeat Raw.Tick n ++ evs)
    = Raw.supervise CheckGCSafepoint backupTS (k + n) false evs.
Proof.
  induction n as [| n IH]; intros k evs.
  - rewrite Nat.add_0_r. reflexivity.
  - cbn [repeat app Raw.supervise]. rewrite IH. f_equal. lia.
Qed.

Lemma supervise_closed CheckGCSafepoint backupTS k :
  Raw.supervise CheckGCSafepoint backupTS k false [Raw.ErrCh None false]
  = (S (S k), Some (CheckGCSafepoint (S k) backupTS)).
Proof. reflexivity. Qed.

Lemma supervise_error CheckGCSafepoint backupTS k e :
  Raw.supervise CheckGCSafepoint backupTS k false [Raw.ErrCh (Some e) true]
  = (S k, Some (Some e)).
Proof. reflexivity. Qed.

(** What [BackupRanges] returns, by the report of the range pipeline. *)
Lemma BackupRanges_reports CheckGCSafepoint bc ranges path backupTS rate
    concurrency ticks :
  Raw.BackupRanges c CheckGCSafepoint rounds bc ranges path backupTS rate
                   concurrency ticks
  = match Raw.backupRanges_worker c rounds bc ranges path backupTS rate
            concurrency with
    | (bc', Raw.Returned None) =>
        (bc', Raw.Returned ((ticks + 2)%nat,
                            CheckGCSafepoint (ticks + 1)%nat backupTS))
    | (bc', Raw.Returned (Some e)) =>
        (bc', Raw.Returned ((ticks + 1)%nat, Some e))
    | (bc', Raw.Exited) => (bc', Raw.Exited)
    | (bc', Raw.Panicked) => (bc', Raw.Panicked)
    | (bc', Raw.Running) => (bc', Raw.Running)
    end.
Proof.
  unfold Raw.BackupRanges.
  destruct (Raw.backupRanges_worker c rounds bc ranges path backupTS rate
              concurrency) as [bc' [[e |] | | |]]; try reflexivity.
  - rewrite supervise_ticks, supervise_error. cbn [Nat.add].
    do 3 f_equal. lia.
  - rewrite supervise_ticks, supervise_closed. cbn [Nat.add].
    do 3 f_equal; [lia |]. f_equal. lia.
Qed.

(** C1, as amended: [BackupRanges] checks the safepoint once when it
    starts and once after every tick of the 30 s ticker; the verdicts of
    these checks are logged and change nothing.  When the range pipeline
    reports an error, that error is returned.  When the pipeline finishes,
    one more check is made and its verdict is what [BackupRanges]
    returns. *)
Theorem BackupRanges_supervision CheckGCSafepoint bc ranges path backupTS rate
    concurrency ticks :
  Raw.BackupRanges c CheckGCSafepoint rounds bc ranges path backupTS rate
                   concurrency ticks
  = match Raw.backupRanges_worker c rounds bc ranges path backupTS rate
            concurrency with
    | (bc', Raw.Returned None) =>
        (bc', Raw.Returned ((ticks + 2)%nat,
                            CheckGCSafepoint (ticks + 1)%nat backupTS))
    | (bc', Raw.Returned (Some e)) =>
        (bc', Raw.Returned ((ticks + 1)%nat, Some e))
    | (bc', Raw.Exited) => (bc', Raw.Exited)
    | (bc', Raw.Panicked) => (bc', Raw.Panicked)
    | (bc', Raw.Running) => (bc', Raw.Running)
    end
  /\ (forall other : nat -> Z -> option error,
        other (ticks + 1)%nat backupTS = CheckGCSafepoint (ticks + 1)%nat backupTS ->
        Raw.BackupRanges c other rounds bc ranges path backupTS rate concurrency
                         ticks
        = Raw.BackupRanges c CheckGCSafepoint rounds bc ranges path backupTS rate
                           concurrency ticks).
Proof.
  split.
  - apply BackupRanges_reports.
  - intros other Hlast. rewrite !BackupRanges_reports, Hlast. reflexivity.
Qed.

(** Every request of a job is a request for the snapshot: the push-down
    request of each range and the request of each fine-grained retry carry
    [backupTS] as both versions. *)
Lemma BackupRanges_requests_at_snapshot CheckGCSafepoint bc ranges path backupTS
    rate concurrency ticks :
  Forall (Spec.at_snapshot backupTS) (Raw.issued bc) ->
  Forall (Spec.at_snapshot backupTS)
    (Raw.issued (fst (Raw.BackupRanges c CheckGCSafepoint rounds bc ranges path
                        backupTS rate concurrency ticks))).
Proof.
  intros Hbc.
  pose proof (backupRanges_worker_requests ranges bc path backupTS rate
                concurrency Hbc) as Hw.
  unfold Raw.BackupRanges.
  destruct (Raw.backupRanges_worker c rounds bc ranges path backupTS rate
              concurrency) as [bc' [report | | |]]; cbn [fst] in Hw; try exact Hw.
  destruct (Raw.supervise _ _ _ _ _) as [k [r |]]; exact Hw.
Qed.

(** After a successful job over at least one range the manifest records
    [backupTS] as both versions. *)
Lemma BackupRanges_manifest_versions CheckGCSafepoint bc ranges path backupTS
    rate concurrency ticks bc' k :
  ranges <> [] ->
  Raw.BackupRanges c CheckGCSafepoint rounds bc ranges path backupTS rate
                   concurrency ticks = (bc', Raw.Returned (k, None)) ->
  Spec.versions_are backupTS bc'.
Proof.
  intros Hne. unfold Raw.BackupRanges.
  destruct (Raw.backupRanges_worker c rounds bc ranges path backupTS rate
              concurrency) as [bc1 [[e |] | | |]] eqn:Hw; try discriminate.
  - rewrite supervise_ticks, supervise_error. discriminate.
  - rewrite supervise_ticks, supervise_closed. intros [= <- _ _].
    eapply backupRanges_worker_success_versions; [exact Hw | left; exact Hne].
Qed.

End Facts.

(** C1 fails as stated: a failing periodic check does not abort the job.
    Here the first three checks fail, the fourth passes: the range is
    backed up meanwhile and [BackupRanges] returns [nil]. *)
Lemma BackupRanges_survives_failed_checks :
  ~ (forall (RangeTree : Type) (c : Raw.Cluster RangeTree) CheckGCSafepoint
            rounds bc ranges path backupTS rate concurrency ticks k bc' n r,
       (k <= ticks)%nat ->
       CheckGCSafepoint k backupTS <> None ->
       Raw.BackupRanges c CheckGCSafepoint rounds bc ranges path backupTS rate
                        concurrency ticks = (bc', Raw.Returned (n, r)) ->
       r <> None).
Proof.
  intros H.
  refine (H _ Scenario.one_store Scenario.check_fails_thrice 5%nat
            Scenario.fresh_client [Scenario.table_100] "local:///backup"%string
            77 0 4 2%nat 1%nat _ 4%nat None _ _ _ eq_refl).
  - lia.
  - discriminate.
  - vm_compute. reflexivity.
Qed.

(** A job over one range on the one-store cluster: the push-down leaves
    the range uncovered, one fine-grained request fills it; two requests
    are sent, the manifest takes the file and records the snapshot. *)
Example BackupRanges_one_range :
  let bc' := fst (Raw.BackupRanges Scenario.one_store Scenario.check_passes 5
                    Scenario.fresh_client [Scenario.table_100]
                    "local:///backup" 77 5 4 1) in
  Spec.versions_are 77 bc'
  /\ BackupMeta.Files (Raw.backupMeta bc') = [Scenario.f1]
  /\ length (Raw.issued bc') = 2%nat
  /\ Forall (fun req => BackupRequest.RateLimit req = 5242880) (Raw.issued bc').
Proof.
  vm_compute. repeat split; repeat constructor.
Qed.

(** C6 at an empty plan: a job over no range at all (a cluster without user
    tables) returns [nil] after its two safepoint checks, sends no request,
    and leaves both versions of the manifest at zero although [backupTS]
    is 77. *)
Theorem BackupRanges_no_ranges_manifest_unversioned :
  Raw.BackupRanges Scenario.one_store Scenario.check_passes 5
                   Scenario.fresh_client [] "local:///backup" 77 0 4 0
    = (Scenario.fresh_client, Raw.Returned (2%nat, None))
  /\ BackupMeta.StartVersion (Raw.backupMeta Scenario.fresh_client) = 0
  /\ BackupMeta.EndVersion (Raw.backupMeta Scenario.fresh_client) = 0.
Proof. repeat split. Qed.

End Supervisor.

(** ** The catalog planner *)

Module Planner.

Import Go.

Lemma isSystemDatabase_user db :
  Raw.isSystemDatabase db = negb (Spec.user_database db).
Proof.
  unfold Raw.isSystemDatabase, Spec.user_database, Spec.system_name,
    Raw.SystemDatabases.
  cbn [existsb].
  destruct (String.eqb_spec "information_schema" (Model.L (Model.DBName db)));
    [rewrite bool_decide_eq_false_2; [reflexivity | intuition] |].
  destruct (String.eqb_spec "performance_schema" (Model.L (Model.DBName db)));
    [rewrite bool_decide_eq_false_2; [reflexivity | intuition] |].
  destruct (String.eqb_spec "mysql" (Model.L (Model.DBName db)));
    [rewrite bool_decide_eq_false_2; [reflexivity | intuition] |].
  rewrite bool_decide_eq_true_2; [reflexivity |].
  intros [H | [H | H]]; congruence.
Qed.

(** Below the largest [int64] the end of a range is the prefix of the
    next id. *)
Lemma prefix_range_successor tablePrefix id :
  in_int64 (id + 1) ->
  Spec.prefix_range tablePrefix id
  = {| Raw.StartKey := tablePrefix id; Raw.EndKey := tablePrefix (id + 1);
       Raw.Files := [] |}.
Proof.
  intros Hid. unfold Spec.prefix_range. rewrite Arith.int64_id by exact Hid.
  reflexivity.
Qed.

Section Facts.
Variable GenTablePrefix : Z -> bytes.
Variable GetSnapshotInfoSchema : Z -> res (list Model.DBInfo).
Variable Marshal_DBInfo : Model.DBInfo -> res bytes.
Variable Marshal_TableInfo : Model.TableInfo -> res bytes.
Variable NextGlobalAutoID : Z -> Z -> res Z.
Variable CreateSession : Z -> Z -> res unit.

Local Abbreviation loadTables :=
  (Raw.loadTables GenTablePrefix Marshal_TableInfo NextGlobalAutoID CreateSession).
Local Abbreviation LoadDb :=
  (Raw.LoadDb GenTablePrefix Marshal_DBInfo Marshal_TableInfo NextGlobalAutoID
              CreateSession).
Local Abbreviation PreBackupAllTableRanges :=
  (Raw.PreBackupAllTableRanges GenTablePrefix GetSnapshotInfoSchema Marshal_DBInfo
     Marshal_TableInfo NextGlobalAutoID CreateSession).
Local Abbreviation table_ranges := (Spec.table_ranges GenTablePrefix).
Local Abbreviation planned_ranges := (Spec.planned_ranges GenTablePrefix).

(** The ranges of a table do not depend on the pinned auto-increment id. *)
Lemma buildTableRanges_table_ranges t v :
  map (Raw.tableRange_Range GenTablePrefix)
      (Raw.buildTableRanges (Model.set_AutoIncID t v))
  = table_ranges t.
Proof.
  unfold Raw.buildTableRanges, Spec.table_ranges, Model.GetPartitionInfo.
  cbn [Model.set_AutoIncID Model.Partition Model.ID].
  destruct (Model.Partition t) as [pi |]; [| reflexivity].
  destruct (Model.Enable pi); [| reflexivity].
  rewrite map_map. reflexivity.
Qed.

Lemma planned_ranges_cons db dbs :
  planned_ranges (db :: dbs) =
    if Spec.user_database db
    then flat_map table_ranges (Model.Tables db) ++ planned_ranges dbs
    else planned_ranges dbs.
Proof.
  unfold Spec.planned_ranges. rewrite filter_cons.
  destruct (Spec.user_database db); cbn; reflexivity.
Qed.

Lemma user_tables_cons db dbs :
  Spec.user_tables (db :: dbs) =
    if Spec.user_database db
    then Model.Tables db ++ Spec.user_tables dbs
    else Spec.user_tables dbs.
Proof.
  unfold Spec.user_tables. rewrite filter_cons.
  destruct (Spec.user_database db); cbn; reflexivity.
Qed.

(** A call of [startTableChecksum] returns exactly when a worker is idle,
    and then one worker fewer is. *)
Lemma startTableChecksum_idle bs schema dbName tableName :
  match Raw.startTableChecksum bs schema dbName tableName with
  | Some bs' => Raw.workerPool bs = S (Raw.workerPool bs')
  | None => Raw.workerPool bs = 0%nat
  end.
Proof.
  unfold Raw.startTableChecksum, Raw.WorkerPool_Apply.
  destruct (Raw.workerPool bs); reflexivity.
Qed.

(** A pass over the tables that returns ranges has added those of the
    tables, and has taken a worker for each. *)
Lemma loadTables_ranges dbInfo dbData backupTS tables :
  forall ranges bs ranges' bs',
    loadTables dbInfo dbData tables ranges bs backupTS
    = Raw.Returned (inr (ranges', bs')) ->
    ranges' = ranges ++ flat_map table_ranges tables /\
    Raw.workerPool bs = (Raw.workerPool bs' + length tables)%nat.
Proof.
  induction tables as [| t rest IH]; intros ranges bs ranges' bs';
    cbn [Raw.loadTables flat_map length].
  - intros [= <- <-]. rewrite app_nil_r. split; [reflexivity | lia].
  - destruct (NextGlobalAutoID (Model.DBID dbInfo) (Model.ID t)) as [e | autoID];
      [discriminate |].
    destruct (Marshal_TableInfo (Model.set_AutoIncID t autoID)) as [e | tableData];
      [discriminate |].
    destruct (CreateSession _ _) as [e | dbSession]; [discriminate |].
    match goal with |- context [Raw.startTableChecksum ?b ?s ?d ?n] =>
      pose proof (startTableChecksum_idle b s d n) as Hidle;
      destruct (Raw.startTableChecksum b s d n) as [bs1 |]; [| discriminate]
    end.
    intros Hrest. apply IH in Hrest as [-> Hpool]. split.
    + rewrite buildTableRanges_table_ranges, app_assoc. reflexivity.
    + lia.
Qed.

(** When the calls made for the tables succeed, the pass returns if the
    pool has an idle worker for every table, and waits for ever if not. *)
Lemma loadTables_run dbInfo dbData backupTS tables :
  forall ranges bs,
    Forall (fun t =>
      exists autoID,
        NextGlobalAutoID (Model.DBID dbInfo) (Model.ID t) = inr autoID /\
        Is_true (is_ok (Marshal_TableInfo (Model.set_AutoIncID t autoID))) /\
        Is_true (is_ok (CreateSession (Model.DBID dbInfo) (Model.ID t)))) tables ->
    ((length tables <= Raw.workerPool bs)%nat ->
     exists bs',
       loadTables dbInfo dbData tables ranges bs backupTS
       = Raw.Returned (inr (ranges ++ flat_map table_ranges tables, bs'))) /\
    ((Raw.workerPool bs < length tables)%nat ->
     loadTables dbInfo dbData tables ranges bs backupTS = Raw.Running).
Proof.
  induction tables as [| t rest IH]; intros ranges bs Hok;
    cbn [Raw.loadTables flat_map length].
  - split; [| lia]. intros _. exists bs. rewrite app_nil_r. reflexivity.
  - apply Forall_cons in Hok as [(autoID & Hid & Hm & Hs) Hrest].
    rewrite Hid.
    destruct (Marshal_TableInfo (Model.set_AutoIncID t autoID)) as [e | tableData];
      [contradiction |].
    cbn [Model.set_AutoIncID Model.ID].
    destruct (CreateSession (Model.DBID dbInfo) (Model.ID t)) as [e | dbSession];
      [contradiction |].
    match goal with |- context [Raw.startTableChecksum ?b ?s ?d ?n] =>
      pose proof (startTableChecksum_idle b s d n) as Hidle;
      destruct (Raw.startTableChecksum b s d n) as [bs1 |]
    end.
    + match goal with |- context [loadTables _ _ rest ?r bs1 _] =>
        destruct (IH r bs1 Hrest) as [Hret Hblock] end.
      split.
      * intros Hle. destruct Hret as [bs' Heq]; [lia |].
        exists bs'. rewrite Heq.
        rewrite (buildTableRanges_table_ranges t autoID), app_assoc. reflexivity.
      * intros Hlt. apply Hblock. lia.
    + split; [lia | reflexivity].
Qed.

Lemma LoadDb_ranges backupTS dbs :
  forall ranges bs ranges' bs',
    LoadDb dbs ranges bs backupTS = Raw.Returned (inr (ranges', bs')) ->
    ranges' = ranges ++ planned_ranges dbs /\
    Raw.workerPool bs = (Raw.workerPool bs' + length (Spec.user_tables dbs))%nat.
Proof.
  induction dbs as [| db rest IH]; intros ranges bs ranges' bs';
    cbn [Raw.LoadDb].
  - intros [= <- <-]. unfold Spec.planned_ranges, Spec.user_tables. cbn.
    rewrite app_nil_r. split; [reflexivity | lia].
  - rewrite planned_ranges_cons, user_tables_cons, isSystemDatabase_user.
    destruct (Spec.user_database db); cbn [negb].
    + destruct (Marshal_DBInfo db) as [e | dbData]; [discriminate |].
      destruct (loadTables db dbData (Model.Tables db) ranges bs backupTS)
        as [[e | [r1 bs1]] | | |] eqn:Htables; try discriminate.
      intros Hrest. apply IH in Hrest as [-> Hpool].
      apply loadTables_ranges in Htables as [-> Hpool1].
      rewrite app_assoc, length_app. split; [reflexivity | lia].
    + apply IH.
Qed.

Lemma LoadDb_run backupTS dbs :
  forall ranges bs,
    Spec.plan_calls_succeed Marshal_DBInfo Marshal_TableInfo NextGlobalAutoID
                            CreateSession dbs ->
    ((length (Spec.user_tables dbs) <= Raw.workerPool bs)%nat ->
     exists bs',
       LoadDb dbs ranges bs backupTS
       = Raw.Returned (inr (ranges ++ planned_ranges dbs, bs'))) /\
    ((Raw.workerPool bs < length (Spec.user_tables dbs))%nat ->
     LoadDb dbs ranges bs backupTS = Raw.Running).
Proof.
  unfold Spec.plan_calls_succeed.
  induction dbs as [| db rest IH]; intros ranges bs Hok; cbn [Raw.LoadDb].
  - split.
    + intros _. exists bs. unfold Spec.planned_ranges. cbn.
      rewrite app_nil_r. reflexivity.
    + unfold Spec.user_tables. cbn. lia.
  - apply Forall_cons in Hok as [Hdb Hrest].
    rewrite planned_ranges_cons, user_tables_cons, isSystemDatabase_user.
    destruct (Spec.user_database db); cbn [negb]; [| apply IH; exact Hrest].
    destruct (Hdb I) as [Hm Htables].
    destruct (Marshal_DBInfo db) as [e | dbData]; [contradiction |].
    rewrite length_app.
    destruct (loadTables_run db dbData backupTS (Model.Tables db) ranges bs Htables)
      as [Hret Hblock].
    destruct (le_lt_dec (length (Model.Tables db)) (Raw.workerPool bs))
      as [Hle | Hlt].
    + destruct (Hret Hle) as [bs1 Heq]. rewrite Heq.
      apply loadTables_ranges in Heq as [_ Hpool].
      destruct (IH (ranges ++ flat_map table_ranges (Model.Tables db)) bs1 Hrest)
        as [Hret' Hblock'].
      split.
      * intros Hall. destruct Hret' as [bs' Heq']; [lia |].
        exists bs'. rewrite Heq', app_assoc. reflexivity.
      * intros Hall. apply Hblock'. lia.
    + rewrite (Hblock Hlt). split; [lia | reflexivity].
Qed.

(** C5: at a snapshot with the databases [dbs], the ranges
    [PreBackupAllTableRanges] returns are those of the tables of the
    databases whose lowercase name is none of [information_schema],
    [performance_schema], [mysql], in order: the single range
    [[tablePrefix(id), tablePrefix(id+1))] for a table without partitions,
    one such range per partition definition otherwise.  With every call
    made for these tables succeeding, it does return them when the pool of
    checksum workers has an idle worker for each of the tables; when the
    tables outnumber the idle workers it emits no range at all: it waits
    for a worker in [startTableChecksum] and never returns. *)
Theorem PreBackupAllTableRanges_blocks_beyond_pool bs backupTS dbs :
  GetSnapshotInfoSchema backupTS = inr dbs ->
  (forall ranges bs',
     PreBackupAllTableRanges bs backupTS = Raw.Returned (inr (ranges, bs')) ->
     ranges = planned_ranges dbs) /\
  (Spec.plan_calls_succeed Marshal_DBInfo Marshal_TableInfo NextGlobalAutoID
                           CreateSession dbs ->
   ((length (Spec.user_tables dbs) <= Raw.workerPool bs)%nat ->
    exists bs',
      PreBackupAllTableRanges bs backupTS
      = Raw.Returned (inr (planned_ranges dbs, bs'))) /\
   ((Raw.workerPool bs < length (Spec.user_tables dbs))%nat ->
    PreBackupAllTableRanges bs backupTS = Raw.Running)).
Proof.
  intros Hsnap. unfold Raw.PreBackupAllTableRanges. rewrite Hsnap.
  split.
  - intros ranges bs' Hload. apply LoadDb_ranges in Hload as [Hr _]. exact Hr.
  - intros Hok. exact (LoadDb_run backupTS dbs [] bs Hok).
Qed.

End Facts.

(** One store gives a pool of eight workers.  With the catalog of [mysql]
    and [shop] the table of [mysql] is skipped, the plain table gives one
    range and the partitioned one a range per partition.  The nine tables
    of [ledger] are planned as nine ranges, and the planner waits for a
    ninth worker. *)
Lemma PreBackupAllTableRanges_blocks_beyond_pool_witness :
  (exists bc,
     Raw.NewBackupClient
       (inr [{| Raw.StoreID := 1; Raw.Address := "tikv-1:20160" |}]) (inr tt) 1
     = inr (bc, 8)) /\
  (exists bs',
     Raw.PreBackupAllTableRanges Scenario.toy_prefix Scenario.snapshot_of_catalog
       Scenario.marshal_db Scenario.marshal_table Scenario.next_auto_id
       Scenario.create_session (Raw.new_backupSchemas 8) 77
     = Raw.Returned
         (inr ([ {| Raw.StartKey := [Byte.x74; Byte.x64];
                    Raw.EndKey := [Byte.x74; Byte.x65]; Raw.Files := [] |};
                 {| Raw.StartKey := [Byte.x74; Byte.xc8];
                    Raw.EndKey := [Byte.x74; Byte.xc9]; Raw.Files := [] |};
                 {| Raw.StartKey := [Byte.x74; Byte.xc9];
                    Raw.EndKey := [Byte.x74; Byte.xca]; Raw.Files := [] |} ],
               bs'))) /\
  length (Spec.planned_ranges Scenario.toy_prefix Scenario.nine_tables) = 9%nat /\
  Raw.PreBackupAllTableRanges Scenario.toy_prefix Scenario.snapshot_of_nine_tables
    Scenario.marshal_db Scenario.marshal_table Scenario.next_auto_id
    Scenario.create_session (Raw.new_backupSchemas 8) 77
  = Raw.Running.
Proof.
  split; [eexists; reflexivity |].
  split; [| split; [reflexivity |]].
  - refine (proj1 (proj2 (PreBackupAllTableRanges_blocks_beyond_pool
                            Scenario.toy_prefix Scenario.snapshot_of_catalog
                            Scenario.marshal_db Scenario.marshal_table
                            Scenario.next_auto_id Scenario.create_session
                            (Raw.new_backupSchemas 8) 77 Scenario.catalog eq_refl)
                   _) _).
    + unfold Spec.plan_calls_succeed, Scenario.catalog.
      repeat (apply Forall_cons; split); try apply Forall_nil_2; intros _;
        (split; [exact I |]);
        repeat (apply Forall_cons; split); try apply Forall_nil_2;
        exists 1; repeat split.
    + vm_compute. lia.
  - refine (proj2 (proj2 (PreBackupAllTableRanges_blocks_beyond_pool
                            Scenario.toy_prefix Scenario.snapshot_of_nine_tables
                            Scenario.marshal_db Scenario.marshal_table
                            Scenario.next_auto_id Scenario.create_session
                            (Raw.new_backupSchemas 8) 77 Scenario.nine_tables
                            eq_refl)
                   _) _).
    + unfold Spec.plan_calls_succeed, Scenario.nine_tables.
      apply Forall_cons; split; [| apply Forall_nil_2]. intros _.
      split; [exact I |].
      repeat (apply Forall_cons; split); try apply Forall_nil_2;
        exists 1; repeat split.
    + vm_compute. lia.
Defined.

End Planner.

(** ** The fast verifier *)

Module Verifier.

Import Go.

(** The loop over the files computes the xor and the two 64-bit sums. *)
Lemma fileStats_acc files :
  forall checksum totalKvs totalBytes,
    in_uint64 totalKvs -> in_uint64 totalBytes ->
    Raw.fileStats files (checksum, totalKvs, totalBytes)
    = (Z.lxor checksum (Spec.xor_crc files),
       uint64 (totalKvs + Spec.sum_kvs files),
       uint64 (totalBytes + Spec.sum_bytes files)).
Proof.
  induction files as [| file rest IH]; intros checksum totalKvs totalBytes Hk Hb;
    cbn [Raw.fileStats Spec.xor_crc Spec.sum_kvs Spec.sum_bytes foldr].
  - rewrite Z.lxor_0_r, !Z.add_0_r.
    unfold uint64, in_uint64 in *. rewrite !Z.mod_small by lia. reflexivity.
  - rewrite IH by apply Arith.uint64_range.
    rewrite !Arith.uint64_add_l, Z.lxor_assoc, !Z.add_assoc. reflexivity.
Qed.

Lemma fileStats_table_stats files :
  Raw.fileStats files (0, 0, 0) = Spec.table_stats files.
Proof.
  rewrite fileStats_acc by (unfold in_uint64; lia).
  rewrite Z.lxor_0_l, !Z.add_0_l. reflexivity.
Qed.

Section Facts.
Variable Database : Type.
Variable LoadBackupTables : BackupMeta.t -> res (gmap string Database).
Variable GetTable : option Database -> string -> option Raw.Table.
Variable Unmarshal_DBInfo : bytes -> res Model.DBInfo.
Variable Unmarshal_TableInfo : bytes -> res Model.TableInfo.

Local Abbreviation FastChecksum_loop :=
  (Raw.FastChecksum_loop Database GetTable Unmarshal_DBInfo Unmarshal_TableInfo).
Local Abbreviation FastChecksum :=
  (Raw.FastChecksum Database LoadBackupTables GetTable Unmarshal_DBInfo
                    Unmarshal_TableInfo).
Local Abbreviation table_of :=
  (Spec.table_of Database GetTable Unmarshal_DBInfo Unmarshal_TableInfo).
Local Abbreviation table_matches :=
  (Spec.table_matches Database GetTable Unmarshal_DBInfo Unmarshal_TableInfo).
Local Abbreviation table_disagrees :=
  (Spec.table_disagrees Database GetTable Unmarshal_DBInfo Unmarshal_TableInfo).
Local Abbreviation table_loaded :=
  (Spec.table_loaded Database GetTable Unmarshal_DBInfo Unmarshal_TableInfo).

Lemma table_of_functional dbs schema tbl1 tbl2 :
  table_of dbs schema tbl1 -> table_of dbs schema tbl2 -> tbl1 = tbl2.
Proof.
  intros (d1 & t1 & Hd1 & Ht1 & Hg1) (d2 & t2 & Hd2 & Ht2 & Hg2).
  congruence.
Qed.

(** The comparison made for one table. *)
Lemma compare_recorded schema files :
  (let '(checksum, totalKvs, totalBytes) := Raw.fileStats files (0, 0, 0) in
   (Schema.Crc64Xor schema =? checksum)
   && (Schema.TotalKvs schema =? totalKvs)
   && (Schema.TotalBytes schema =? totalBytes)) = true
  <-> Spec.table_stats files = Spec.recorded schema.
Proof.
  rewrite fileStats_table_stats. unfold Spec.table_stats, Spec.recorded.
  rewrite !Bool.andb_true_iff, !Z.eqb_eq. split.
  - intros [[-> ->] ->]. reflexivity.
  - intros [= -> -> ->]. auto.
Qed.

(** One turn of the loop over the schemas, for a schema whose table is
    found. *)
Lemma FastChecksum_loop_cons dbs schema rest tbl :
  table_of dbs schema tbl ->
  FastChecksum_loop dbs (schema :: rest) =
    if decide (Spec.table_stats (Raw.TableFiles tbl) = Spec.recorded schema)
    then FastChecksum_loop dbs rest
    else Raw.Returned (false, None).
Proof.
  intros (dbInfo & tblInfo & Hd & Ht & Hg). cbn [Raw.FastChecksum_loop].
  rewrite Hd, Ht, Hg.
  pose proof (compare_recorded schema (Raw.TableFiles tbl)) as Hcmp.
  destruct (Raw.fileStats (Raw.TableFiles tbl) (0, 0, 0)) as [[checksum totalKvs] totalBytes].
  destruct ((Schema.Crc64Xor schema =? checksum)
            && (Schema.TotalKvs schema =? totalKvs)
            && (Schema.TotalBytes schema =? totalBytes)).
  - rewrite decide_True; [reflexivity | apply Hcmp; reflexivity].
  - rewrite decide_False; [reflexivity |].
    intros Heq. apply Hcmp in Heq. discriminate.
Qed.

(** The loop says [true] only after every table matched. *)
Lemma FastChecksum_loop_true dbs schemas :
  forall e, FastChecksum_loop dbs schemas = Raw.Returned (true, e) ->
            e = None /\ Forall (table_matches dbs) schemas.
Proof.
  induction schemas as [| schema rest IH]; intros e; cbn [Raw.FastChecksum_loop].
  - intros [= <-]. split; [reflexivity | constructor].
  - destruct (Unmarshal_DBInfo (Schema.Db schema)) as [err | dbInfo] eqn:Hd;
      [discriminate |].
    destruct (Unmarshal_TableInfo (Schema.Table schema)) as [err | tblInfo] eqn:Ht;
      [discriminate |].
    destruct (GetTable _ _) as [tbl |] eqn:Hg; [| discriminate].
    pose proof (compare_recorded schema (Raw.TableFiles tbl)) as Hcmp.
    destruct (Raw.fileStats (Raw.TableFiles tbl) (0, 0, 0))
      as [[checksum totalKvs] totalBytes].
    destruct ((Schema.Crc64Xor schema =? checksum)
              && (Schema.TotalKvs schema =? totalKvs)
              && (Schema.TotalBytes schema =? totalBytes)); [| discriminate].
    intros Hrest. apply IH in Hrest as [-> Hall]. split; [reflexivity |].
    constructor; [| exact Hall].
    exists tbl. split; [| apply Hcmp; reflexivity].
    exists dbInfo, tblInfo. auto.
Qed.

Lemma FastChecksum_loop_all_match dbs schemas :
  Forall (table_matches dbs) schemas ->
  FastChecksum_loop dbs schemas = Raw.Returned (true, None).
Proof.
  induction schemas as [| schema rest IH]; intros Hall; [reflexivity |].
  apply Forall_cons in Hall as [(tbl & Hof & Heq) Hrest].
  rewrite (FastChecksum_loop_cons dbs schema rest tbl Hof).
  rewrite decide_True by exact Heq. apply IH. exact Hrest.
Qed.

(** With every table loaded, a table that disagrees makes the loop return
    [false]. *)
Lemma FastChecksum_loop_disagreement dbs schemas :
  Forall (table_loaded dbs) schemas ->
  Exists (table_disagrees dbs) schemas ->
  exists e, FastChecksum_loop dbs schemas = Raw.Returned (false, e).
Proof.
  induction schemas as [| schema rest IH]; intros Hloaded Hbad.
  - apply Exists_nil in Hbad. contradiction.
  - apply Forall_cons in Hloaded as [Hl Hloaded].
    cbn [Raw.FastChecksum_loop].
    destruct (Unmarshal_DBInfo (Schema.Db schema)) as [err | dbInfo] eqn:Hd;
      [eexists; reflexivity |].
    destruct (Unmarshal_TableInfo (Schema.Table schema)) as [err | tblInfo] eqn:Ht;
      [eexists; reflexivity |].
    destruct (Hl dbInfo tblInfo Hd Ht) as [tbl Hg]. rewrite Hg.
    assert (Hof : table_of dbs schema tbl) by (exists dbInfo, tblInfo; auto).
    pose proof (compare_recorded schema (Raw.TableFiles tbl)) as Hcmp.
    destruct (Raw.fileStats (Raw.TableFiles tbl) (0, 0, 0))
      as [[checksum totalKvs] totalBytes].
    destruct ((Schema.Crc64Xor schema =? checksum)
              && (Schema.TotalKvs schema =? totalKvs)
              && (Schema.TotalBytes schema =? totalBytes));
      [| eexists; reflexivity].
    apply IH; [exact Hloaded |].
    apply Exists_cons in Hbad as [(tbl' & Hof' & Hne) | Hbad]; [| exact Hbad].
    rewrite (table_of_functional dbs schema tbl' tbl Hof' Hof) in Hne.
    exfalso. apply Hne, Hcmp. reflexivity.
Qed.

(** C4: with the tables loaded as [dbs], [FastChecksum] compares, for the
    schemas of the manifest in order, the xor of [Crc64Xor] and the 64-bit
    sums of [TotalKvs] and [TotalBytes] over the files of the schema's
    table with the triple recorded in the schema.  It returns [true] only
    when every table matches, it does return [true] then, and, every
    schema naming a loaded table, it returns [false] as soon as one table
    disagrees. *)
Theorem FastChecksum_sound bc dbs :
  LoadBackupTables (Raw.backupMeta bc) = inr dbs ->
  let schemas := BackupMeta.Schemas (Raw.backupMeta bc) in
  (forall e, FastChecksum bc = Raw.Returned (true, e) ->
             e = None /\ Forall (table_matches dbs) schemas) /\
  (Forall (table_matches dbs) schemas ->
     FastChecksum bc = Raw.Returned (true, None)) /\
  (Forall (table_loaded dbs) schemas ->
   Exists (table_disagrees dbs) schemas ->
     exists e, FastChecksum bc = Raw.Returned (false, e)).
Proof.
  intros Hload schemas. unfold Raw.FastChecksum. rewrite Hload. fold schemas.
  split; [| split].
  - apply FastChecksum_loop_true.
  - apply FastChecksum_loop_all_match.
  - apply FastChecksum_loop_disagreement.
Qed.

(** When the tables cannot be loaded the verdict is [false], with the
    error. *)
Lemma FastChecksum_load_error bc err :
  LoadBackupTables (Raw.backupMeta bc) = inl err ->
  FastChecksum bc = Raw.Returned (false, Some err).
Proof. intros Hload. unfold Raw.FastChecksum. rewrite Hload. reflexivity. Qed.

End Facts.

(** Two schemas for the table [shop.usertable], whose one file has
    checksum 17, 10 keys and 100 bytes: the first records that triple, the
    second records 11 keys. *)
Lemma FastChecksum_sound_witness :
  exists e,
    Raw.FastChecksum _ Scenario.load_tables Scenario.get_table Scenario.decode_db
      Scenario.decode_table
      (Scenario.client_with [Scenario.schema_usertable 17 10 100;
                             Scenario.schema_usertable 17 11 100])
    = Raw.Returned (false, e).
Proof.
  refine (proj2 (proj2 (FastChecksum_sound _ Scenario.load_tables
            Scenario.get_table Scenario.decode_db Scenario.decode_table
            (Scenario.client_with [Scenario.schema_usertable 17 10 100;
                                   Scenario.schema_usertable 17 11 100])
            Scenario.shop_tables eq_refl)) _ _).
  - repeat (apply Forall_cons; split); try apply Forall_nil_2;
      intros dbInfo tblInfo [= <-] [= <-]; eexists; vm_compute; reflexivity.
  - apply Exists_cons_tl, Exists_cons_hd.
    exists {| Raw.TableFiles := [Scenario.f1] |}. split.
    + eexists _, _. repeat split; vm_compute; reflexivity.
    + vm_compute. discriminate.
Defined.

End Verifier.

(** ** The command handlers *)

Module Handlers.

Import Go.

(** The [full] handler answers [nil] when the client cannot be built. *)
Lemma full_RunE_client_error w backer e :
  Cmd.GetDefaultBacker w = inr backer ->
  Cmd.NewBackupClient w = inl e ->
  Cmd.full_RunE w = inr tt.
Proof.
  intros Hb Hc. unfold Cmd.full_RunE. rewrite Hb. cbn [bind]. rewrite Hc.
  reflexivity.
Qed.

(** The [table] handler hands the same error on. *)
Lemma table_RunE_client_error w backer e :
  Cmd.GetDefaultBacker w = inr backer ->
  Cmd.NewBackupClient w = inl e ->
  Cmd.table_RunE w = inl e.
Proof.
  intros Hb Hc. unfold Cmd.table_RunE. rewrite Hb. cbn [bind]. rewrite Hc.
  reflexivity.
Qed.

(** A refusal of [SetStorage] ends the [full] handler before a timestamp
    is taken or a range is planned: its error is the result whatever the
    later calls would answer. *)
Lemma full_RunE_storage_refused w backer client u e :
  Cmd.GetDefaultBacker w = inr backer ->
  Cmd.NewBackupClient w = inr client ->
  Cmd.flag_storage w = inr u ->
  u <> "" ->
  Cmd.SetStorage w u = Some e ->
  Cmd.full_RunE w = inl e.
Proof.
  intros Hb Hc Hu Hne Hs. unfold Cmd.full_RunE.
  rewrite Hb. cbn [bind]. rewrite Hc, Hu. cbn [bind].
  rewrite decide_False by exact Hne. rewrite Hs. reflexivity.
Qed.

(** C8 on a run with the placement driver unreachable: [NewBackupClient]
    fails, the [full] handler returns [nil], and the [table] handler, on
    the same answers, returns the error. *)
Theorem full_RunE_swallows_client_error :
  Raw.NewBackupClient (inl "pd: context deadline exceeded") (inr tt) 1
    = inl "pd: context deadline exceeded"%string
  /\ Cmd.full_RunE Scenario.pd_down = inr tt
  /\ Cmd.table_RunE Scenario.pd_down = inl "pd: context deadline exceeded"%string.
Proof. repeat split. Qed.

End Handlers.

(** ** The client and its timestamp, further facts *)

Module Client.

Import Go.

(** X1: when the stores can be listed, [NewBackupClient] fails exactly
    when the session cannot be bootstrapped; otherwise the client carries
    the cluster id, an empty manifest and no request, and the checksum
    pool has eight workers per store, 100 at most. *)
Theorem NewBackupClient_pool_size pd_GetAllStores BootstrapSession GetClusterID
    stores :
  pd_GetAllStores = inr stores ->
  Z.of_nat (length stores) * 8 < 2 ^ 64 ->
  match BootstrapSession with
  | inl err =>
      Raw.NewBackupClient pd_GetAllStores BootstrapSession GetClusterID = inl err
  | inr _ =>
      Raw.NewBackupClient pd_GetAllStores BootstrapSession GetClusterID
      = inr ({| Raw.clusterID := GetClusterID;
                Raw.backupMeta := BackupMeta.zero;
                Raw.issued := [] |},
             Z.min 100 (8 * Z.of_nat (length stores)))
  end.
Proof.
  intros -> Hlen. unfold Raw.NewBackupClient. cbn [bind].
  destruct BootstrapSession as [err | dom]; cbn [bind]; [reflexivity |].
  unfold uint64. rewrite Z.mod_small by lia.
  destruct (Z.ltb_spec 100 (Z.of_nat (length stores) * 8));
    unfold ok; do 2 f_equal; lia.
Qed.

(** Three stores: a pool of 24 workers. *)
Lemma NewBackupClient_pool_size_witness :
  Raw.NewBackupClient (inr Cases.three_stores) (inr tt) 7
  = inr ({| Raw.clusterID := 7; Raw.backupMeta := BackupMeta.zero;
            Raw.issued := [] |}, 24).
Proof.
  refine (NewBackupClient_pool_size (inr Cases.three_stores) (inr tt) 7
            Cases.three_stores eq_refl _).
  vm_compute. reflexivity.
Defined.

Section Facts.
Variable pd_GetTS : res (Z * Z).
Variable ParseDuration : string -> res Z.
Variable GetGCSafePoint : res Meta.Timestamp.

Local Abbreviation GetTS := (Raw.GetTS pd_GetTS ParseDuration GetGCSafePoint).

(** X2: [GetTS] looks the safepoint up exactly when [timeAgo] is not
    empty, the placement driver has answered and the duration has
    parsed. *)
Theorem GetTS_consults_safepoint_iff timeAgo :
  Raw.CallGetGCSafePoint ∈ fst (GetTS timeAgo) <->
  timeAgo <> "" /\ Is_true (is_ok pd_GetTS) /\
  Is_true (is_ok (ParseDuration timeAgo)).
Proof.
  unfold Raw.GetTS.
  destruct pd_GetTS as [e | [p l]]; cbn [fst is_ok].
  { rewrite list_elem_of_singleton.
    split; [discriminate | intros (_ & [] & _)]. }
  destruct (decide (timeAgo = "")) as [Heq | Hne]; cbn [fst].
  { rewrite list_elem_of_singleton.
    split; [discriminate | intros (Hne & _); contradiction]. }
  destruct (ParseDuration timeAgo) as [e | d]; cbn [fst is_ok].
  { split; [| intros (_ & _ & [])]. intros Hin.
    repeat (apply elem_of_cons in Hin as [Hin | Hin]; [discriminate |]).
    apply elem_of_nil in Hin. contradiction. }
  split; [intros _; repeat split; exact Hne |]. intros _.
  destruct GetGCSafePoint as [e | sp];
    [| destruct (_ <? _)]; cbn [fst];
    rewrite !elem_of_cons; auto.
Qed.

(** X3: for a non-empty [timeAgo], [GetTS] returns a timestamp exactly
    when the placement driver, the parser and the safepoint lookup all
    answer and the physical time less the duration in milliseconds is not
    below the safepoint's physical time; the timestamp encodes that
    difference with the driver's logical counter. *)
Theorem GetTS_timeago_returns_iff timeAgo ts :
  timeAgo <> "" ->
  (snd (GetTS timeAgo) = inr ts <->
   exists p l d sp,
     pd_GetTS = inr (p, l) /\ ParseDuration timeAgo = inr d /\
     GetGCSafePoint = inr sp /\
     Meta.Physical sp <= int64 (p - Z.quot d Raw.Millisecond) /\
     ts = Meta.EncodeTs {| Meta.Physical := int64 (p - Z.quot d Raw.Millisecond);
                           Meta.Logical := l |}).
Proof.
  intros Hne. split.
  - unfold Raw.GetTS.
    destruct pd_GetTS as [e | [p l]]; [discriminate |].
    destruct (decide (timeAgo = "")) as [-> | _]; [congruence |].
    destruct (ParseDuration timeAgo) as [e | d] eqn:Hd; [discriminate |].
    destruct GetGCSafePoint as [e | sp]; [discriminate |].
    destruct (Z.ltb_spec (int64 (p - Z.quot d Raw.Millisecond)) (Meta.Physical sp))
      as [Hlt | Hge]; cbn [snd]; [discriminate |].
    intros [= <-]. exists p, l, d, sp. repeat split; auto.
  - intros (p & l & d & sp & Hpd & Hd & Hsp & Hge & ->).
    unfold Raw.GetTS. rewrite Hpd, Hd, Hsp.
    destruct (decide (timeAgo = "")) as [-> | _]; [congruence |].
    destruct (Z.ltb_spec (int64 (p - Z.quot d Raw.Millisecond)) (Meta.Physical sp));
      [lia | reflexivity].
Qed.

End Facts.

(** Physical time 1000, 100 ms back, safepoint at 900. *)
Lemma GetTS_timeago_returns_iff_witness :
  exists p l d sp,
    Scenario.pd_now = inr (p, l) /\ Scenario.parse_100ms "100ms" = inr d /\
    Scenario.safePoint_900 = inr sp /\
    Meta.Physical sp <= int64 (p - Z.quot d Raw.Millisecond) /\
    235929607 = Meta.EncodeTs {| Meta.Physical := int64 (p - Z.quot d Raw.Millisecond);
                                 Meta.Logical := l |}.
Proof.
  refine (proj1 (GetTS_timeago_returns_iff Scenario.pd_now Scenario.parse_100ms
                   Scenario.safePoint_900 "100ms" 235929607 _) eq_refl).
  discriminate.
Defined.

(** X4: the classifier never asks for a negative back-off; when it
    returns an error it returns no response and no back-off, and when it
    returns a response it returns neither a back-off nor an error. *)
Theorem onBackupResponse_exclusive ResolveLocks resp :
  let '(response, backoffMs, err) := Raw.onBackupResponse ResolveLocks resp in
  0 <= backoffMs /\
  (is_Some err -> response = None /\ backoffMs = 0) /\
  (is_Some response -> backoffMs = 0 /\ err = None).
Proof.
  assert (Hshape : forall (response : option BackupResponse.t) ms (err : option error),
            0 <= ms ->
            (err = None \/ (response = None /\ ms = 0)) ->
            (response = None \/ (ms = 0 /\ err = None)) ->
            0 <= ms /\
            (is_Some err -> response = None /\ ms = 0) /\
            (is_Some response -> ms = 0 /\ err = None)).
  { intros response ms err Hms He Hr. split; [exact Hms |]. split.
    - intros [e ->]. destruct He as [[=] | He]; exact He.
    - intros [r ->]. destruct Hr as [[=] | Hr]; exact Hr. }
  unfold Raw.onBackupResponse.
  destruct (BackupResponse.Error resp) as [respError |];
    [| apply Hshape; [lia | auto | auto]].
  destruct (BackupError.Detail respError) as [[? ? | v | regionErr] |];
    try (apply Hshape; [lia | auto | auto]).
  - destruct (Kvrpcpb.Locked v) as [lockErr |];
      [| apply Hshape; [lia | auto | auto]].
    destruct (ResolveLocks lockErr) as [err1 | ms];
      [apply Hshape; [lia | auto | auto] |].
    destruct (Z.ltb_spec 0 ms); apply Hshape; auto; lia.
  - destruct (negb _); apply Hshape; auto; lia.
Qed.

End Client.

(** ** The fine-grained retry engine, further facts *)

Module RetryMore.

Import Go.

Section Facts.
Context {RangeTree : Type}.
Variable c : Raw.Cluster RangeTree.

Lemma findRegionLeader_loop_found n :
  forall i0 key leader,
    Raw.findRegionLeader_loop c n i0 key = inr leader <->
    exists i, (i0 <= i < i0 + n)%nat /\
              Raw.GetRegion c i key = inr (Some leader) /\
              forall j, (i0 <= j < i)%nat -> ~ Laws.has_leader c j key.
Proof.
  induction n as [| n IH]; intros i0 key leader; cbn [Raw.findRegionLeader_loop].
  - split; [discriminate |]. intros (i & Hi & _). lia.
  - destruct (Raw.GetRegion c i0 key) as [e | [p |]] eqn:Hget.
    + rewrite IH. split.
      * intros (i & Hi & Hfound & Hfirst). exists i. repeat split; [lia .. | exact Hfound |].
        intros j Hj. destruct (decide (j = i0)) as [-> | Hne].
        -- intros [q Hq]. congruence.
        -- apply Hfirst. lia.
      * intros (i & Hi & Hfound & Hfirst).
        assert (i <> i0) by (intros ->; congruence).
        exists i. repeat split; [lia .. | exact Hfound |].
        intros j Hj. apply Hfirst. lia.
    + split.
      * intros [= ->]. exists i0. repeat split; [lia .. | exact Hget |].
        intros j Hj. lia.
      * intros (i & Hi & Hfound & Hfirst).
        destruct (decide (i = i0)) as [-> | Hne]; [unfold ok; congruence |].
        exfalso. apply (Hfirst i0); [lia |]. exists p. exact Hget.
    + rewrite IH. split.
      * intros (i & Hi & Hfound & Hfirst). exists i. repeat split; [lia .. | exact Hfound |].
        intros j Hj. destruct (decide (j = i0)) as [-> | Hne].
        -- intros [q Hq]. congruence.
        -- apply Hfirst. lia.
      * intros (i & Hi & Hfound & Hfirst).
        assert (i <> i0) by (intros ->; congruence).
        exists i. repeat split; [lia .. | exact Hfound |].
        intros j Hj. apply Hfirst. lia.
Qed.

Lemma findRegionLeader_loop_none n :
  forall i0 key e,
    Raw.findRegionLeader_loop c n i0 key = inl e ->
    forall i, (i0 <= i < i0 + n)%nat -> ~ Laws.has_leader c i key.
Proof.
  induction n as [| n IH]; intros i0 key e; cbn [Raw.findRegionLeader_loop];
    [intros _ i Hi; lia |].
  destruct (Raw.GetRegion c i0 key) as [e0 | [p |]] eqn:Hget;
    [| discriminate |];
    intros Hloop i Hi;
    (destruct (decide (i = i0)) as [-> | Hne];
     [intros [q Hq]; congruence | apply (IH (S i0) key e Hloop); lia]).
Qed.

(** X5: [findRegionLeader] asks the placement driver for the encoded key
    at most five times and returns the leader of the first attempt that
    reports one, passing over the attempts that fail or report none; it
    fails exactly when none of the five attempts reports a leader. *)
Theorem findRegionLeader_first_leader key :
  (forall leader,
     Raw.findRegionLeader c key = inr leader <->
     exists i, (i < 5)%nat /\
               Raw.GetRegion c i (Raw.EncodeBytes c key) = inr (Some leader) /\
               forall j, (j < i)%nat ->
                         ~ Laws.has_leader c j (Raw.EncodeBytes c key)) /\
  (Is_true (negb (is_ok (Raw.findRegionLeader c key))) <->
   forall i, (i < 5)%nat -> ~ Laws.has_leader c i (Raw.EncodeBytes c key)).
Proof.
  unfold Raw.findRegionLeader.
  set (enc := Raw.EncodeBytes c key).
  assert (Hfound : forall leader,
            Raw.findRegionLeader_loop c 5 0 enc = inr leader <->
            exists i, (i < 5)%nat /\ Raw.GetRegion c i enc = inr (Some leader) /\
                      forall j, (j < i)%nat -> ~ Laws.has_leader c j enc).
  { intros leader. rewrite findRegionLeader_loop_found. split.
    - intros (i & Hi & Hf & Hfirst). exists i. repeat split; [lia | exact Hf |].
      intros j Hj. apply Hfirst. lia.
    - intros (i & Hi & Hf & Hfirst). exists i. repeat split; [lia .. | exact Hf |].
      intros j Hj. apply Hfirst. lia. }
  split; [exact Hfound |].
  destruct (Raw.findRegionLeader_loop c 5 0 enc) as [e | leader] eqn:Hloop;
    cbn [is_ok negb Is_true].
  - split; [| tauto]. intros _ i Hi.
    apply (findRegionLeader_loop_none 5 0%nat enc e Hloop). lia.
  - split; [tauto |]. intros Hnone.
    destruct (proj1 (Hfound leader) eq_refl) as (i & Hi & Hf & _).
    apply (Hnone i Hi). exists leader. exact Hf.
Qed.

(** X6: when none of the five attempts finds a leader for the start key
    of the range, [handleFineGrained] fails without sending a request and
    without putting a response on the channel. *)
Theorem handleFineGrained_without_leader bc rg backupTS path rateLimit
    concurrency :
  (forall i, (i < 5)%nat ->
             ~ Laws.has_leader c i (Raw.EncodeBytes c (Raw.StartKey rg))) ->
  let r := Raw.handleFineGrained c bc rg backupTS path rateLimit concurrency in
  Raw.fg_requests r = [] /\ Raw.fg_respCh r = [] /\ Raw.fg_backoffMs r = 0 /\
  is_Some (Raw.fg_err r).
Proof.
  intros Hnone. unfold Raw.handleFineGrained.
  destruct (Raw.findRegionLeader c (Raw.StartKey rg)) as [pderr | leader] eqn:Hfind.
  - cbn. repeat split. eexists. reflexivity.
  - exfalso. unfold Raw.findRegionLeader in Hfind.
    apply findRegionLeader_loop_found in Hfind as (i & Hi & Hf & _).
    apply (Hnone i); [lia |]. exists leader. exact Hf.
Qed.

(** On error-free frames the callback keeps the back-off at zero and puts
    every frame on the channel. *)
Lemma SendBackup_frames_clean ResolveLocks frames last :
  forall respCh,
    Forall Spec.clean frames ->
    Raw.SendBackup_frames frames last (Raw.respFn ResolveLocks) (0, respCh)
    = ((0, respCh ++ frames), last).
Proof.
  induction frames as [| resp frames IH]; intros respCh Hclean;
    cbn [Raw.SendBackup_frames].
  - rewrite app_nil_r. reflexivity.
  - apply Forall_cons in Hclean as [Hresp Hrest].
    unfold Raw.respFn at 1, Raw.onBackupResponse.
    unfold Spec.clean in Hresp. rewrite Hresp. cbn.
    rewrite IH by exact Hrest. rewrite <- app_assoc. reflexivity.
Qed.

(** X7: when the leader's store streams error-free frames only,
    [handleFineGrained] sends one request for the range to that store,
    puts every frame on the channel in the order received, asks for no
    back-off, and ends as the stream does. *)
Theorem handleFineGrained_clean_stream bc rg backupTS path rateLimit concurrency
    leader frames last :
  Raw.findRegionLeader c (Raw.StartKey rg) = inr leader ->
  let req :=
    {| BackupRequest.ClusterId := Raw.clusterID bc;
       BackupRequest.StartKey := Raw.StartKey rg;
       BackupRequest.EndKey := Raw.EndKey rg;
       BackupRequest.StartVersion := backupTS;
       BackupRequest.EndVersion := backupTS;
       BackupRequest.Path := path;
       BackupRequest.RateLimit := rateLimit;
       BackupRequest.Concurrency := concurrency |} in
  Raw.Backup c (Raw.StoreId leader) req = (frames, last) ->
  Forall Spec.clean frames ->
  Raw.handleFineGrained c bc rg backupTS path rateLimit concurrency
  = {| Raw.fg_requests := [req]; Raw.fg_respCh := frames;
       Raw.fg_backoffMs := 0; Raw.fg_err := last |}.
Proof.
  intros Hleader req Hstream Hclean. unfold Raw.handleFineGrained.
  rewrite Hleader. unfold Raw.SendBackup. fold req. rewrite Hstream.
  rewrite SendBackup_frames_clean by exact Hclean. cbn [app].
  destruct last; reflexivity.
Qed.

Lemma hint_region_retry ResolveLocks resp :
  Laws.region_retry resp -> Laws.hint ResolveLocks resp = 1000.
Proof.
  intros (respError & regionErr & Herr & Hdetail & Hretry).
  unfold Laws.hint, Raw.onBackupResponse. rewrite Herr, Hdetail.
  apply Classifier.retryable_test in Hretry. rewrite Hretry. reflexivity.
Qed.

(** The back-off asked for is never negative. *)
Lemma hint_nonneg ResolveLocks resp : 0 <= Laws.hint ResolveLocks resp.
Proof.
  unfold Laws.hint, Raw.onBackupResponse.
  destruct (BackupResponse.Error resp) as [respError |]; [| cbn; lia].
  destruct (BackupError.Detail respError) as [[? ? | v | regionErr] |];
    try (cbn; lia).
  - destruct (Kvrpcpb.Locked v) as [lockErr |]; [| cbn; lia].
    destruct (ResolveLocks lockErr) as [e | ms]; [cbn; lia |].
    cbn. destruct (Z.ltb_spec 0 ms); lia.
  - match goal with |- context [if ?b then _ else _] => destruct b end; cbn; lia.
Qed.

Lemma largest_hint_nonneg ResolveLocks frames :
  0 <= Laws.largest_hint ResolveLocks frames.
Proof.
  unfold Laws.largest_hint.
  induction frames as [| resp frames IH]; cbn [foldr]; lia.
Qed.

(** The classifier hands back the response exactly when it carries no
    error. *)
Lemma onBackupResponse_forwards ResolveLocks resp :
  Laws.survivable ResolveLocks resp ->
  fst (fst (Raw.onBackupResponse ResolveLocks resp))
  = if Go.is_Some_b (BackupResponse.Error resp) then None else Some resp.
Proof.
  unfold Laws.survivable, Raw.onBackupResponse.
  destruct (BackupResponse.Error resp) as [respError |]; [| reflexivity].
  cbn [Go.is_Some_b].
  destruct (BackupError.Detail respError) as [[? ? | v | regionErr] |];
    try reflexivity.
  - destruct (Kvrpcpb.Locked v) as [lockErr |]; [| reflexivity].
    destruct (ResolveLocks lockErr); reflexivity.
  - match goal with |- context [if ?b then _ else _] => destruct b end; reflexivity.
Qed.

(** On frames the classifier does not fail on, the callback ends with
    the largest back-off asked for, having put the error-free frames on
    the channel. *)
Lemma SendBackup_frames_survivable ResolveLocks frames last :
  forall max respCh,
    0 <= max ->
    Forall (Laws.survivable ResolveLocks) frames ->
    Raw.SendBackup_frames frames last (Raw.respFn ResolveLocks) (max, respCh)
    = ((Z.max max (Laws.largest_hint ResolveLocks frames),
        respCh ++ Laws.error_free frames), last).
Proof.
  induction frames as [| resp frames IH]; intros max respCh Hmax Hok;
    cbn [Raw.SendBackup_frames Laws.largest_hint Laws.error_free List.filter foldr].
  - rewrite app_nil_r. do 2 f_equal. lia.
  - apply Forall_cons in Hok as [Hresp Hrest].
    pose proof (onBackupResponse_forwards ResolveLocks resp Hresp) as Hfwd.
    pose proof (hint_nonneg ResolveLocks resp) as Hh.
    pose proof (largest_hint_nonneg ResolveLocks frames) as Hl.
    assert (Hstep :
              Raw.respFn ResolveLocks (max, respCh) resp
              = ((Z.max max (Laws.hint ResolveLocks resp),
                  respCh ++ (if Go.is_Some_b (BackupResponse.Error resp)
                             then [] else [resp])), None)).
    { unfold Raw.respFn, Laws.hint, Laws.survivable in *.
      destruct (Raw.onBackupResponse ResolveLocks resp) as [[response backoffMs] err].
      cbn [fst snd] in *. subst err response.
      destruct (Go.is_Some_b (BackupResponse.Error resp));
        rewrite ?app_nil_r; (do 2 f_equal);
        destruct (Z.ltb_spec max backoffMs); lia. }
    rewrite Hstep, IH by (assumption || lia).
    fold (Laws.largest_hint ResolveLocks frames). fold (Laws.error_free frames).
    destruct (Go.is_Some_b (BackupResponse.Error resp)); cbn [negb];
      rewrite <- ?app_assoc, ?app_nil_r; (do 2 f_equal); cbn [app]; try lia;
      reflexivity.
Qed.

(** X8: when the classifier fails on no frame of the stream, the stream
    ends without a transport error and one frame carries a region error of
    the retried kind, [handleFineGrained] returns no error and, as its
    back-off, the largest back-off the classifier has asked for over the
    frames of the stream, which is 1000 ms at least; the frames it has put
    on the channel are those that carry no error, in order. *)
Theorem handleFineGrained_region_retry_backoff bc rg backupTS path rateLimit
    concurrency leader frames :
  Raw.findRegionLeader c (Raw.StartKey rg) = inr leader ->
  Raw.Backup c (Raw.StoreId leader)
    {| BackupRequest.ClusterId := Raw.clusterID bc;
       BackupRequest.StartKey := Raw.StartKey rg;
       BackupRequest.EndKey := Raw.EndKey rg;
       BackupRequest.StartVersion := backupTS;
       BackupRequest.EndVersion := backupTS;
       BackupRequest.Path := path;
       BackupRequest.RateLimit := rateLimit;
       BackupRequest.Concurrency := concurrency |} = (frames, None) ->
  Forall (Laws.survivable (Raw.ResolveLocks c)) frames ->
  Exists Laws.region_retry frames ->
  let r := Raw.handleFineGrained c bc rg backupTS path rateLimit concurrency in
  Raw.fg_err r = None /\
  Raw.fg_backoffMs r = Laws.largest_hint (Raw.ResolveLocks c) frames /\
  1000 <= Raw.fg_backoffMs r /\
  Raw.fg_respCh r = Laws.error_free frames.
Proof.
  intros Hleader Hstream Hok Hretry. unfold Raw.handleFineGrained.
  rewrite Hleader. unfold Raw.SendBackup. rewrite Hstream.
  rewrite SendBackup_frames_survivable by (assumption || lia).
  pose proof (largest_hint_nonneg (Raw.ResolveLocks c) frames) as Hl.
  cbn [Raw.fg_err Raw.fg_backoffMs Raw.fg_respCh app].
  rewrite Z.max_r by exact Hl.
  split; [reflexivity |]. split; [reflexivity |]. split; [| reflexivity].
  clear Hstream Hok Hl. induction Hretry as [resp frames Hr | resp frames _ IH];
    cbn [Laws.largest_hint foldr].
  - rewrite (hint_region_retry (Raw.ResolveLocks c) resp Hr). lia.
  - fold (Laws.largest_hint (Raw.ResolveLocks c) frames). lia.
Qed.

(** X9: [fineGrainedBackup] returns [nil] only with a tree that leaves no
    part of the range incomplete. *)
Theorem fineGrainedBackup_success_is_complete rounds :
  forall n bc startKey endKey backupTS path rateLimit concurrency rangeTree reqs
         reqs' rangeTree',
    Raw.fineGrainedBackup c rounds n bc startKey endKey backupTS path rateLimit
                          concurrency rangeTree reqs
    = (reqs', rangeTree', Raw.Returned None) ->
    Raw.getIncompleteRange c rangeTree' startKey endKey = [].
Proof.
  induction rounds as [| rounds IH];
    intros n bc startKey endKey backupTS path rateLimit concurrency rangeTree reqs
           reqs' rangeTree'; cbn [Raw.fineGrainedBackup]; [discriminate |].
  destruct (Raw.getIncompleteRange c rangeTree startKey endKey)
    as [| rg incomplete] eqn:Hinc.
  { intros [= <- <-]. exact Hinc. }
  destruct (Raw.workers c bc (rg :: incomplete) backupTS path rateLimit
              concurrency reqs [] 0) as [[[reqs1 respCh] ms] err].
  destruct (Raw.selectLoop c rangeTree respCh) as [tree1 |]; [| discriminate].
  destruct err as [e |]; [discriminate |].
  destruct (negb (ms =? 0)).
  - destruct (Raw.BackoffWithMaxSleep c n ms) as [e |]; [discriminate |].
    apply IH.
  - apply IH.
Qed.

End Facts.

(** No leader anywhere: nothing is sent. *)
Lemma handleFineGrained_without_leader_witness :
  let r := Raw.handleFineGrained Cases.leaderless Scenario.fresh_client
             Scenario.table_100 77 "local:///backup" 0 4 in
  Raw.fg_requests r = [] /\ Raw.fg_respCh r = [] /\ Raw.fg_backoffMs r = 0 /\
  is_Some (Raw.fg_err r).
Proof.
  apply (handleFineGrained_without_leader Cases.leaderless Scenario.fresh_client
           Scenario.table_100 77 "local:///backup" 0 4).
  intros i _ [leader Hleader]. discriminate Hleader.
Defined.

(** The one-store cluster answers the range with one error-free frame. *)
Lemma handleFineGrained_clean_stream_witness :
  Raw.fg_respCh (Raw.handleFineGrained Scenario.one_store Scenario.fresh_client
                   Scenario.table_100 77 "local:///backup" 0 4)
  = [Cases.clean_response].
Proof.
  rewrite (handleFineGrained_clean_stream Scenario.one_store Scenario.fresh_client
             Scenario.table_100 77 "local:///backup" 0 4
             {| Raw.PeerId := 1; Raw.StoreId := 1 |} [Cases.clean_response] None
             eq_refl eq_refl).
  - reflexivity.
  - apply Forall_singleton. reflexivity.
Defined.

(** A lock that expires in 500 ms, a busy store, then the answer: the
    back-off is the larger of the two, a second, and the answer alone is
    put on the channel. *)
Lemma handleFineGrained_region_retry_backoff_witness :
  let r := Raw.handleFineGrained Cases.contended_store Scenario.fresh_client
             Scenario.table_100 77 "local:///backup" 0 4 in
  Raw.fg_err r = None /\ Raw.fg_backoffMs r = 1000 /\ 1000 <= Raw.fg_backoffMs r /\
  Raw.fg_respCh r = [Cases.clean_response].
Proof.
  apply (handleFineGrained_region_retry_backoff Cases.contended_store
           Scenario.fresh_client Scenario.table_100 77 "local:///backup" 0 4
           {| Raw.PeerId := 1; Raw.StoreId := 1 |}
           [Scenario.locked_response; Cases.busy_response; Cases.clean_response]
           eq_refl eq_refl).
  - repeat constructor.
  - apply Exists_cons_tl, Exists_cons_hd. eexists _, _. split; [reflexivity |].
    split; [reflexivity |].
    unfold Spec.retryable. cbn. do 3 right. left. eexists. reflexivity.
Defined.

(** One round fills the range of the one-store cluster. *)
Lemma fineGrainedBackup_success_is_complete_witness :
  exists tree,
    snd (fst (Raw.fineGrainedBackup Scenario.one_store 5 0 Scenario.fresh_client
                (Raw.StartKey Scenario.table_100) (Raw.EndKey Scenario.table_100)
                77 "local:///backup" 0 4 [] [])) = tree /\
    Raw.getIncompleteRange Scenario.one_store tree
      (Raw.StartKey Scenario.table_100) (Raw.EndKey Scenario.table_100) = [].
Proof.
  eexists. split; [reflexivity |].
  eapply (fineGrainedBackup_success_is_complete Scenario.one_store 5 0
            Scenario.fresh_client (Raw.StartKey Scenario.table_100)
            (Raw.EndKey Scenario.table_100) 77 "local:///backup" 0 4 [] []).
  vm_compute. reflexivity.
Defined.

End RetryMore.

(** ** The range pipeline, further facts *)

Module PipelineMore.

Import Go.

Section Facts.
Context {RangeTree : Type}.
Variable c : Raw.Cluster RangeTree.
Variable rounds : nat.

(** *** The parameters of the requests *)

Lemma handleFineGrained_job bc rg backupTS path rateLimit concurrency :
  Forall (Laws.job_request (Raw.clusterID bc) path rateLimit concurrency backupTS)
    (Raw.fg_requests
       (Raw.handleFineGrained c bc rg backupTS path rateLimit concurrency)).
Proof.
  unfold Raw.handleFineGrained.
  destruct (Raw.findRegionLeader c (Raw.StartKey rg)) as [pderr | leader];
    [constructor |].
  match goal with |- context [Raw.SendBackup ?a ?b ?d ?e ?f] =>
    destruct (Raw.SendBackup a b d e f) as [[max respCh] [err |]] end;
    cbn [Raw.fg_requests]; apply Forall_singleton; repeat split.
Qed.

Lemma workers_job bc incomplete backupTS path rateLimit concurrency :
  forall reqs respCh ms,
    Forall (Laws.job_request (Raw.clusterID bc) path rateLimit concurrency backupTS)
           reqs ->
    Forall (Laws.job_request (Raw.clusterID bc) path rateLimit concurrency backupTS)
      (fst (fst (fst (Raw.workers c bc incomplete backupTS path rateLimit
                        concurrency reqs respCh ms)))).
Proof.
  induction incomplete as [| rg rest IH]; intros reqs respCh ms Hreqs;
    cbn [Raw.workers]; [assumption |].
  pose proof (handleFineGrained_job bc rg backupTS path rateLimit concurrency) as Hr.
  destruct (Raw.fg_err (Raw.handleFineGrained c bc rg backupTS path rateLimit
                          concurrency)).
  - cbn [fst snd]. apply Forall_app. split; assumption.
  - apply IH. apply Forall_app. split; assumption.
Qed.

Lemma fineGrainedBackup_job n0 :
  forall n bc startKey endKey backupTS path rateLimit concurrency rangeTree reqs,
    Forall (Laws.job_request (Raw.clusterID bc) path rateLimit concurrency backupTS)
           reqs ->
    Forall (Laws.job_request (Raw.clusterID bc) path rateLimit concurrency backupTS)
      (fst (fst (Raw.fineGrainedBackup c n0 n bc startKey endKey backupTS path
                   rateLimit concurrency rangeTree reqs))).
Proof.
  induction n0 as [| n0 IH];
    intros n bc startKey endKey backupTS path rateLimit concurrency rangeTree reqs
           Hreqs; cbn [Raw.fineGrainedBackup]; [exact Hreqs |].
  destruct (Raw.getIncompleteRange c rangeTree startKey endKey)
    as [| rg incomplete]; [exact Hreqs |].
  pose proof (workers_job bc (rg :: incomplete) backupTS path rateLimit concurrency
                reqs [] 0 Hreqs) as Hw.
  destruct (Raw.workers c bc (rg :: incomplete) backupTS path rateLimit
              concurrency reqs [] 0) as [[[reqs1 respCh] ms] err].
  cbn [fst snd] in Hw.
  destruct (Raw.selectLoop c rangeTree respCh) as [tree1 |]; [| exact Hw].
  destruct err as [e |]; [exact Hw |].
  destruct (negb (ms =? 0)).
  - destruct (Raw.BackoffWithMaxSleep c n ms) as [e |]; [exact Hw |].
    apply IH. exact Hw.
  - apply IH. exact Hw.
Qed.

(** What [backupRange] does to the client: the cluster id and the header
    of the manifest stay, files are only added, the versions and the files
    change on success only, and the requests it adds are those of the
    job. *)
Lemma backupRange_effect bc startKey endKey path backupTS rateMBs concurrency :
  let P := Laws.job_request (Raw.clusterID bc) path
             (uint64 (rateMBs * 1024 * 1024)) concurrency backupTS in
  let r := Raw.backupRange c rounds bc startKey endKey path backupTS rateMBs
                           concurrency in
  Raw.clusterID (fst r) = Raw.clusterID bc /\
  Laws.manifest_header (Raw.backupMeta (fst r))
    = Laws.manifest_header (Raw.backupMeta bc) /\
  (exists files,
     BackupMeta.Files (Raw.backupMeta (fst r))
     = BackupMeta.Files (Raw.backupMeta bc) ++ files /\
     match snd r with
     | Raw.Returned None =>
         Raw.backupMeta (fst r)
         = Raw.append_files (Raw.set_versions (Raw.backupMeta bc) backupTS) files
     | Raw.Returned (Some _) | Raw.Running =>
         Raw.backupMeta (fst r) = Raw.backupMeta bc
     | Raw.Exited | Raw.Panicked => True
     end) /\
  (Forall P (Raw.issued bc) -> Forall P (Raw.issued (fst r))).
Proof.
  intros P. unfold Raw.backupRange.
  destruct (Raw.GetAllStores c) as [err | allStores].
  { cbn. split; [reflexivity |]. split; [reflexivity |].
    split; [exists []; rewrite app_nil_r; auto | auto]. }
  match goal with |- context [Raw.pushBackup c ?r ?st] =>
    set (req := r);
    assert (Hreq : Forall P (Raw.issued bc) -> Forall P (Raw.issued bc ++ [req]))
      by (intros Hbc; apply Forall_app; split;
          [exact Hbc | apply Forall_singleton; repeat split]);
    destruct (Raw.pushBackup c req st) as [err | results]
  end.
  { cbn. split; [reflexivity |]. split; [reflexivity |].
    split; [exists []; rewrite app_nil_r; auto | exact Hreq]. }
  match goal with |- context [Raw.fineGrainedBackup c rounds ?n ?b ?s ?e ?ts ?p ?rl ?cc ?t ?rq] =>
    pose proof (fineGrainedBackup_job rounds n b s e ts p rl cc t rq) as Hfg;
    destruct (Raw.fineGrainedBackup c rounds n b s e ts p rl cc t rq)
      as [[reqs tree] [[err |] | | |]]
  end; cbn [fst snd Raw.set_issued Raw.clusterID Raw.issued] in Hfg;
    try (cbn; split; [reflexivity |]; split; [reflexivity |];
         split; [exists []; rewrite app_nil_r; auto | auto]).
  destruct (Raw.checkDupFiles c tree); cbn;
    (split; [reflexivity |]; split; [reflexivity |];
     split; [eexists; split; reflexivity | auto]).
Qed.

(** X10: every request [backupRange] adds, the push-down request and the
    fine-grained ones, carries the client's cluster id, the path, the rate
    limit in bytes per second (the limit given in MiB times 2^20, as a
    64-bit value), the concurrency and the snapshot timestamp. *)
Theorem backupRange_requests_of_job bc startKey endKey path backupTS rateMBs
    concurrency :
  Raw.issued bc = [] ->
  Forall (Laws.job_request (Raw.clusterID bc) path
            (uint64 (rateMBs * 1024 * 1024)) concurrency backupTS)
    (Raw.issued (fst (Raw.backupRange c rounds bc startKey endKey path backupTS
                        rateMBs concurrency))).
Proof.
  intros Hempty.
  apply (backupRange_effect bc startKey endKey path backupTS rateMBs concurrency).
  rewrite Hempty. constructor.
Qed.

(** X11: [backupRange] touches the manifest only when the range is done:
    when it returns an error the manifest is what it was; when it returns
    [nil] the manifest records [backupTS] as both versions and has gained
    files at its end, nothing else having changed. *)
Theorem backupRange_manifest bc startKey endKey path backupTS rateMBs concurrency :
  let r := Raw.backupRange c rounds bc startKey endKey path backupTS rateMBs
                           concurrency in
  match snd r with
  | Raw.Returned (Some _) => Raw.backupMeta (fst r) = Raw.backupMeta bc
  | Raw.Returned None =>
      exists files,
        Raw.backupMeta (fst r)
        = Raw.append_files (Raw.set_versions (Raw.backupMeta bc) backupTS) files
  | _ => True
  end.
Proof.
  intros r.
  destruct (backupRange_effect bc startKey endKey path backupTS rateMBs concurrency)
    as (_ & _ & (files & _ & Hcase) & _).
  fold r in Hcase.
  destruct (snd r) as [[e |] | | |]; auto. exists files. exact Hcase.
Qed.

(** Two results of one call agree. *)
Local Ltac same_call :=
  match goal with
  | H1 : ?f = (_, _), H2 : ?f = (_, _) |- _ =>
      rewrite H1 in H2; simplify_eq
  end.

(** The report of the pipeline, by the calls of [backupRange] behind it. *)
Lemma backupRanges_worker_calls ranges :
  forall bc path backupTS rate concurrency bc' o,
    Raw.backupRanges_worker c rounds bc ranges path backupTS rate concurrency
    = (bc', o) <->
    match o with
    | Raw.Returned None =>
        Laws.backed_up c rounds path backupTS rate concurrency bc ranges bc'
    | _ =>
        exists done r rest bc1,
          ranges = done ++ r :: rest /\
          Laws.backed_up c rounds path backupTS rate concurrency bc done bc1 /\
          Raw.backupRange c rounds bc1 (Raw.StartKey r) (Raw.EndKey r) path
                          backupTS rate concurrency = (bc', o)
    end.
Proof.
  induction ranges as [| r rest IH]; intros bc path backupTS rate concurrency bc' o;
    cbn [Raw.backupRanges_worker].
  - split.
    + intros [= <- <-]. constructor.
    + destruct o as [[e |] | | |];
        try (intros (done & r & rest & bc1 & Hnil & _);
             destruct done; discriminate Hnil).
      intros Hdone. inversion Hdone. reflexivity.
  - destruct (Raw.backupRange c rounds bc (Raw.StartKey r) (Raw.EndKey r) path
                backupTS rate concurrency) as [bc1 o1] eqn:Hcall.
    assert (Hnow : o1 <> Raw.Returned None ->
              ((bc1, o1) = (bc', o) <->
               match o with
               | Raw.Returned None =>
                   Laws.backed_up c rounds path backupTS rate concurrency bc
                                  (r :: rest) bc'
               | _ =>
                   exists done r0 rest0 bc0,
                     r :: rest = done ++ r0 :: rest0 /\
                     Laws.backed_up c rounds path backupTS rate concurrency bc
                                    done bc0 /\
                     Raw.backupRange c rounds bc0 (Raw.StartKey r0)
                       (Raw.EndKey r0) path backupTS rate concurrency = (bc', o)
               end)).
    { intros Hfail. split.
      - intros [= <- <-].
        destruct o1 as [[e |] | | |]; try (exfalso; apply Hfail; reflexivity);
          (exists [], r, rest, bc; split; [reflexivity |];
           split; [constructor | exact Hcall]).
      - destruct o as [[e |] | | |].
        2: { intros Hdone. inversion Hdone; subst; same_call;
             exfalso; apply Hfail; reflexivity. }
        all: intros ([| r1 done] & r0 & rest0 & bc0 & Hsplit & Hdone & Hlast);
          injection Hsplit as <- Hrest; inversion Hdone; subst; same_call;
          try first [reflexivity | exfalso; apply Hfail; reflexivity]. }
    destruct o1 as [[e |] | | |]; try (apply Hnow; discriminate).
    clear Hnow. rewrite IH. split.
    + destruct o as [[e |] | | |].
      2: { intros Hdone. econstructor; eassumption. }
      all: intros (done & r0 & rest0 & bc0 & -> & Hdone & Hlast);
        exists (r :: done), r0, rest0, bc0;
        (split; [reflexivity |]); (split; [| exact Hlast]);
        econstructor; eassumption.
    + destruct o as [[e |] | | |].
      2: { intros Hdone. inversion Hdone; subst; same_call; assumption. }
      all: intros ([| r1 done] & r0 & rest0 & bc0 & Hsplit & Hdone & Hlast);
        injection Hsplit as <- Hrest; inversion Hdone; subst; same_call;
        exists done, r0, rest0, bc0; auto.
Qed.

(** X12: the pipeline of [BackupRanges] calls [backupRange] for the ranges
    from left to right, each call starting from the client the call before
    has left.  It reports success exactly when every call has returned
    [nil]; otherwise it stops at the first call that has not, reports how
    that call has ended, and calls [backupRange] for none of the ranges
    after it. *)
Theorem backupRanges_worker_stops_at_first_failure bc ranges path backupTS rate
    concurrency bc' o :
  Raw.backupRanges_worker c rounds bc ranges path backupTS rate concurrency
  = (bc', o) <->
  match o with
  | Raw.Returned None =>
      Laws.backed_up c rounds path backupTS rate concurrency bc ranges bc'
  | _ =>
      exists done r rest bc1,
        ranges = done ++ r :: rest /\
        Laws.backed_up c rounds path backupTS rate concurrency bc done bc1 /\
        Raw.backupRange c rounds bc1 (Raw.StartKey r) (Raw.EndKey r) path
                        backupTS rate concurrency = (bc', o)
  end.
Proof. apply backupRanges_worker_calls. Qed.

(** The pipeline keeps the cluster id and the header of the manifest, and
    only adds files. *)
Lemma backupRanges_worker_grows ranges :
  forall bc path backupTS rate concurrency,
    let r := Raw.backupRanges_worker c rounds bc ranges path backupTS rate
                                     concurrency in
    Raw.clusterID (fst r) = Raw.clusterID bc /\
    Laws.manifest_header (Raw.backupMeta (fst r))
      = Laws.manifest_header (Raw.backupMeta bc) /\
    exists files,
      BackupMeta.Files (Raw.backupMeta (fst r))
      = BackupMeta.Files (Raw.backupMeta bc) ++ files.
Proof.
  induction ranges as [| r rest IH]; intros bc path backupTS rate concurrency;
    cbn [Raw.backupRanges_worker].
  { cbn. split; [reflexivity |]. split; [reflexivity |].
    exists []. rewrite app_nil_r. reflexivity. }
  destruct (backupRange_effect bc (Raw.StartKey r) (Raw.EndKey r) path backupTS
              rate concurrency) as (Hid & Hhead & (files & Hfiles & _) & _).
  destruct (Raw.backupRange c rounds bc (Raw.StartKey r) (Raw.EndKey r) path
              backupTS rate concurrency) as [bc1 [[e |] | | |]];
    cbn [fst snd] in *;
    try (split; [exact Hid |]; split; [exact Hhead |]; exists files; exact Hfiles).
  destruct (IH bc1 path backupTS rate concurrency) as (Hid' & Hhead' & (files' & Hfiles')).
  cbn zeta in *. split; [congruence |]. split; [congruence |].
  exists (files ++ files'). rewrite Hfiles', Hfiles, app_assoc. reflexivity.
Qed.

(** X14: whatever its outcome, [BackupRanges] keeps the cluster id, the
    path and the schemas of the manifest, and the files the manifest held
    before stay at its front. *)
Theorem BackupRanges_manifest_grows CheckGCSafepoint bc ranges path backupTS rate
    concurrency ticks :
  let bc' := fst (Raw.BackupRanges c CheckGCSafepoint rounds bc ranges path
                    backupTS rate concurrency ticks) in
  Laws.manifest_header (Raw.backupMeta bc')
    = Laws.manifest_header (Raw.backupMeta bc) /\
  exists files,
    BackupMeta.Files (Raw.backupMeta bc')
    = BackupMeta.Files (Raw.backupMeta bc) ++ files.
Proof.
  destruct (backupRanges_worker_grows ranges bc path backupTS rate concurrency)
    as (_ & Hhead & Hfiles).
  cbn zeta in *. unfold Raw.BackupRanges.
  destruct (Raw.backupRanges_worker c rounds bc ranges path backupTS rate
              concurrency) as [bc1 [report | | |]]; cbn [fst] in *;
    try (split; assumption).
  destruct (Raw.supervise _ _ _ _ _) as [k [r |]]; split; assumption.
Qed.

(** X13: [BackupRanges] returns [nil] exactly when [backupRange] has
    been called for every range, in order, each call returning [nil], and
    the safepoint check made after the last range has passed; the client
    it hands back is the one these calls have left, and it has then made
    one check at the start, one per tick and that last one. *)
Theorem BackupRanges_success CheckGCSafepoint bc ranges path backupTS rate
    concurrency ticks bc' k :
  Raw.BackupRanges c CheckGCSafepoint rounds bc ranges path backupTS rate
                   concurrency ticks = (bc', Raw.Returned (k, None)) <->
  Laws.backed_up c rounds path backupTS rate concurrency bc ranges bc' /\
  CheckGCSafepoint (ticks + 1)%nat backupTS = None /\
  k = (ticks + 2)%nat.
Proof.
  rewrite Supervisor.BackupRanges_reports.
  rewrite <- (backupRanges_worker_calls ranges bc path backupTS rate concurrency
                bc' (Raw.Returned None)).
  destruct (Raw.backupRanges_worker c rounds bc ranges path backupTS rate
              concurrency) as [bc1 [[e |] | | |]]; split;
    try discriminate; try (intros ([= ] & _); fail).
  - intros [= <- <- Hcheck]. auto.
  - intros ([= <-] & -> & ->). reflexivity.
Qed.

End Facts.

(** One range on the one-store cluster: the push-down request and one
    fine-grained request, both at 5 MiB/s. *)
Lemma backupRange_requests_of_job_witness :
  Forall (Laws.job_request 1 "local:///backup" 5242880 4 77)
    (Raw.issued (fst (Raw.backupRange Scenario.one_store 5 Scenario.fresh_client
                        (Raw.StartKey Scenario.table_100)
                        (Raw.EndKey Scenario.table_100) "local:///backup" 77 5 4))).
Proof.
  apply (backupRange_requests_of_job Scenario.one_store 5 Scenario.fresh_client
           (Raw.StartKey Scenario.table_100) (Raw.EndKey Scenario.table_100)
           "local:///backup" 77 5 4).
  reflexivity.
Defined.

(** A job over one range with every check passing. *)
Lemma BackupRanges_success_witness :
  exists bc',
    Laws.backed_up Scenario.one_store 5 "local:///backup" 77 5 4
      Scenario.fresh_client [Scenario.table_100] bc' /\
    Scenario.check_passes (1 + 1)%nat 77 = None /\
    3%nat = (1 + 2)%nat.
Proof.
  eexists.
  eapply (proj1 (BackupRanges_success Scenario.one_store 5 Scenario.check_passes
                   Scenario.fresh_client [Scenario.table_100] "local:///backup"
                   77 5 4 1 _ 3)).
  vm_compute. reflexivity.
Defined.

End PipelineMore.

(** ** The fast verifier, further facts *)

Module VerifierMore.

Import Go.

Lemma xor_crc_permutation files1 files2 :
  files1 ≡ₚ files2 -> Spec.xor_crc files1 = Spec.xor_crc files2.
Proof.
  induction 1 as [| f l1 l2 _ IH | f g l | l1 l2 l3 _ IH1 _ IH2];
    cbn [Spec.xor_crc foldr] in *.
  - reflexivity.
  - f_equal. exact IH.
  - rewrite <- !Z.lxor_assoc. f_equal. apply Z.lxor_comm.
  - congruence.
Qed.

Lemma sum_kvs_permutation files1 files2 :
  files1 ≡ₚ files2 -> Spec.sum_kvs files1 = Spec.sum_kvs files2.
Proof.
  induction 1 as [| f l1 l2 _ IH | f g l | l1 l2 l3 _ IH1 _ IH2];
    unfold Spec.sum_kvs in *; cbn [foldr] in *; lia.
Qed.

Lemma sum_bytes_permutation files1 files2 :
  files1 ≡ₚ files2 -> Spec.sum_bytes files1 = Spec.sum_bytes files2.
Proof.
  induction 1 as [| f l1 l2 _ IH | f g l | l1 l2 l3 _ IH1 _ IH2];
    unfold Spec.sum_bytes in *; cbn [foldr] in *; lia.
Qed.

(** X15: the checksum, the key count and the byte count [FastChecksum]
    computes for a table do not depend on the order of its files. *)
Theorem fileStats_permutation files1 files2 :
  files1 ≡ₚ files2 ->
  Raw.fileStats files1 (0, 0, 0) = Raw.fileStats files2 (0, 0, 0).
Proof.
  intros Hperm. rewrite !Verifier.fileStats_table_stats. unfold Spec.table_stats.
  rewrite (xor_crc_permutation _ _ Hperm), (sum_kvs_permutation _ _ Hperm),
    (sum_bytes_permutation _ _ Hperm).
  reflexivity.
Qed.

Lemma fileStats_permutation_witness :
  Raw.fileStats [Scenario.f1; Cases.f2] (0, 0, 0)
  = Raw.fileStats [Cases.f2; Scenario.f1] (0, 0, 0).
Proof.
  apply (fileStats_permutation [Scenario.f1; Cases.f2] [Cases.f2; Scenario.f1]).
  apply perm_swap.
Defined.

(** The statistics of the files of two tables taken together are
    the xor of the two checksums and the 64-bit sums of the two key counts
    and of the two byte counts. *)
Lemma fileStats_app files1 files2 :
  let '(c1, k1, b1) := Raw.fileStats files1 (0, 0, 0) in
  let '(c2, k2, b2) := Raw.fileStats files2 (0, 0, 0) in
  Raw.fileStats (files1 ++ files2) (0, 0, 0)
  = (Z.lxor c1 c2, uint64 (k1 + k2), uint64 (b1 + b2)).
Proof.
  rewrite !Verifier.fileStats_table_stats. unfold Spec.table_stats.
  unfold Spec.xor_crc, Spec.sum_kvs, Spec.sum_bytes. rewrite !foldr_app.
  assert (Hx : forall l a,
            foldr (fun f acc => Z.lxor (File.Crc64Xor f) acc) a l
            = Z.lxor (foldr (fun f acc => Z.lxor (File.Crc64Xor f) acc) 0 l) a).
  { induction l as [| f l IH]; intros a; cbn [foldr].
    - rewrite Z.lxor_0_l. reflexivity.
    - rewrite IH, Z.lxor_assoc. reflexivity. }
  assert (Hk : forall l a,
            foldr (fun f acc => File.TotalKvs f + acc) a l
            = foldr (fun f acc => File.TotalKvs f + acc) 0 l + a).
  { induction l as [| f l IH]; intros a; cbn [foldr]; [lia | rewrite IH; lia]. }
  assert (Hb : forall l a,
            foldr (fun f acc => File.TotalBytes f + acc) a l
            = foldr (fun f acc => File.TotalBytes f + acc) 0 l + a).
  { induction l as [| f l IH]; intros a; cbn [foldr]; [lia | rewrite IH; lia]. }
  rewrite (Hx files1), (Hk files1), (Hb files1).
  unfold uint64. rewrite <- !Zplus_mod. reflexivity.
Qed.

Section Facts.
Variable Database : Type.
Variable LoadBackupTables : BackupMeta.t -> res (gmap string Database).
Variable GetTable : option Database -> string -> option Raw.Table.
Variable Unmarshal_DBInfo : bytes -> res Model.DBInfo.
Variable Unmarshal_TableInfo : bytes -> res Model.TableInfo.

Local Abbreviation FastChecksum_loop :=
  (Raw.FastChecksum_loop Database GetTable Unmarshal_DBInfo Unmarshal_TableInfo).
Local Abbreviation FastChecksum :=
  (Raw.FastChecksum Database LoadBackupTables GetTable Unmarshal_DBInfo
                    Unmarshal_TableInfo).
Local Abbreviation table_loaded :=
  (Spec.table_loaded Database GetTable Unmarshal_DBInfo Unmarshal_TableInfo).

Lemma FastChecksum_loop_returns dbs schemas :
  Forall (table_loaded dbs) schemas ->
  FastChecksum_loop dbs schemas = Raw.Returned (true, None) \/
  exists e, FastChecksum_loop dbs schemas = Raw.Returned (false, e).
Proof.
  induction schemas as [| schema rest IH]; intros Hloaded;
    cbn [Raw.FastChecksum_loop]; [left; reflexivity |].
  apply Forall_cons in Hloaded as [Hl Hrest].
  destruct (Unmarshal_DBInfo (Schema.Db schema)) as [err | dbInfo] eqn:Hd;
    [right; eexists; reflexivity |].
  destruct (Unmarshal_TableInfo (Schema.Table schema)) as [err | tblInfo] eqn:Ht;
    [right; eexists; reflexivity |].
  destruct (Hl dbInfo tblInfo Hd Ht) as [tbl Hg]. rewrite Hg.
  destruct (Raw.fileStats (Raw.TableFiles tbl) (0, 0, 0))
    as [[checksum totalKvs] totalBytes].
  destruct ((Schema.Crc64Xor schema =? checksum)
            && (Schema.TotalKvs schema =? totalKvs)
            && (Schema.TotalBytes schema =? totalBytes));
    [apply IH; exact Hrest | right; eexists; reflexivity].
Qed.

(** X16: when every schema that decodes names a loaded table,
    [FastChecksum] dereferences no nil table: it returns, and it returns
    either [true] without an error or [false]. *)
Theorem FastChecksum_returns bc :
  (forall dbs, LoadBackupTables (Raw.backupMeta bc) = inr dbs ->
               Forall (table_loaded dbs) (BackupMeta.Schemas (Raw.backupMeta bc))) ->
  FastChecksum bc = Raw.Returned (true, None) \/
  exists e, FastChecksum bc = Raw.Returned (false, e).
Proof.
  intros Hloaded. unfold Raw.FastChecksum.
  destruct (LoadBackupTables (Raw.backupMeta bc)) as [err | dbs];
    [right; eexists; reflexivity |].
  apply FastChecksum_loop_returns. apply Hloaded. reflexivity.
Qed.

End Facts.

Lemma FastChecksum_returns_witness :
  Raw.FastChecksum _ Scenario.load_tables Scenario.get_table Scenario.decode_db
    Scenario.decode_table
    (Scenario.client_with [Scenario.schema_usertable 17 10 100])
  = Raw.Returned (true, None) \/
  exists e,
    Raw.FastChecksum _ Scenario.load_tables Scenario.get_table Scenario.decode_db
      Scenario.decode_table
      (Scenario.client_with [Scenario.schema_usertable 17 10 100])
    = Raw.Returned (false, e).
Proof.
  apply (FastChecksum_returns _ Scenario.load_tables Scenario.get_table
           Scenario.decode_db Scenario.decode_table
           (Scenario.client_with [Scenario.schema_usertable 17 10 100])).
  intros dbs [= <-]. apply Forall_singleton.
  intros dbInfo tblInfo [= <-] [= <-]. eexists. vm_compute. reflexivity.
Defined.

End VerifierMore.

(** ** The catalog planner, further facts *)

Module PlannerMore.

Import Go.

Lemma extends_refl meta : Laws.extends meta meta.
Proof. split; auto. Qed.

Lemma extends_trans m1 m2 m3 :
  Laws.extends m1 m2 -> Laws.extends m2 m3 -> Laws.extends m1 m3.
Proof.
  intros [Hdom12 Hval12] [Hdom23 Hval23]. split; [auto |].
  intros k s Hs. destruct (Hval23 k s Hs) as [Hold | Hzero]; auto.
Qed.

Lemma extends_register bs schema dbName tableName bs' :
  Spec.recorded schema = (0, 0, 0) ->
  Raw.startTableChecksum bs schema dbName tableName = Some bs' ->
  Laws.extends (Raw.meta bs) (Raw.meta bs') /\
  Raw.meta bs' !! (dbName +:+ "." +:+ tableName)%string = Some schema.
Proof.
  intros Hzero. unfold Raw.startTableChecksum.
  destruct (Raw.WorkerPool_Apply (Raw.workerPool bs)) as [idle |]; [| discriminate].
  intros [= <-]. cbn [Raw.meta]. split; [split |].
  - intros k Hk. rewrite lookup_insert. case_decide; [eauto | exact Hk].
  - intros k s. rewrite lookup_insert. case_decide.
    + intros [= <-]. right. exact Hzero.
    + auto.
  - apply lookup_insert_eq.
Qed.

Lemma fresh_entry_extends meta meta' k :
  Laws.fresh_entry meta k -> Laws.extends meta meta' -> Laws.fresh_entry meta' k.
Proof.
  intros (s & Hs & Hzero) [Hdom Hval].
  destruct (Hdom k) as [s' Hs']; [eauto |].
  exists s'. split; [exact Hs' |].
  destruct (Hval k s' Hs') as [Hold | Hz]; [congruence | exact Hz].
Qed.

Section Facts.
Variable GenTablePrefix : Z -> bytes.
Variable GetSnapshotInfoSchema : Z -> res (list Model.DBInfo).
Variable Marshal_DBInfo : Model.DBInfo -> res bytes.
Variable Marshal_TableInfo : Model.TableInfo -> res bytes.
Variable NextGlobalAutoID : Z -> Z -> res Z.
Variable CreateSession : Z -> Z -> res unit.

Local Abbreviation loadTables :=
  (Raw.loadTables GenTablePrefix Marshal_TableInfo NextGlobalAutoID CreateSession).
Local Abbreviation LoadDb :=
  (Raw.LoadDb GenTablePrefix Marshal_DBInfo Marshal_TableInfo NextGlobalAutoID
              CreateSession).
Local Abbreviation PreBackupAllTableRanges :=
  (Raw.PreBackupAllTableRanges GenTablePrefix GetSnapshotInfoSchema Marshal_DBInfo
     Marshal_TableInfo NextGlobalAutoID CreateSession).

(** What a successful pass over the tables of a database implies: every
    call made for them succeeded, and every table is filed. *)
Lemma loadTables_inv dbInfo dbData backupTS tables :
  forall ranges bs ranges' bs',
    loadTables dbInfo dbData tables ranges bs backupTS
    = Raw.Returned (inr (ranges', bs')) ->
    Forall (fun t =>
      exists autoID,
        NextGlobalAutoID (Model.DBID dbInfo) (Model.ID t) = inr autoID /\
        Is_true (is_ok (Marshal_TableInfo (Model.set_AutoIncID t autoID))) /\
        Is_true (is_ok (CreateSession (Model.DBID dbInfo) (Model.ID t)))) tables /\
    Laws.extends (Raw.meta bs) (Raw.meta bs') /\
    Forall (fun t => Laws.fresh_entry (Raw.meta bs') (Laws.table_key dbInfo t))
           tables.
Proof.
  induction tables as [| t rest IH]; intros ranges bs ranges' bs';
    cbn [Raw.loadTables].
  - intros [= _ <-]. split; [constructor |]. split; [apply extends_refl | constructor].
  - destruct (NextGlobalAutoID (Model.DBID dbInfo) (Model.ID t)) as [e | autoID] eqn:Hid;
      [discriminate |].
    destruct (Marshal_TableInfo (Model.set_AutoIncID t autoID)) as [e | tableData] eqn:Hm;
      [discriminate |].
    cbn [Model.set_AutoIncID Model.ID Model.Name].
    destruct (CreateSession (Model.DBID dbInfo) (Model.ID t)) as [e | dbSession] eqn:Hs;
      [discriminate |].
    match goal with |- context [Raw.startTableChecksum ?b ?s ?d ?n] =>
      destruct (Raw.startTableChecksum b s d n) as [bs1 |] eqn:Hstart;
        [| discriminate]
    end.
    apply extends_register in Hstart as [Hstep Hfiled]; [| reflexivity].
    intros Hrest. apply IH in Hrest as (Hcalls & Hext & Hfresh).
    assert (Hnew : Laws.fresh_entry (Raw.meta bs1) (Laws.table_key dbInfo t))
      by (eexists; split; [exact Hfiled | reflexivity]).
    split; [| split].
    + constructor; [| exact Hcalls].
      exists autoID. split; [exact Hid |]. rewrite Hm, Hs. split; exact I.
    + eapply extends_trans; eassumption.
    + constructor; [| exact Hfresh].
      eapply fresh_entry_extends; eassumption.
Qed.

Lemma LoadDb_inv backupTS dbs :
  forall ranges bs ranges' bs',
    LoadDb dbs ranges bs backupTS = Raw.Returned (inr (ranges', bs')) ->
    Spec.plan_calls_succeed Marshal_DBInfo Marshal_TableInfo NextGlobalAutoID
                            CreateSession dbs /\
    Laws.extends (Raw.meta bs) (Raw.meta bs') /\
    Forall (fun db =>
      Is_true (Spec.user_database db) ->
      Forall (fun t => Laws.fresh_entry (Raw.meta bs') (Laws.table_key db t))
             (Model.Tables db)) dbs.
Proof.
  unfold Spec.plan_calls_succeed.
  induction dbs as [| db rest IH]; intros ranges bs ranges' bs';
    cbn [Raw.LoadDb].
  - intros [= _ <-]. split; [constructor |]. split; [apply extends_refl | constructor].
  - rewrite Planner.isSystemDatabase_user.
    destruct (Spec.user_database db) eqn:Huser; cbn [negb].
    + destruct (Marshal_DBInfo db) as [e | dbData] eqn:Hm; [discriminate |].
      destruct (loadTables db dbData (Model.Tables db) ranges bs backupTS)
        as [[e | [r1 bs1]] | | |] eqn:Htables; try discriminate.
      intros Hrest. apply IH in Hrest as (Hcalls & Hext & Hfresh).
      apply loadTables_inv in Htables as (Hcalls1 & Hext1 & Hfresh1).
      split; [| split].
      * constructor; [| exact Hcalls]. intros _.
        split; [rewrite Hm; exact I | exact Hcalls1].
      * eapply extends_trans; eassumption.
      * constructor; [| exact Hfresh]. intros _.
        eapply Forall_impl; [exact Hfresh1 |].
        intros t Ht. exact (fresh_entry_extends _ _ _ Ht Hext).
    + intros Hrest. apply IH in Hrest as (Hcalls & Hext & Hfresh).
      split; [| split]; [| exact Hext |].
      * constructor; [| exact Hcalls]. rewrite Huser. intros [].
      * constructor; [| exact Hfresh]. rewrite Huser. intros [].
Qed.

(** X17: [PreBackupAllTableRanges] returns ranges only when every call
    it makes for the tables of the user databases has succeeded: the
    marshalling of each database and, for each table, the fetch of the
    auto-increment id, the marshalling and the creation of the session;
    and only when the pool had an idle worker for each of these tables. *)
Theorem PreBackupAllTableRanges_needs_every_call bs backupTS dbs ranges bs' :
  GetSnapshotInfoSchema backupTS = inr dbs ->
  PreBackupAllTableRanges bs backupTS = Raw.Returned (inr (ranges, bs')) ->
  Spec.plan_calls_succeed Marshal_DBInfo Marshal_TableInfo NextGlobalAutoID
                          CreateSession dbs /\
  (length (Spec.user_tables dbs) <= Raw.workerPool bs)%nat.
Proof.
  intros Hsnap. unfold Raw.PreBackupAllTableRanges. rewrite Hsnap.
  intros Hload. split.
  - apply LoadDb_inv in Hload as (Hcalls & _). exact Hcalls.
  - apply Planner.LoadDb_ranges in Hload as [_ Hpool]. lia.
Qed.

(** X18: after [PreBackupAllTableRanges] has succeeded, every table of
    every user database is filed with the checksum pipeline under
    [db.table] (lowercase names) with a schema still awaiting its
    checksum, and no name filed before has been dropped. *)
Theorem PreBackupAllTableRanges_registers bs backupTS dbs ranges bs' :
  GetSnapshotInfoSchema backupTS = inr dbs ->
  PreBackupAllTableRanges bs backupTS = Raw.Returned (inr (ranges, bs')) ->
  (forall k, is_Some (Raw.meta bs !! k) -> is_Some (Raw.meta bs' !! k)) /\
  (forall db t,
     db ∈ dbs -> Is_true (Spec.user_database db) -> t ∈ Model.Tables db ->
     exists s, Raw.meta bs' !! Laws.table_key db t = Some s /\
               Schema.Crc64Xor s = 0 /\ Schema.TotalKvs s = 0 /\
               Schema.TotalBytes s = 0).
Proof.
  intros Hsnap. unfold Raw.PreBackupAllTableRanges. rewrite Hsnap.
  intros Hload. apply LoadDb_inv in Hload as (_ & [Hdom _] & Hfresh).
  split; [exact Hdom |].
  intros db t Hdb Huser Ht.
  rewrite Forall_forall in Hfresh. specialize (Hfresh db Hdb Huser).
  rewrite Forall_forall in Hfresh. destruct (Hfresh t Ht) as (s & Hs & Hzero).
  exists s. split; [exact Hs |]. unfold Spec.recorded in Hzero.
  injection Hzero as -> -> ->. auto.
Qed.

End Facts.

(** The catalog of [mysql] and [shop], with the pool of one store. *)
Lemma PreBackupAllTableRanges_needs_every_call_witness :
  Spec.plan_calls_succeed Scenario.marshal_db Scenario.marshal_table
    Scenario.next_auto_id Scenario.create_session Scenario.catalog /\
  (length (Spec.user_tables Scenario.catalog) <= 8)%nat.
Proof.
  eapply (PreBackupAllTableRanges_needs_every_call Scenario.toy_prefix
            Scenario.snapshot_of_catalog Scenario.marshal_db Scenario.marshal_table
            Scenario.next_auto_id Scenario.create_session
            (Raw.new_backupSchemas 8) 77 Scenario.catalog).
  - reflexivity.
  - vm_compute. reflexivity.
Defined.

Lemma PreBackupAllTableRanges_registers_witness :
  exists ranges bs',
    Raw.PreBackupAllTableRanges Scenario.toy_prefix Scenario.snapshot_of_catalog
      Scenario.marshal_db Scenario.marshal_table Scenario.next_auto_id
      Scenario.create_session (Raw.new_backupSchemas 8) 77
    = Raw.Returned (inr (ranges, bs')) /\
    is_Some (Raw.meta bs' !! "shop.events").
Proof.
  destruct (Raw.PreBackupAllTableRanges Scenario.toy_prefix
              Scenario.snapshot_of_catalog Scenario.marshal_db
              Scenario.marshal_table Scenario.next_auto_id
              Scenario.create_session (Raw.new_backupSchemas 8) 77)
    as [[e | [ranges bs']] | | |] eqn:Hplan;
    try (vm_compute in Hplan; discriminate Hplan).
  exists ranges, bs'. split; [reflexivity |].
  destruct (PreBackupAllTableRanges_registers Scenario.toy_prefix
              Scenario.snapshot_of_catalog Scenario.marshal_db
              Scenario.marshal_table Scenario.next_auto_id Scenario.create_session
              (Raw.new_backupSchemas 8) 77 Scenario.catalog ranges bs' eq_refl
              Hplan) as [_ Hreg].
  destruct (Hreg {| Model.DBID := 2; Model.DBName := Scenario.ci "shop";
                    Model.Tables := [Scenario.t100; Scenario.t_partitioned] |}
                 Scenario.t_partitioned) as (s & Hs & _).
  - unfold Scenario.catalog. rewrite !elem_of_cons. auto.
  - exact I.
  - cbn. rewrite !elem_of_cons. auto.
  - exists s. exact Hs.
Defined.

End PlannerMore.

(** ** The planner of a single table *)

Module TablePlanFacts.

Import Go.

Lemma table_ranges_planned tablePrefix dbs db t :
  db ∈ dbs -> Is_true (Spec.user_database db) -> t ∈ Model.Tables db ->
  Spec.table_ranges tablePrefix t ⊆ Spec.planned_ranges tablePrefix dbs.
Proof.
  intros Hdb Huser Ht r Hr. unfold Spec.planned_ranges.
  apply list_elem_of_In, in_flat_map. exists db. split.
  - apply list_elem_of_In, list_elem_of_filter. auto.
  - apply in_flat_map. exists t. split; apply list_elem_of_In; assumption.
Qed.

Section Facts.
Variable GenTablePrefix : Z -> bytes.
Variable ToLower : string -> string.
Variable CreateSession : res unit.
Variable GetSnapshotInfoSchema : Z -> res TablePlan.InfoSchema.
Variable NextGlobalAutoID : Z -> Z -> res Z.
Variable Marshal_DBInfo : Model.DBInfo -> res bytes.
Variable Marshal_TableInfo : Model.TableInfo -> res bytes.

Local Abbreviation PreBackupTableRanges :=
  (TablePlan.PreBackupTableRanges GenTablePrefix ToLower CreateSession
     GetSnapshotInfoSchema NextGlobalAutoID Marshal_DBInfo Marshal_TableInfo).
Local Abbreviation NewCIStr := (TablePlan.NewCIStr ToLower).

Lemma PreBackupTableRanges_inv bs dbName tableName path backupTS ranges bs' :
  PreBackupTableRanges bs dbName tableName path backupTS
  = Raw.Returned (inr (ranges, bs')) ->
  exists info dbInfo tableInfo,
    GetSnapshotInfoSchema backupTS = inr info /\
    TablePlan.SchemaByName info (NewCIStr dbName) = Some dbInfo /\
    TablePlan.TableByName info (NewCIStr dbName) (NewCIStr tableName)
      = inr tableInfo /\
    ranges = Spec.table_ranges GenTablePrefix tableInfo /\
    Laws.extends (Raw.meta bs) (Raw.meta bs') /\
    Laws.fresh_entry (Raw.meta bs') (Laws.table_key dbInfo tableInfo).
Proof.
  unfold TablePlan.PreBackupTableRanges.
  destruct CreateSession as [e | dbSession]; [discriminate |].
  destruct (GetSnapshotInfoSchema backupTS) as [e | info]; [discriminate |].
  destruct (TablePlan.SchemaByName info (NewCIStr dbName)) as [dbInfo |] eqn:Hdb;
    [| discriminate].
  destruct (TablePlan.TableByName info (NewCIStr dbName) (NewCIStr tableName))
    as [e | tableInfo] eqn:Htbl; [discriminate |].
  destruct (NextGlobalAutoID (Model.DBID dbInfo) (Model.ID tableInfo))
    as [e | autoID]; [discriminate |].
  destruct (Marshal_DBInfo dbInfo) as [e | dbData]; [discriminate |].
  destruct (Marshal_TableInfo (Model.set_AutoIncID tableInfo autoID))
    as [e | tableData]; [discriminate |].
  match goal with |- context [Raw.startTableChecksum ?b ?s ?d ?n] =>
    destruct (Raw.startTableChecksum b s d n) as [bs1 |] eqn:Hstart;
      [| discriminate]
  end.
  apply PlannerMore.extends_register in Hstart as [Hstep Hfiled]; [| reflexivity].
  intros [= <- <-]. exists info, dbInfo, tableInfo.
  do 3 (split; [first [reflexivity | assumption] |]).
  split; [apply Planner.buildTableRanges_table_ranges |].
  split; [exact Hstep |].
  eexists. split; [exact Hfiled | reflexivity].
Qed.

(** X19: with the session created and the snapshot read,
    [PreBackupTableRanges] fails with [schema <db> not found] when the
    snapshot has no database of that name; when it succeeds, the table was
    found under the two names, the ranges are those of that table (one
    range, or one per partition) whatever the database, system catalogs
    included, and the table is filed with the checksum pipeline under
    [db.table], awaiting its checksum. *)
Theorem PreBackupTableRanges_plan bs dbName tableName path backupTS dbSession
    info :
  CreateSession = inr dbSession ->
  GetSnapshotInfoSchema backupTS = inr info ->
  match TablePlan.SchemaByName info (NewCIStr dbName) with
  | None =>
      PreBackupTableRanges bs dbName tableName path backupTS
      = Raw.Returned (inl ("schema " +:+ dbName +:+ " not found")%string)
  | Some dbInfo =>
      forall ranges bs',
        PreBackupTableRanges bs dbName tableName path backupTS
        = Raw.Returned (inr (ranges, bs')) ->
        exists tableInfo,
          TablePlan.TableByName info (NewCIStr dbName) (NewCIStr tableName)
            = inr tableInfo /\
          ranges = Spec.table_ranges GenTablePrefix tableInfo /\
          (forall k, is_Some (Raw.meta bs !! k) -> is_Some (Raw.meta bs' !! k)) /\
          Laws.fresh_entry (Raw.meta bs') (Laws.table_key dbInfo tableInfo)
  end.
Proof.
  intros Hsession Hsnap.
  destruct (TablePlan.SchemaByName info (NewCIStr dbName)) as [dbInfo |] eqn:Hdb.
  - intros ranges bs' Hplan.
    apply PreBackupTableRanges_inv in Hplan
      as (info' & dbInfo' & tableInfo & Hsnap' & Hdb' & Htbl & Hr & [Hdom _] & Hfresh).
    assert (info' = info) by congruence. subst info'.
    assert (dbInfo' = dbInfo) by congruence. subst dbInfo'.
    exists tableInfo. auto.
  - unfold TablePlan.PreBackupTableRanges.
    rewrite Hsession, Hsnap, Hdb. reflexivity.
Qed.

End Facts.

Section Both.
Variable GenTablePrefix : Z -> bytes.
Variable ToLower : string -> string.
Variable CreateSession1 : res unit.
Variable GetInfoSchema : Z -> res TablePlan.InfoSchema.
Variable GetAllSchemas : Z -> res (list Model.DBInfo).
Variable NextGlobalAutoID : Z -> Z -> res Z.
Variable Marshal_DBInfo : Model.DBInfo -> res bytes.
Variable Marshal_TableInfo : Model.TableInfo -> res bytes.
Variable CreateSession : Z -> Z -> res unit.

(** X20: at one snapshot, the ranges planned for a single table of a user
    database are among the ranges planned for the whole cluster, provided
    the database and the table the two lookups find are a database of the
    snapshot and one of its tables. *)
Theorem table_plan_within_full_plan bs1 bs2 dbName tableName path backupTS
    dbs all bs1' one bs2' :
  GetAllSchemas backupTS = inr dbs ->
  (forall info dbInfo tableInfo,
     GetInfoSchema backupTS = inr info ->
     TablePlan.SchemaByName info (TablePlan.NewCIStr ToLower dbName) = Some dbInfo ->
     TablePlan.TableByName info (TablePlan.NewCIStr ToLower dbName)
                           (TablePlan.NewCIStr ToLower tableName) = inr tableInfo ->
     dbInfo ∈ dbs /\ Is_true (Spec.user_database dbInfo) /\
     tableInfo ∈ Model.Tables dbInfo) ->
  Raw.PreBackupAllTableRanges GenTablePrefix GetAllSchemas Marshal_DBInfo
    Marshal_TableInfo NextGlobalAutoID CreateSession bs1 backupTS
    = Raw.Returned (inr (all, bs1')) ->
  TablePlan.PreBackupTableRanges GenTablePrefix ToLower CreateSession1
    GetInfoSchema NextGlobalAutoID Marshal_DBInfo Marshal_TableInfo
    bs2 dbName tableName path backupTS = Raw.Returned (inr (one, bs2')) ->
  one ⊆ all.
Proof.
  intros Hdbs Hlookup Hall Hone.
  unfold Raw.PreBackupAllTableRanges in Hall. rewrite Hdbs in Hall.
  apply Planner.LoadDb_ranges in Hall as [Hall _]. cbn [app] in Hall. subst all.
  apply PreBackupTableRanges_inv in Hone
    as (info & dbInfo & tableInfo & Hsnap & Hdb & Htbl & -> & _).
  destruct (Hlookup info dbInfo tableInfo Hsnap Hdb Htbl) as (Hin & Huser & Ht).
  eapply table_ranges_planned; eassumption.
Qed.

End Both.

(** The database [warehouse] is not in the catalog. *)
Lemma PreBackupTableRanges_plan_witness :
  TablePlan.PreBackupTableRanges Scenario.toy_prefix Cases.keep_case (inr tt)
    (fun _ => inr Cases.catalog_info) Scenario.next_auto_id Scenario.marshal_db
    Scenario.marshal_table (Raw.new_backupSchemas 8) "warehouse" "usertable"
    "local:///backup" 77
  = Raw.Returned (inl "schema warehouse not found"%string).
Proof.
  exact (PreBackupTableRanges_plan Scenario.toy_prefix Cases.keep_case (inr tt)
           (fun _ => inr Cases.catalog_info) Scenario.next_auto_id
           Scenario.marshal_db Scenario.marshal_table (Raw.new_backupSchemas 8)
           "warehouse" "usertable" "local:///backup" 77 tt Cases.catalog_info
           eq_refl eq_refl).
Defined.

(** The partitioned table of [shop] within the plan of the catalog. *)
Lemma table_plan_within_full_plan_witness :
  [ {| Raw.StartKey := [Byte.x74; Byte.xc8];
       Raw.EndKey := [Byte.x74; Byte.xc9]; Raw.Files := [] |};
    {| Raw.StartKey := [Byte.x74; Byte.xc9];
       Raw.EndKey := [Byte.x74; Byte.xca]; Raw.Files := [] |} ]
  ⊆ Spec.planned_ranges Scenario.toy_prefix Scenario.catalog.
Proof.
  eapply (table_plan_within_full_plan Scenario.toy_prefix Cases.keep_case (inr tt)
            (fun _ => inr Cases.catalog_info) Scenario.snapshot_of_catalog
            Scenario.next_auto_id Scenario.marshal_db Scenario.marshal_table
            Scenario.create_session (Raw.new_backupSchemas 8)
            (Raw.new_backupSchemas 8) "shop" "events" "local:///backup" 77
            Scenario.catalog).
  - reflexivity.
  - intros info dbInfo tableInfo [= <-] [= <-] [= <-].
    split; [| split; [exact I |]].
    + unfold Scenario.catalog. rewrite !elem_of_cons. auto.
    + cbn. rewrite !elem_of_cons. auto.
  - vm_compute. reflexivity.
  - vm_compute. reflexivity.
Defined.

End TablePlanFacts.

(** ** The schema-checksum pipeline *)

Module ChecksumFacts.

Import Go.

(** Receiving the checksums [cs], all of filed schemas, takes the loop to
    a store with the same names in which, the names of [cs] being
    distinct, each schema named has taken the numbers of its checksum. *)
Lemma finish_loop_checksums cs :
  forall meta schemas rest,
    Forall (Laws.registered meta) cs ->
    exists meta1,
      Checksums.finish_loop meta schemas (map Checksums.Checksum cs ++ rest)
      = Checksums.finish_loop meta1 (schemas ++ map Checksums.name cs) rest /\
      (forall k, is_Some (meta !! k) <-> is_Some (meta1 !! k)) /\
      (forall k, k ∉ map Checksums.name cs -> meta1 !! k = meta !! k) /\
      (NoDup (map Checksums.name cs) ->
       forall c, c ∈ cs ->
         exists s0, meta !! Checksums.name c = Some s0 /\
                    meta1 !! Checksums.name c = Some (Checksums.set_checksum s0 c)).
Proof.
  induction cs as [| c cs IH]; intros meta schemas rest Hreg.
  - exists meta. cbn [map app]. rewrite app_nil_r.
    split; [reflexivity |]. split; [tauto |]. split; [reflexivity |].
    intros _ c Hc. apply elem_of_nil in Hc. contradiction.
  - apply Forall_cons in Hreg as [[s Hs] Hreg].
    cbn [map app Checksums.finish_loop]. rewrite Hs.
    set (meta' := <[Checksums.name c := Checksums.set_checksum s c]> meta).
    assert (Hdom : forall k, is_Some (meta !! k) <-> is_Some (meta' !! k)).
    { intros k. unfold meta'. rewrite lookup_insert. case_decide; [| tauto].
      subst k. split; eauto. }
    assert (Hreg' : Forall (Laws.registered meta') cs).
    { eapply Forall_impl; [exact Hreg |]. intros c' Hc'. apply Hdom, Hc'. }
    destruct (IH meta' (schemas ++ [Checksums.name c]) rest Hreg')
      as (meta1 & Heq & Hdom1 & Hother & Hfilled).
    exists meta1. rewrite Heq, <- app_assoc. cbn [app].
    split; [reflexivity |]. split; [| split].
    + intros k. rewrite Hdom. apply Hdom1.
    + intros k Hk. apply not_elem_of_cons in Hk as [Hne Hk].
      rewrite (Hother k Hk). unfold meta'. apply lookup_insert_ne. congruence.
    + intros Hnodup c' Hc'. apply NoDup_cons in Hnodup as [Hfresh Hnodup].
      apply elem_of_cons in Hc' as [-> | Hc'].
      * exists s. split; [exact Hs |].
        rewrite (Hother _ Hfresh). unfold meta'. apply lookup_insert_eq.
      * destruct (Hfilled Hnodup c' Hc') as (s0 & Hs0 & Hs1).
        exists s0. split; [| exact Hs1].
        rewrite <- Hs0. unfold meta'. symmetry. apply lookup_insert_ne.
        intros Heqn. apply Hfresh. rewrite Heqn.
        apply list_elem_of_fmap. exists c'. auto.
Qed.

Lemma deref_completes meta meta1 cs :
  (forall c, c ∈ cs ->
     exists s0, meta !! Checksums.name c = Some s0 /\
                meta1 !! Checksums.name c = Some (Checksums.set_checksum s0 c)) ->
  Forall2 (Laws.completes meta) cs
          (Checksums.deref meta1 (map Checksums.name cs)).
Proof.
  induction cs as [| c cs IH]; intros Hall; cbn; [constructor |].
  destruct (Hall c) as (s0 & Hs0 & Hs1); [apply elem_of_cons; auto |].
  rewrite Hs1. constructor.
  - exists s0. auto.
  - apply IH. intros c' Hc'. apply Hall. apply elem_of_cons. auto.
Qed.

Lemma finish_collects meta cs rest :
  NoDup (map Checksums.name cs) ->
  Forall (Laws.registered meta) cs ->
  exists meta' schemas,
    Checksums.finishTableChecksum meta
      (map Checksums.Checksum cs ++ Checksums.Closed :: rest)
    = (meta', Raw.Returned (inr schemas)) /\
    Forall2 (Laws.completes meta) cs schemas.
Proof.
  intros Hnodup Hreg. unfold Checksums.finishTableChecksum.
  destruct (finish_loop_checksums cs meta [] (Checksums.Closed :: rest) Hreg)
    as (meta1 & Heq & _ & _ & Hfilled).
  rewrite Heq. cbn [Checksums.finish_loop app].
  exists meta1, (Checksums.deref meta1 (map Checksums.name cs)).
  split; [reflexivity |].
  apply deref_completes. exact (Hfilled Hnodup).
Qed.

(** X21: when checksums of distinct, filed names arrive and the channel
    is then closed, [finishTableChecksum] returns one schema per checksum,
    in the order of arrival: the schema filed under the name of the
    checksum, with its [Db] and [Table], carrying the three numbers of
    the checksum. *)
Theorem finishTableChecksum_collects meta cs rest :
  NoDup (map Checksums.name cs) ->
  Forall (Laws.registered meta) cs ->
  exists meta' schemas,
    Checksums.finishTableChecksum meta
      (map Checksums.Checksum cs ++ Checksums.Closed :: rest)
    = (meta', Raw.Returned (inr schemas)) /\
    Forall2 (Laws.completes meta) cs schemas.
Proof. apply finish_collects. Qed.

(** X22: the first error received ends the join: [CompleteMeta] returns
    it, leaves the manifest of the client as it was, and does not receive
    what follows. *)
Theorem CompleteMeta_first_error bc meta cs err rest :
  Forall (Laws.registered meta) cs ->
  exists meta',
    Checksums.CompleteMeta bc meta
      (map Checksums.Checksum cs ++ Checksums.Failed err :: rest)
    = (bc, meta', Raw.Returned (Some err)).
Proof.
  intros Hreg. unfold Checksums.CompleteMeta, Checksums.finishTableChecksum.
  destruct (finish_loop_checksums cs meta [] (Checksums.Failed err :: rest) Hreg)
    as (meta1 & Heq & _).
  rewrite Heq. cbn [Checksums.finish_loop]. exists meta1. reflexivity.
Qed.

(** X23: a checksum for a name that was never filed makes the join
    panic, after the checksums received before it. *)
Theorem finishTableChecksum_unknown_name meta cs c rest :
  Forall (Laws.registered meta) cs ->
  meta !! Checksums.name c = None ->
  snd (Checksums.finishTableChecksum meta
         (map Checksums.Checksum cs ++ Checksums.Checksum c :: rest))
  = Raw.Panicked.
Proof.
  intros Hreg Hnone. unfold Checksums.finishTableChecksum.
  destruct (finish_loop_checksums cs meta [] (Checksums.Checksum c :: rest) Hreg)
    as (meta1 & Heq & Hdom & _).
  rewrite Heq. cbn [Checksums.finish_loop].
  destruct (meta1 !! Checksums.name c) as [s |] eqn:Hs; [| reflexivity].
  assert (Hsome : is_Some (meta !! Checksums.name c)) by (apply Hdom; eauto).
  rewrite Hnone in Hsome. destruct Hsome as [? [=]].
Qed.

Section Verified.
Variable Database : Type.
Variable LoadBackupTables : BackupMeta.t -> res (gmap string Database).
Variable GetTable : option Database -> string -> option Raw.Table.
Variable Unmarshal_DBInfo : bytes -> res Model.DBInfo.
Variable Unmarshal_TableInfo : bytes -> res Model.TableInfo.

Local Abbreviation table_of :=
  (Spec.table_of Database GetTable Unmarshal_DBInfo Unmarshal_TableInfo).
Local Abbreviation table_matches :=
  (Spec.table_matches Database GetTable Unmarshal_DBInfo Unmarshal_TableInfo).

Lemma completes_matches meta dbs cs schemas :
  Forall2 (Laws.completes meta) cs schemas ->
  Forall (table_matches dbs) schemas <->
  Forall (fun c =>
    exists s0 tbl,
      meta !! Checksums.name c = Some s0 /\ table_of dbs s0 tbl /\
      Spec.table_stats (Raw.TableFiles tbl) = Laws.reported c) cs.
Proof.
  induction 1 as [| c s cs schemas (s0 & Hs0 & ->) _ IH].
  - split; constructor.
  - rewrite !Forall_cons, IH.
    assert (Hone : table_matches dbs (Checksums.set_checksum s0 c) <->
                   exists s1 tbl,
                     meta !! Checksums.name c = Some s1 /\ table_of dbs s1 tbl /\
                     Spec.table_stats (Raw.TableFiles tbl) = Laws.reported c).
    { split.
      - intros (tbl & Hof & Hstats). exists s0, tbl. auto.
      - intros (s1 & tbl & Hs1 & Hof & Hstats).
        assert (s1 = s0) by congruence. subst s1.
        exists tbl. auto. }
    rewrite Hone. reflexivity.
Qed.

(** X24: after [CompleteMeta] has joined the checksums of distinct, filed
    names, [FastChecksum] on the resulting manifest returns [true] exactly
    when, for every checksum received, the schema it was received for
    names a loaded table whose files have that checksum, key count and
    byte count. *)
Theorem CompleteMeta_then_FastChecksum bc meta cs rest bc' meta' dbs :
  NoDup (map Checksums.name cs) ->
  Forall (Laws.registered meta) cs ->
  Checksums.CompleteMeta bc meta
    (map Checksums.Checksum cs ++ Checksums.Closed :: rest)
  = (bc', meta', Raw.Returned None) ->
  LoadBackupTables (Raw.backupMeta bc') = inr dbs ->
  (Raw.FastChecksum Database LoadBackupTables GetTable Unmarshal_DBInfo
                    Unmarshal_TableInfo bc' = Raw.Returned (true, None)
   <->
   Forall (fun c =>
     exists s0 tbl,
       meta !! Checksums.name c = Some s0 /\ table_of dbs s0 tbl /\
       Spec.table_stats (Raw.TableFiles tbl) = Laws.reported c) cs).
Proof.
  intros Hnodup Hreg Hjoin Hload.
  destruct (finish_collects meta cs rest Hnodup Hreg)
    as (meta1 & schemas & Hfin & Hcomp).
  unfold Checksums.CompleteMeta in Hjoin. rewrite Hfin in Hjoin.
  injection Hjoin as <- _.
  unfold Raw.FastChecksum. rewrite Hload. cbn.
  rewrite <- (completes_matches meta dbs cs schemas Hcomp). split.
  - intros Htrue. apply Verifier.FastChecksum_loop_true in Htrue as [_ Hall].
    exact Hall.
  - apply Verifier.FastChecksum_loop_all_match.
Qed.

End Verified.

Section Query.
Variable RecordSet : Type.
Variable EncloseName : string -> string.
Variable Execute : string -> res (list RecordSet).
Variable ResultSetToStringSlice : RecordSet -> res (list (list string)).
Variable ParseUint : string -> res Z.
Variable elapsed : Z.

Local Abbreviation getChecksumFromTiDB :=
  (Checksums.getChecksumFromTiDB RecordSet EncloseName Execute
     ResultSetToStringSlice ParseUint elapsed).

(** X25: [getChecksumFromTiDB] returns a checksum only when the
    statement [ADMIN CHECKSUM TABLE <db>.<table>], both names enclosed,
    yields a first record set whose first row has at least five columns;
    the checksum, the key count and the byte count are what columns 2, 3
    and 4 of that row parse to, and the name is left empty. *)
Theorem getChecksumFromTiDB_columns dbName tableName c :
  getChecksumFromTiDB dbName tableName = Raw.Returned (inr c) ->
  exists recordSets rs records row col2 col3 col4,
    Execute ("ADMIN CHECKSUM TABLE " +:+ EncloseName dbName +:+ "." +:+
             EncloseName tableName)%string = inr recordSets /\
    recordSets !! 0%nat = Some rs /\
    ResultSetToStringSlice rs = inr records /\
    records !! 0%nat = Some row /\
    (5 <= length row)%nat /\
    row !! 2%nat = Some col2 /\ ParseUint col2 = inr (Checksums.checksum c) /\
    row !! 3%nat = Some col3 /\ ParseUint col3 = inr (Checksums.totalKvs c) /\
    row !! 4%nat = Some col4 /\ ParseUint col4 = inr (Checksums.totalBytes c) /\
    Checksums.name c = "".
Proof.
  unfold Checksums.getChecksumFromTiDB, Checksums.checksum_sql.
  destruct (Execute _) as [e | recordSets] eqn:Hexec; [discriminate |].
  destruct (recordSets !! 0%nat) as [rs |] eqn:Hrs; [| discriminate].
  destruct (ResultSetToStringSlice rs) as [e | records] eqn:Hslice; [discriminate |].
  destruct (records !! 0%nat) as [row |] eqn:Hrow; [| discriminate].
  destruct (row !! 2%nat) as [col2 |] eqn:H2; [| discriminate].
  destruct (ParseUint col2) as [e | v2] eqn:Hp2; [discriminate |].
  destruct (row !! 3%nat) as [col3 |] eqn:H3; [| discriminate].
  destruct (ParseUint col3) as [e | v3] eqn:Hp3; [discriminate |].
  destruct (row !! 4%nat) as [col4 |] eqn:H4; [| discriminate].
  destruct (ParseUint col4) as [e | v4] eqn:Hp4; [discriminate |].
  intros [= <-]. exists recordSets, rs, records, row, col2, col3, col4.
  cbn. repeat (split; [first [reflexivity | assumption] |]).
  split; [| repeat (split; [first [reflexivity | assumption] |]); reflexivity].
  apply lookup_lt_Some in H4. lia.
Qed.

(** X26: a first row with fewer than five columns never yields a
    checksum: the call ends in an error of the parser or in a panic. *)
Theorem getChecksumFromTiDB_short_row dbName tableName recordSets rs records row :
  Execute (Checksums.checksum_sql EncloseName dbName tableName) = inr recordSets ->
  recordSets !! 0%nat = Some rs ->
  ResultSetToStringSlice rs = inr records ->
  records !! 0%nat = Some row ->
  (length row < 5)%nat ->
  getChecksumFromTiDB dbName tableName = Raw.Panicked \/
  exists err, getChecksumFromTiDB dbName tableName = Raw.Returned (inl err).
Proof.
  intros Hexec Hrs Hslice Hrow Hlen. unfold Checksums.getChecksumFromTiDB.
  rewrite Hexec, Hrs, Hslice, Hrow.
  destruct (row !! 2%nat) as [col2 |]; [| left; reflexivity].
  destruct (ParseUint col2) as [e | v2]; [right; eexists; reflexivity |].
  destruct (row !! 3%nat) as [col3 |]; [| left; reflexivity].
  destruct (ParseUint col3) as [e | v3]; [right; eexists; reflexivity |].
  destruct (row !! 4%nat) as [col4 |] eqn:H4; [| left; reflexivity].
  apply lookup_lt_Some in H4. lia.
Qed.

End Query.

Lemma finishTableChecksum_collects_witness :
  exists meta' schemas,
    Checksums.finishTableChecksum Cases.filed
      (map Checksums.Checksum [Cases.sum_usertable; Cases.sum_events]
       ++ Checksums.Closed :: [])
    = (meta', Raw.Returned (inr schemas)) /\
    Forall2 (Laws.completes Cases.filed)
            [Cases.sum_usertable; Cases.sum_events] schemas.
Proof.
  apply (finishTableChecksum_collects Cases.filed
           [Cases.sum_usertable; Cases.sum_events] []).
  - apply (bool_decide_unpack _). vm_compute. exact I.
  - repeat constructor; eexists; vm_compute; reflexivity.
Defined.

Lemma CompleteMeta_first_error_witness :
  exists meta',
    Checksums.CompleteMeta Scenario.fresh_client Cases.filed
      (map Checksums.Checksum [Cases.sum_usertable]
       ++ Checksums.Failed "admin checksum: region unavailable"
       :: [Checksums.Checksum Cases.sum_events; Checksums.Closed])
    = (Scenario.fresh_client, meta',
       Raw.Returned (Some "admin checksum: region unavailable"%string)).
Proof.
  apply (CompleteMeta_first_error Scenario.fresh_client Cases.filed
           [Cases.sum_usertable]).
  repeat constructor; eexists; vm_compute; reflexivity.
Defined.

Lemma finishTableChecksum_unknown_name_witness :
  snd (Checksums.finishTableChecksum
         (delete "shop.events" Cases.filed)
         (map Checksums.Checksum [Cases.sum_usertable]
          ++ Checksums.Checksum Cases.sum_events :: [Checksums.Closed]))
  = Raw.Panicked.
Proof.
  apply (finishTableChecksum_unknown_name (delete "shop.events" Cases.filed)
           [Cases.sum_usertable] Cases.sum_events [Checksums.Closed]).
  - repeat constructor; eexists; vm_compute; reflexivity.
  - vm_compute. reflexivity.
Defined.

(** The checksum reported for [shop.usertable] is that of its one file. *)
Lemma CompleteMeta_then_FastChecksum_witness :
  exists bc' meta',
    Checksums.CompleteMeta Scenario.fresh_client Cases.filed
      (map Checksums.Checksum [Cases.sum_usertable] ++ Checksums.Closed :: [])
    = (bc', meta', Raw.Returned None) /\
    Raw.FastChecksum _ Scenario.load_tables Scenario.get_table Scenario.decode_db
      Scenario.decode_table bc' = Raw.Returned (true, None).
Proof.
  eexists _, _. split; [vm_compute; reflexivity |].
  refine (proj2 (CompleteMeta_then_FastChecksum _ Scenario.load_tables
                   Scenario.get_table Scenario.decode_db Scenario.decode_table
                   Scenario.fresh_client Cases.filed [Cases.sum_usertable] []
                   _ _ Scenario.shop_tables _ _
                   ltac:(vm_compute; reflexivity) eq_refl) _).
  - apply (bool_decide_unpack _). vm_compute. exact I.
  - repeat constructor; eexists; vm_compute; reflexivity.
  - apply Forall_singleton.
    exists (Scenario.schema_usertable 0 0 0), {| Raw.TableFiles := [Scenario.f1] |}.
    split; [vm_compute; reflexivity |]. split; [| vm_compute; reflexivity].
    eexists _, _. repeat split; vm_compute; reflexivity.
Defined.

Lemma getChecksumFromTiDB_columns_witness :
  exists recordSets rs records row col2 col3 col4,
    Cases.execute_one ("ADMIN CHECKSUM TABLE " +:+ Cases.backquote "shop" +:+ "."
                       +:+ Cases.backquote "usertable")%string
      = inr recordSets /\
    recordSets !! 0%nat = Some rs /\
    Cases.rows_of rs = inr records /\
    records !! 0%nat = Some row /\
    (5 <= length row)%nat /\
    row !! 2%nat = Some col2 /\ Cases.parse_small col2 = inr 17 /\
    row !! 3%nat = Some col3 /\ Cases.parse_small col3 = inr 10 /\
    row !! 4%nat = Some col4 /\ Cases.parse_small col4 = inr 100 /\
    "" = ""%string.
Proof.
  exact (getChecksumFromTiDB_columns unit Cases.backquote Cases.execute_one
           Cases.rows_of Cases.parse_small 3 "shop" "usertable"
           {| Checksums.name := ""; Checksums.checksum := 17;
              Checksums.totalKvs := 10; Checksums.totalBytes := 100;
              Checksums.duration := 3 |} eq_refl).
Defined.

Lemma getChecksumFromTiDB_short_row_witness :
  Checksums.getChecksumFromTiDB unit Cases.backquote Cases.execute_one
    Cases.short_rows_of Cases.parse_small 3 "shop" "usertable" = Raw.Panicked \/
  exists err,
    Checksums.getChecksumFromTiDB unit Cases.backquote Cases.execute_one
      Cases.short_rows_of Cases.parse_small 3 "shop" "usertable"
    = Raw.Returned (inl err).
Proof.
  apply (getChecksumFromTiDB_short_row unit Cases.backquote Cases.execute_one
           Cases.short_rows_of Cases.parse_small 3 "shop" "usertable"
           [tt] tt [["shop"; "usertable"; "17"]] ["shop"; "usertable"; "17"]);
    try reflexivity.
  cbn. lia.
Defined.

End ChecksumFacts.

(** ** Writing the manifest *)

Module ManifestFacts.

Import Go.

Section Facts.
Variable Store : Type.
Variable Marshal : BackupMeta.t -> res bytes.
Variable Write : Store -> string -> bytes -> Store * option error.
(** [storage.FileExists] on the destination in a given state *)
Variable Exists : Store -> string -> bool.

(** X27: on a destination where a file written without error exists
    afterwards, a manifest saved by [SaveBackupMeta] bars the next job:
    the manifest carries the path it was saved with, and [SetStorage] on
    the destination as [SaveBackupMeta] left it returns an error. *)
Theorem saved_manifest_bars_next_job bc storage path bc' storage' CreateStorage
    base :
  (forall st n d st', Write st n d = (st', None) -> Exists st' n = true) ->
  Manifest.SaveBackupMeta Store Marshal Write bc storage path
    = (bc', storage', None) ->
  CreateStorage base = inr {| Raw.FileExists := Exists storage' |} ->
  BackupMeta.Path (Raw.backupMeta bc') = path /\
  exists err,
    snd (Raw.SetStorage CreateStorage base) = Some err.
Proof.
  intros Hlaw Hsave Hopen. unfold Manifest.SaveBackupMeta in Hsave.
  destruct (Marshal _) as [e | data]; [discriminate |].
  destruct (Write storage Raw.MetaFile data) as [st' err] eqn:Hwrite.
  injection Hsave as <- <- ->.
  split; [reflexivity |].
  unfold Raw.SetStorage. rewrite Hopen. cbn [Raw.FileExists].
  rewrite (Hlaw _ _ _ _ Hwrite). eexists. reflexivity.
Qed.

(** [SaveBackupMeta] changes nothing of the manifest but its path,
    and writes nothing when the manifest cannot be marshalled. *)
Lemma SaveBackupMeta_effect bc storage path :
  let r := Manifest.SaveBackupMeta Store Marshal Write bc storage path in
  Raw.backupMeta (fst (fst r)) = Manifest.set_path (Raw.backupMeta bc) path /\
  Raw.issued (fst (fst r)) = Raw.issued bc /\
  (forall e, Marshal (Manifest.set_path (Raw.backupMeta bc) path) = inl e ->
             snd (fst r) = storage /\ snd r = Some e).
Proof.
  unfold Manifest.SaveBackupMeta. cbn [Raw.set_backupMeta Raw.backupMeta].
  destruct (Marshal _) as [e | data].
  - cbn. split; [reflexivity |]. split; [reflexivity |].
    intros e' [= <-]. split; reflexivity.
  - destruct (Write storage Raw.MetaFile data) as [st' err].
    cbn. split; [reflexivity |]. split; [reflexivity |]. intros e [=].
Qed.

End Facts.

Lemma saved_manifest_bars_next_job_witness :
  BackupMeta.Path
    (Raw.backupMeta
       (fst (fst (Manifest.SaveBackupMeta _ Cases.marshal_meta Cases.write_file
                    Scenario.fresh_client ∅ "local:///backup"))))
  = "local:///backup"%string /\
  exists err,
    snd (Raw.SetStorage
           (fun _ => inr {| Raw.FileExists :=
                              Cases.file_exists {[ "backupmeta" := [Byte.x0a] ]} |})
           "local:///backup") = Some err.
Proof.
  refine (saved_manifest_bars_next_job _ Cases.marshal_meta Cases.write_file
            Cases.file_exists Scenario.fresh_client ∅ "local:///backup"
            _ _ (fun _ => inr _) "local:///backup" _ eq_refl eq_refl).
  intros st n d st' [= <-]. unfold Cases.file_exists.
  apply bool_decide_eq_true_2. rewrite lookup_insert_eq. eauto.
Defined.

End ManifestFacts.

(** ** The command handlers, further facts *)

Module HandlersMore.

Import Go.

Lemma check_ok e : Cmd.check e = inr tt -> e = None.
Proof. destruct e; [discriminate | reflexivity]. Qed.

Lemma run_backup_inv w ranges u backupTS rate concurrency :
  Cmd.run_backup w ranges u backupTS rate concurrency = inr tt ->
  Cmd.BackupRanges w ranges u backupTS rate concurrency = None /\
  Cmd.CompleteMeta w = None /\
  Cmd.SaveBackupMeta w u = None.
Proof.
  unfold Cmd.run_backup.
  destruct (Cmd.check (Cmd.BackupRanges w ranges u backupTS rate concurrency))
    as [e | []] eqn:Hb; cbn [bind]; [discriminate |].
  destruct (Cmd.check (Cmd.CompleteMeta w)) as [e | []] eqn:Hc; cbn [bind];
    [discriminate |].
  destruct (Cmd.flag_checksum w) as [e | checksumSwitch]; cbn [bind];
    [discriminate |].
  destruct (if checksumSwitch then _ else _) as [e | []]; cbn [bind];
    [discriminate |].
  intros Hs. auto using check_ok.
Qed.


(** X29: the [full] handler returns [nil] only when either the client
    could not be built, or all user tables were planned, the regions were
    counted, and the destination, the timestamp, the backup of the ranges,
    the join of the checksums and the writing of the manifest all
    succeeded. *)
Theorem full_RunE_success w :
  Cmd.full_RunE w = inr tt ->
  (exists e, Cmd.NewBackupClient w = inl e) \/
  exists ranges,
    Is_true (is_ok (Cmd.GetRangeRegionCount w [] [])) /\
    (forall backupTS,
       (exists timeAgo, Cmd.flag_timeago w = inr timeAgo /\
                        Cmd.GetTS w timeAgo = inr backupTS) ->
       Cmd.PreBackupAllTableRanges w backupTS = inr ranges) /\
    Laws.backup_done w ranges.
Proof.
  unfold Cmd.full_RunE.
  destruct (Cmd.GetDefaultBacker w) as [e | backer]; cbn [bind]; [discriminate |].
  destruct (Cmd.NewBackupClient w) as [e | client]; [left; eauto |].
  destruct (Cmd.flag_storage w) as [e | u] eqn:Hu; cbn [bind]; [discriminate |].
  destruct (decide (u = "")) as [-> | Hne]; [discriminate |].
  destruct (Cmd.check (Cmd.SetStorage w u)) as [e | []] eqn:Hs; cbn [bind];
    [discriminate |].
  destruct (Cmd.flag_timeago w) as [e | timeAgo] eqn:Hta; cbn [bind];
    [discriminate |].
  destruct (Cmd.GetTS w timeAgo) as [e | backupTS] eqn:Hts; cbn [bind];
    [discriminate |].
  destruct (Cmd.flag_ratelimit w) as [e | rate] eqn:Hrate; cbn [bind];
    [discriminate |].
  destruct (Cmd.flag_concurrency w) as [e | concurrency] eqn:Hconc; cbn [bind];
    [discriminate |].
  destruct (Z.eqb_spec concurrency 0) as [-> | Hc]; [discriminate |].
  destruct (Cmd.PreBackupAllTableRanges w backupTS) as [e | ranges] eqn:Hplan;
    cbn [bind]; [discriminate |].
  destruct (Cmd.GetRangeRegionCount w [] []) as [e | n] eqn:Hcount; cbn [bind];
    [discriminate |].
  intros Hrun. apply run_backup_inv in Hrun as (Hb & Hcm & Hsave).
  right. exists ranges.
  split; [exact I |].
  split.
  - intros ts' (ta & [= <-] & Hts'). congruence.
  - exists u, timeAgo, backupTS, rate, concurrency.
    repeat (split; [first [reflexivity | assumption | apply check_ok; assumption] |]).
    assumption.
Qed.

(** X30: a verdict [false] of [FastChecksum] is not an error: with the
    same error result, both handlers return what they return on the
    verdict [true]. *)
Theorem checksum_verdict_is_not_fatal w valid err :
  Cmd.full_RunE (Laws.with_FastChecksum w (valid, err))
    = Cmd.full_RunE (Laws.with_FastChecksum w (true, err)) /\
  Cmd.table_RunE (Laws.with_FastChecksum w (valid, err))
    = Cmd.table_RunE (Laws.with_FastChecksum w (true, err)).
Proof.
  assert (Hrun : forall ranges u backupTS rate concurrency,
            Cmd.run_backup (Laws.with_FastChecksum w (valid, err)) ranges u
                           backupTS rate concurrency
            = Cmd.run_backup (Laws.with_FastChecksum w (true, err)) ranges u
                             backupTS rate concurrency)
    by reflexivity.
  assert (Hcount : forall ranges n,
            Cmd.countRegions (Laws.with_FastChecksum w (valid, err)) ranges n
            = Cmd.countRegions (Laws.with_FastChecksum w (true, err)) ranges n).
  { induction ranges as [| r rest IH]; intros n; cbn [Cmd.countRegions];
      [reflexivity |].
    cbn [Laws.with_FastChecksum Cmd.GetRangeRegionCount].
    destruct (Cmd.GetRangeRegionCount w _ _); cbn [bind]; [reflexivity | apply IH]. }
  split.
  - unfold Cmd.full_RunE. cbn [Laws.with_FastChecksum Cmd.GetDefaultBacker
      Cmd.NewBackupClient Cmd.flag_storage Cmd.SetStorage Cmd.flag_timeago
      Cmd.GetTS Cmd.flag_ratelimit Cmd.flag_concurrency
      Cmd.PreBackupAllTableRanges Cmd.GetRangeRegionCount].
    repeat match goal with
           | |- bind ?m _ = bind ?m _ => destruct m; cbn [bind]; [reflexivity |]
           | |- match ?m with _ => _ end = match ?m with _ => _ end => destruct m
           | |- (if ?b then _ else _) = (if ?b then _ else _) => destruct b
           end; try reflexivity; apply Hrun.
  - unfold Cmd.table_RunE. cbn [Laws.with_FastChecksum Cmd.GetDefaultBacker
      Cmd.NewBackupClient Cmd.flag_storage Cmd.SetStorage Cmd.flag_timeago
      Cmd.GetTS Cmd.flag_ratelimit Cmd.flag_concurrency Cmd.flag_db Cmd.flag_table
      Cmd.PreBackupTableRanges].
    repeat match goal with
           | |- bind (Cmd.countRegions _ _ _) _ = _ => rewrite Hcount
           | |- bind ?m _ = bind ?m _ => destruct m; cbn [bind]; [reflexivity |]
           | |- match ?m with _ => _ end = match ?m with _ => _ end => destruct m
           | |- (if ?b then _ else _) = (if ?b then _ else _) => destruct b
           end; try reflexivity; apply Hrun.
Qed.


Lemma full_RunE_success_witness :
  (exists e, Cmd.NewBackupClient Cases.all_well = inl e) \/
  exists ranges,
    Is_true (is_ok (Cmd.GetRangeRegionCount Cases.all_well [] [])) /\
    (forall backupTS,
       (exists timeAgo, Cmd.flag_timeago Cases.all_well = inr timeAgo /\
                        Cmd.GetTS Cases.all_well timeAgo = inr backupTS) ->
       Cmd.PreBackupAllTableRanges Cases.all_well backupTS = inr ranges) /\
    Laws.backup_done Cases.all_well ranges.
Proof.
  exact (full_RunE_success Cases.all_well eq_refl).
Defined.

End HandlersMore.
